(** * FileAlchemy: the conversion orchestration core

    A shallow embedding of the client-side orchestration code of FileAlchemy
    (format tables, conversion client, mock fallback, smart service and the
    session reducer) together with the properties its specification states.

    Conventions of the embedding:
    - JavaScript strings are [string]s of 8-bit characters; [toUpperCase] and
      [toLowerCase] act on the ASCII letters, which is what the engine does on
      the ASCII range (every format identifier of the tables is ASCII).
    - [null] / [undefined] arguments are [None] of an [option].
    - Non-determinism of the platform ([Math.random], [URL.createObjectURL],
      the remote service) is an explicit input: a stream of draws, a counter
      of fresh URLs, the list of answers of the server.
    - A number is kept as the rational it denotes ([Q]).  Where the code
      multiplies and adds before it rounds (the size of a mock result) every
      operation rounds to binary64 as the engine does (module [Number]);
      the percentages of progress and of the history are rounded from the
      exact quotient. *)

From Stdlib Require Import List String Ascii Bool Arith ZArith QArith Qround Qabs Qpower.
From Stdlib Require Import Lia Lqa DecimalString.
From Stdlib Require Import Sorted Permutation.
Import ListNotations.
Open Scope string_scope.

(** ** JavaScript string primitives *)

Module JsString.

Definition isLowerAscii (c : ascii) : bool :=
  let n := nat_of_ascii c in (97 <=? n)%nat && (n <=? 122)%nat.

Definition isUpperAscii (c : ascii) : bool :=
  let n := nat_of_ascii c in (65 <=? n)%nat && (n <=? 90)%nat.

Definition upperChar (c : ascii) : ascii :=
  if isLowerAscii c then ascii_of_nat (nat_of_ascii c - 32) else c.

Definition lowerChar (c : ascii) : ascii :=
  if isUpperAscii c then ascii_of_nat (nat_of_ascii c + 32) else c.

(** [String.prototype.toUpperCase] *)
Fixpoint toUpperCase (s : string) : string :=
  match s with
  | EmptyString => EmptyString
  | String c r => String (upperChar c) (toUpperCase r)
  end.

(** [String.prototype.toLowerCase] *)
Fixpoint toLowerCase (s : string) : string :=
  match s with
  | EmptyString => EmptyString
  | String c r => String (lowerChar c) (toLowerCase r)
  end.

(** [Array.prototype.includes] on an array of strings. *)
Definition includes (l : list string) (x : string) : bool :=
  existsb (String.eqb x) l.


End JsString.

(** ** data/conversions.js *)

Module Conversions.
Import JsString.

Record Category := mkCategory {
  name : string;
  description : string;
  color : string;
  formats : list string
}.

(** The object literal [conversionCategories]; [Object.entries] enumerates
    its keys in insertion order, which is the order of this list.  The
    [icon] field (an emoji) plays no part in any lookup and is left out. *)
Definition conversionCategories : list (string * Category) :=
  [ ("images", mkCategory "Images" "Convert between image formats"
       "from-blue-500 to-purple-600"
       ["JPEG"; "PNG"; "WEBP"; "BMP"; "TIFF"; "GIF"; "SVG"; "ICO"; "HEIC"]);
    ("documents", mkCategory "Documents" "Convert documents and text files"
       "from-green-500 to-blue-600"
       ["PDF"; "DOCX"; "TXT"; "HTML"; "RTF"; "XLSX"; "CSV"; "PPTX"; "ODT"; "ODS"; "ODP"]);
    ("video", mkCategory "Video" "Convert video files and formats"
       "from-purple-500 to-pink-600"
       ["MP4"; "AVI"; "MOV"; "MKV"; "WMV"; "WEBM"; "GIF"]);
    ("audio", mkCategory "Audio" "Convert audio files and formats"
       "from-pink-500 to-red-600"
       ["MP3"; "WAV"; "AAC"; "FLAC"; "OGG"]);
    ("archives", mkCategory "Archives" "Extract and compress archives"
       "from-yellow-500 to-orange-600"
       ["ZIP"; "RAR"; "7Z"; "TAR"; "GZ"]);
    ("other", mkCategory "Other" "Additional conversion tools"
       "from-gray-500 to-blue-600"
       ["JSON"; "XML"; "YAML"; "CSV"]) ].

(** The object literal [supportedConversions]. *)
Definition supportedConversions : list (string * list string) :=
  [ ("JPEG", ["PNG"; "WEBP"; "BMP"; "TIFF"; "GIF"]);
    ("PNG", ["JPEG"; "WEBP"; "BMP"; "TIFF"; "GIF"; "ICO"]);
    ("WEBP", ["JPEG"; "PNG"; "BMP"; "TIFF"]);
    ("BMP", ["JPEG"; "PNG"; "WEBP"; "TIFF"]);
    ("TIFF", ["JPEG"; "PNG"; "WEBP"; "BMP"]);
    ("GIF", ["JPEG"; "PNG"; "WEBP"; "MP4"; "WEBM"]);
    ("SVG", ["PNG"; "JPEG"]);
    ("ICO", ["PNG"; "JPEG"]);
    ("HEIC", ["JPEG"; "PNG"]);
    ("PDF", ["DOCX"; "TXT"; "HTML"; "RTF"; "JPEG"; "PNG"]);
    ("DOCX", ["PDF"; "TXT"; "RTF"; "HTML"; "ODT"]);
    ("TXT", ["DOCX"; "PDF"; "HTML"]);
    ("HTML", ["PDF"; "DOCX"; "TXT"]);
    ("RTF", ["DOCX"; "PDF"; "TXT"]);
    ("XLSX", ["CSV"; "PDF"; "TXT"]);
    ("CSV", ["XLSX"; "PDF"; "TXT"; "JSON"]);
    ("JSON", ["CSV"; "XLSX"]);
    ("PPTX", ["PDF"; "JPEG"; "ODP"]);
    ("MP4", ["AVI"; "MOV"; "MKV"; "WMV"; "WEBM"; "GIF"]);
    ("AVI", ["MP4"; "MOV"; "MKV"; "WMV"]);
    ("MOV", ["MP4"; "AVI"; "MKV"; "WMV"]);
    ("MKV", ["MP4"; "AVI"; "MOV"; "WMV"]);
    ("WMV", ["MP4"; "AVI"; "MOV"; "MKV"]);
    ("WEBM", ["MP4"; "AVI"; "MOV"]);
    ("MP3", ["WAV"; "AAC"; "FLAC"; "OGG"]);
    ("WAV", ["MP3"; "AAC"; "FLAC"; "OGG"]);
    ("AAC", ["MP3"; "WAV"; "FLAC"; "OGG"]);
    ("FLAC", ["MP3"; "WAV"; "AAC"; "OGG"]);
    ("OGG", ["MP3"; "WAV"; "AAC"; "FLAC"]);
    ("ZIP", ["7Z"; "TAR"; "GZ"]);
    ("RAR", ["ZIP"; "7Z"; "TAR"; "GZ"]);
    ("7Z", ["ZIP"; "TAR"; "GZ"]);
    ("TAR", ["ZIP"; "7Z"; "GZ"]);
    ("GZ", ["ZIP"; "7Z"; "TAR"]) ].

(** Property names every plain object inherits from [Object.prototype]: a
    bracket lookup that misses the own keys finds these. *)
Definition objectPrototypeKeys : list string :=
  [ "constructor"; "hasOwnProperty"; "isPrototypeOf"; "propertyIsEnumerable";
    "toLocaleString"; "toString"; "valueOf"; "__proto__";
    "__defineGetter__"; "__defineSetter__"; "__lookupGetter__"; "__lookupSetter__" ].

(** What [supportedConversions[k]] evaluates to. *)
Inductive JsValue :=
| JsArray (l : list string)
| JsInherited (k : string)
| JsUndefined.

Fixpoint ownProperty {A} (obj : list (string * A)) (k : string) : option A :=
  match obj with
  | [] => None
  | (k', v) :: rest => if String.eqb k k' then Some v else ownProperty rest k
  end.

Definition getProperty (obj : list (string * list string)) (k : string) : JsValue :=
  match ownProperty obj k with
  | Some l => JsArray l
  | None => if includes objectPrototypeKeys k then JsInherited k else JsUndefined
  end.

(** ConversionPage.jsx:
    [state.sourceFormat ? supportedConversions[state.sourceFormat] || [] : []].
    Arrays (also empty ones) and inherited members are truthy. *)
Definition targetFormats (sourceFormat : option string) : JsValue :=
  match sourceFormat with
  | None => JsArray []
  | Some EmptyString => JsArray []
  | Some f =>
      match getProperty supportedConversions f with
      | JsUndefined => JsArray []
      | v => v
      end
  end.

(** [getCategoryByFormat]: the first category, in table order, whose member
    list includes the upper-cased format; ['other'] when none does. *)
Fixpoint scanCategories (cats : list (string * Category)) (upper : string) : string :=
  match cats with
  | [] => "other"
  | (categoryKey, category) :: rest =>
      if includes (formats category) upper then categoryKey
      else scanCategories rest upper
  end.

Definition getCategoryByFormat (format : string) : string :=
  scanCategories conversionCategories (toUpperCase format).

(** [isMultiPageConversion]; the optional chaining [?.] turns a missing
    argument into [undefined], which equals no string and is in no array. *)
Definition isMultiPageConversion (sourceFormat targetFormat : option string) : bool :=
  match option_map toUpperCase sourceFormat with
  | Some s => String.eqb s "PDF"
  | None => false
  end
  &&
  match option_map toUpperCase targetFormat with
  | Some t => includes ["JPEG"; "PNG"] t
  | None => false
  end.

(** Membership of a format in the member list of a category of the table. *)
Definition declaredIn (categoryKey format : string) : Prop :=
  exists c, In (categoryKey, c) conversionCategories /\ In format (formats c).

(** Every (category, format) membership the table declares, in table order. *)
Definition declarations : list (string * string) :=
  flat_map (fun kc => map (pair (fst kc)) (formats (snd kc))) conversionCategories.

(** The two formats that the table lists under two categories. *)
Definition sharedFormat (f c1 c2 : string) : bool :=
  (String.eqb f "GIF" &&
     ((String.eqb c1 "images" && String.eqb c2 "video") ||
      (String.eqb c1 "video" && String.eqb c2 "images"))) ||
  (String.eqb f "CSV" &&
     ((String.eqb c1 "documents" && String.eqb c2 "other") ||
      (String.eqb c1 "other" && String.eqb c2 "documents"))).

Definition allFormats : list string :=
  flat_map (fun kc => formats (snd kc)) conversionCategories.

(** A valid upper-case format string: non-empty, unchanged by
    [toUpperCase], and a member of some category of the table. *)
Definition validFormat (f : string) : bool :=
  negb (String.eqb f EmptyString) && String.eqb (toUpperCase f) f && includes allFormats f.

End Conversions.

(** ** Values exchanged between the services *)

Module File.
(** A browser [File]: only name, size and MIME type are ever read. *)
Record t := mk { name : string; size : Z; type : string }.
End File.

(** A download location: an object URL minted by [URL.createObjectURL]
    (identified by its serial number) or an address on the backend. *)
Inductive Url :=
| ObjectUrl (id : nat)
| RemoteUrl (address : string).

Module Result.
(** One per-file entry of a conversion. *)
Record t := mk {
  originalFile : option File.t;
  convertedFileName : string;
  downloadUrl : option Url;
  size : Z;
  success : bool;
  error : option string
}.
End Result.

Module ConversionData.
(** The record handed to the history sink. *)
Record t := mk {
  sourceFormat : string;
  targetFormat : string;
  category : string;
  files : list File.t;
  success : bool;
  successfulFiles : nat;
  failedFiles : nat;
  startTime : Z;
  endTime : Z;
  processingTimeMs : Z;
  backendUsed : string;
  apiVersion : string;
  results : option (list Result.t);
  errorMessage : option string
}.
End ConversionData.

Module Outcome.
(** The object a [convertFiles] call resolves with. *)
Record t := mk {
  success : bool;
  results : list Result.t;
  message : string;
  conversionData : ConversionData.t
}.
End Outcome.

(** [onProgress(percent, status)] calls, oldest first. *)
Definition ProgressEvent : Type := (Z * option string)%type.

(** How an asynchronous call ends: it resolves, it rejects, or it is still
    waiting for an answer that the environment has not given. *)
Inductive Completion (A E : Type) :=
| Resolved (a : A)
| Rejected (e : E)
| Waiting.
Arguments Resolved {A E} a.
Arguments Rejected {A E} e.
Arguments Waiting {A E}.

(** How a call that needs a single answer ends. *)
Inductive Settled (A E : Type) :=
| Fulfilled (a : A)
| Thrown (e : E).
Arguments Fulfilled {A E} a.
Arguments Thrown {A E} e.

(** What [fetch] followed by [response.json()] delivers once the request
    is answered: a transport failure, or a response with its status code and
    its body ([None] when the body is not JSON, in which case
    [response.json()] throws).  No request has a timeout: one that is never
    answered delivers nothing and the call that awaits it stays suspended,
    which is the absence of a move in [SmartSession] and the end of the list
    of answers in [ConversionApi.pollConversionStatus]. *)
Inductive Fetch (A : Type) :=
| NetworkError
| Response (status : nat) (body : option A).
Arguments NetworkError {A}.
Arguments Response {A} status body.

(** [response.ok] *)
Definition ok (status : nat) : bool := (200 <=? status)%nat && (status <=? 299)%nat.

(** Decimal rendering of a counter inside a template literal. *)
Definition showNat (n : nat) : string := DecimalString.NilEmpty.string_of_uint (Nat.to_uint n).

(** [s.replace(pattern, replacement)] for a plain string pattern and a
    replacement holding no [$]: the first occurrence is replaced. *)
Definition replaceFirst (pattern replacement s : string) : string :=
  match String.index 0 pattern s with
  | Some n =>
      String.substring 0 n s ++ replacement ++
      String.substring (n + String.length pattern)
                       (String.length s - (n + String.length pattern)) s
  | None => s
  end.

(** config/api.js *)
Definition API_BASE_URL : string := "https://filealchemy-production.up.railway.app/api".

(** ** services/conversionApi.js: the remote client *)

Module ConversionApi.
Import JsString.

Record ConversionApiError := mkError {
  message : string;
  status : option nat;
  conversionData : option ConversionData.t
}.

Definition newError (msg : string) (st : option nat) : ConversionApiError :=
  mkError msg st None.

(** Body of [/upload]; [upload_error] is its field [error]. *)
Record UploadBody := mkUpload { job_id : option string; upload_error : option string }.

(** One entry of [results] in the body of [/status/{jobId}]; the fields
    [size], [success] and [error] of the source carry the prefix [item_]. *)
Record ResultItem := mkItem {
  original_filename : string;
  converted_filename : string;
  download_url : option string;
  item_size : Z;
  item_success : bool;
  item_error : option string
}.

(** Body of [/status/{jobId}]; an absent field is [None].  The field
    [status] of the source is [job_status] here. *)
Record StatusData := mkStatus {
  job_status : option string;
  progress : Z;
  results : option (list ResultItem);
  error_message : option string
}.

(** [x || fallback] on an optional string: absent and empty are falsy. *)
Definition orElse (x : option string) (fallback : string) : string :=
  match x with
  | Some EmptyString => fallback
  | Some s => s
  | None => fallback
  end.

(** A value inside a template literal. *)
Definition interpolate (x : option string) : string :=
  match x with Some s => s | None => "undefined" end.

Definition checkHealth (r : Fetch unit) : Settled unit ConversionApiError :=
  match r with
  | NetworkError => Thrown (newError "Failed to connect to backend API" None)
  | Response st body =>
      if ok st then
        match body with
        | Some b => Fulfilled b
        | None => Thrown (newError "Failed to connect to backend API" None)
        end
      else Thrown (newError "Backend API is not responding" (Some st))
  end.

Definition getSupportedFormats (r : Fetch (list (string * list string)))
  : Settled (list (string * list string)) ConversionApiError :=
  match r with
  | NetworkError => Thrown (newError "Failed to fetch supported formats" None)
  | Response st body =>
      if ok st then
        match body with
        | Some formats => Fulfilled formats
        | None => Thrown (newError "Failed to fetch supported formats" None)
        end
      else Thrown (newError "Failed to fetch supported formats" (Some st))
  end.

(** [startConversion]: the body is parsed before [response.ok] is read. *)
Definition startConversion (r : Fetch UploadBody) : Settled UploadBody ConversionApiError :=
  match r with
  | NetworkError => Thrown (newError "Failed to start conversion" None)
  | Response st None => Thrown (newError "Failed to start conversion" None)
  | Response st (Some data) =>
      if ok st then Fulfilled data
      else Thrown (newError (orElse (upload_error data) "Upload failed") (Some st))
  end.

Definition getConversionStatus (r : Fetch StatusData) : Settled StatusData ConversionApiError :=
  match r with
  | NetworkError => Thrown (newError "Failed to get conversion status" None)
  | Response st body =>
      if ok st then
        match body with
        | Some data => Fulfilled data
        | None => Thrown (newError "Failed to get conversion status" None)
        end
      else if (st =? 404)%nat then Thrown (newError "Conversion job not found" (Some 404%nat))
      else Thrown (newError "Failed to get conversion status" (Some st))
  end.

(** What one run of the inner [poll] closure decides once the status
    payload has arrived. *)
Inductive PollStep :=
| Resolve (d : StatusData)
| Reject (e : ConversionApiError)
| Continue.

Definition pollStep (statusData : StatusData) : PollStep :=
  match job_status statusData with
  | Some s =>
      if String.eqb s "completed" then Resolve statusData
      else if String.eqb s "failed" then
        Reject (newError (orElse (error_message statusData) "Conversion failed") None)
      else if String.eqb s "processing" || String.eqb s "pending" then Continue
      else Reject (newError ("Unknown status: " ++ s) None)
  | None => Reject (newError ("Unknown status: " ++ interpolate None) None)
  end.

(** [pollConversionStatus] against the successive answers of the status
    endpoint.  Each round reports progress (the caller's [onProgress]) and
    either settles the promise or arms the timer for the next round; when
    the answers run out the promise is still pending. *)
Fixpoint pollConversionStatus (answers : list (Fetch StatusData))
  : Completion StatusData ConversionApiError * list ProgressEvent :=
  match answers with
  | [] => (Waiting, [])
  | r :: later =>
      match getConversionStatus r with
      | Fulfilled statusData =>
          let ev := (progress statusData, job_status statusData) in
          match pollStep statusData with
          | Resolve d => (Resolved d, [ev])
          | Reject e => (Rejected e, [ev])
          | Continue =>
              let '(c, evs) := pollConversionStatus later in (c, ev :: evs)
          end
      | Thrown e => (Rejected e, [])
      end
  end.

(** A successful answer of the status endpoint carrying [d]. *)
Definition answer (d : StatusData) : Fetch StatusData := Response 200 (Some d).

(** The job is still under way. *)
Definition inProgress (d : StatusData) : Prop :=
  job_status d = Some "processing" \/ job_status d = Some "pending".

Definition getCategoryFromFormat (format : string) : string :=
  let imageFormats := ["JPEG"; "PNG"; "WEBP"; "BMP"; "TIFF"; "GIF"; "SVG"; "ICO"; "HEIC"] in
  let documentFormats :=
    ["PDF"; "DOCX"; "TXT"; "HTML"; "RTF"; "XLSX"; "CSV"; "PPTX"; "ODT"; "ODS"; "ODP"] in
  let videoFormats := ["MP4"; "AVI"; "MOV"; "MKV"; "WMV"; "WEBM"] in
  let audioFormats := ["MP3"; "WAV"; "AAC"; "FLAC"; "OGG"] in
  let archiveFormats := ["ZIP"; "RAR"; "7Z"; "TAR"; "GZ"] in
  let upperFormat := toUpperCase format in
  if includes imageFormats upperFormat then "images"
  else if includes documentFormats upperFormat then "documents"
  else if includes videoFormats upperFormat then "video"
  else if includes audioFormats upperFormat then "audio"
  else if includes archiveFormats upperFormat then "archives"
  else "other".

(** [getDownloadUrl] *)
Definition getDownloadUrl (downloadPath : string) : string :=
  replaceFirst "/api" EmptyString API_BASE_URL ++ downloadPath.

(** [files.find(f => f.name === item.original_filename)] *)
Definition findByName (files : list File.t) (n : string) : option File.t :=
  find (fun f => String.eqb (File.name f) n) files.

Definition processItem (files : list File.t) (item : ResultItem) : Result.t :=
  Result.mk (findByName files (original_filename item))
            (converted_filename item)
            (match download_url item with
             | Some EmptyString => None
             | Some p => Some (RemoteUrl (getDownloadUrl p))
             | None => None
             end)
            (item_size item)
            (item_success item)
            (item_error item).

Definition countSuccessful (rs : list Result.t) : nat :=
  List.length (filter Result.success rs).

(** What the backend does during one [convertFiles] call, and the two
    readings of [Date.now()]. *)
Record Remote := mkRemote {
  upload : Fetch UploadBody;
  statuses : list (Fetch StatusData);
  startTime : Z;
  endTime : Z
}.

(** Message of the [TypeError] raised by reading [map] of [undefined]. *)
Definition missingResultsMessage : string :=
  "Cannot read properties of undefined (reading 'map')".

Definition failureData (files : list File.t) (sourceFormat targetFormat : string)
    (env : Remote) (e : ConversionApiError) : ConversionApiError :=
  mkError (message e) (status e)
    (Some (ConversionData.mk sourceFormat targetFormat
             (getCategoryFromFormat sourceFormat) files
             false 0 (List.length files)
             (startTime env) (endTime env) (endTime env - startTime env)
             "api" "1.0" None (Some (message e)))).

Definition convertFiles (files : list File.t) (sourceFormat targetFormat : string)
    (env : Remote)
  : Completion Outcome.t ConversionApiError * list ProgressEvent :=
  match startConversion (upload env) with
  | Thrown e => (Rejected (failureData files sourceFormat targetFormat env e), [])
  | Fulfilled uploadResult =>
      match pollConversionStatus (statuses env) with
      | (Rejected e, evs) =>
          (Rejected (failureData files sourceFormat targetFormat env e), evs)
      | (Waiting, evs) => (Waiting, evs)
      | (Resolved result, evs) =>
        match results result with
        | None =>
            (* [result.results.map] on a missing array throws inside the [try] *)
            (Rejected (failureData files sourceFormat targetFormat env
                         (newError missingResultsMessage None)), evs)
        | Some items =>
          let processedResults := map (processItem files) items in
          let successfulFiles := countSuccessful processedResults in
          let failedFiles := (List.length processedResults - successfulFiles)%nat in
          let conversionData :=
            ConversionData.mk sourceFormat targetFormat
              (getCategoryFromFormat sourceFormat) files
              (0 <? successfulFiles)%nat successfulFiles failedFiles
              (startTime env) (endTime env) (endTime env - startTime env)
              "api" "1.0" (Some processedResults) None in
          (Resolved (Outcome.mk true processedResults
                       ("Successfully converted " ++ showNat successfulFiles ++ " of "
                          ++ showNat (List.length processedResults) ++ " files")
                       conversionData), evs)
        end
      end
  end.

End ConversionApi.

(** ** The browser: object URLs and the random source *)

Module Browser.
(** [nextObjectUrl] is the serial number [URL.createObjectURL] hands out
    next; [issued] is the blob URL store: each URL handed out with the
    [File] it was made from ([None] for any other blob), latest first;
    [revoked] logs the arguments of [URL.revokeObjectURL], latest first;
    [random] lists the values [Math.random()] will return and [drawn]
    counts those already consumed. *)
Record t := mk {
  nextObjectUrl : nat;
  issued : list (nat * option File.t);
  revoked : list nat;
  random : nat -> Q;
  drawn : nat
}.

Definition fresh (random : nat -> Q) : t := mk 0 [] [] random 0.

Definition createObjectURL (blob : option File.t) (b : t) : nat * t :=
  (nextObjectUrl b,
   mk (S (nextObjectUrl b)) ((nextObjectUrl b, blob) :: issued b) (revoked b)
      (random b) (drawn b)).

Definition revokeObjectURL (u : nat) (b : t) : t :=
  mk (nextObjectUrl b) (issued b) (u :: revoked b) (random b) (drawn b).

Definition mathRandom (b : t) : Q * t :=
  (random b (drawn b),
   mk (nextObjectUrl b) (issued b) (revoked b) (random b) (S (drawn b))).

(** Serial numbers are handed out once and in order, and nothing has been
    revoked twice or before it was issued. *)
Record wellFormed (b : t) : Prop := mkWellFormed {
  issued_below : forall u blob, In (u, blob) (issued b) -> (u < nextObjectUrl b)%nat;
  issued_once : NoDup (map fst (issued b));
  revoked_below : forall u, In u (revoked b) -> (u < nextObjectUrl b)%nat;
  revoked_once : NoDup (revoked b)
}.

(** [Math.round]: the nearest integer, halves rounded up. *)
Definition mathRound (x : Q) : Z := Qfloor (x + (1 # 2)).

End Browser.

(** ** JavaScript numbers: IEEE 754 binary64 *)

Module Number.
(** A finite JavaScript number is a whole multiple [m * 2^e] of a power of
    two with [|m| < 2^53] and [-1074 <= e]; it is kept as the rational it
    denotes.  A decimal literal, a product and a sum are each the exact
    value rounded to the nearest such number, ties going to the even
    significand.  Overflow to [Infinity] (from 2^1024 on) is left out: the
    numbers of this development stay below 2^55. *)

Definition pow2 (e : Z) : Q := 2 ^ e.

(** For positive [x], the [k] with [2^k <= x < 2^(k+1)]. *)
Definition floorLog2 (x : Q) : Z :=
  let k := (Z.log2 (Qnum x) - Z.log2 (Zpos (Qden x)))%Z in
  if Qle_bool (pow2 k) x then k else (k - 1)%Z.

(** The exponent of the unit in the last place of the numbers around [x]:
    53 significant bits, and the fixed exponent of the subnormal numbers
    below 2^-1022. *)
Definition ulpExponent (x : Q) : Z := Z.max (floorLog2 (Qabs x) - 52) (-1074).

(** The nearest integer, a tie going to the even one. *)
Definition nearestEven (y : Q) : Z :=
  let f := Qfloor y in
  match Qcompare (y - inject_Z f) (1 # 2) with
  | Lt => f
  | Gt => (f + 1)%Z
  | Eq => if Z.even f then f else (f + 1)%Z
  end.

(** The binary64 number nearest to [x]. *)
Definition round (x : Q) : Q :=
  inject_Z (nearestEven (x / pow2 (ulpExponent x))) * pow2 (ulpExponent x).

(** A decimal literal of the source text. *)
Definition literal (decimal : Q) : Q := round decimal.

(** [x + y] and [x * y] on numbers. *)
Definition add (x y : Q) : Q := round (x + y).

Definition mul (x y : Q) : Q := round (x * y).

(** The values of [Math.random()] in the engines: multiples of 2^-53. *)
Definition onGrid (q : Q) : Prop := exists k : Z, q == inject_Z k * pow2 (-53).

End Number.

(** ** services/conversionApi.js: the mock fallback *)

Module MockConversionApi.
Import JsString.

(** The character class [[^/.]]. *)
Definition extensionChar (c : ascii) : bool :=
  negb (Ascii.eqb c "/") && negb (Ascii.eqb c ".").

Fixpoint allExtensionChars (s : string) : bool :=
  match s with
  | EmptyString => true
  | String c r => extensionChar c && allExtensionChars r
  end.

(** Does [/\.[^/.]+$/] match with the match starting at the head of [s]? *)
Definition matchesAtStart (s : string) : bool :=
  match s with
  | String "." e => negb (String.eqb e EmptyString) && allExtensionChars e
  | _ => false
  end.

(** The leftmost match of [/\.[^/.]+$/]: the text before it and the match. *)
Fixpoint searchExtension (s : string) : option (string * string) :=
  if matchesAtStart s then Some (EmptyString, s)
  else match s with
       | EmptyString => None
       | String c r =>
           match searchExtension r with
           | Some (before, matched) => Some (String c before, matched)
           | None => None
           end
       end.

(** Expansion of the replacement text of [String.prototype.replace]: [$$]
    is a dollar, [$&] the match, [$`] the text before it and [$'] the text
    after it; the pattern has no capture group, so any other [$] stays. *)
Fixpoint getSubstitution (matched before after replacement : string) : string :=
  match replacement with
  | EmptyString => EmptyString
  | String "$" (String "$" r) => String "$" (getSubstitution matched before after r)
  | String "$" (String "&" r) => matched ++ getSubstitution matched before after r
  | String "$" (String "`" r) => before ++ getSubstitution matched before after r
  | String "$" (String "'" r) => after ++ getSubstitution matched before after r
  | String c r => String c (getSubstitution matched before after r)
  end.

(** [name.replace(/\.[^/.]+$/, replacement)] *)
Definition replaceExtension (name replacement : string) : string :=
  match searchExtension name with
  | Some (before, matched) => before ++ getSubstitution matched before EmptyString replacement
  | None => name
  end.

Definition convertedName (file : File.t) (targetFormat : string) : string :=
  replaceExtension (File.name file) ("." ++ toLowerCase targetFormat).

(** The eleven [onProgress] calls made while file number [i] is processed. *)
Definition progressOf (i totalFiles : nat) : list ProgressEvent :=
  map (fun progress : nat =>
         (Browser.mathRound
            (inject_Z (Z.of_nat (i * 100 + progress)) / inject_Z (Z.of_nat totalFiles)),
          Some "processing"))
      [0; 10; 20; 30; 40; 50; 60; 70; 80; 90; 100]%nat.

(** [file.size * (0.7 + r1 * 0.6)], each operation rounded to binary64. *)
Definition scaledSize (size : Z) (r1 : Q) : Q :=
  Number.mul (inject_Z size)
             (Number.add (Number.literal (7 # 10)) (Number.mul r1 (Number.literal (6 # 10)))).

(** The object pushed for one file, given the blob URL and the two values
    of [Math.random()] that the object literal reads, in this order. *)
Definition mockEntry (file : File.t) (targetFormat : string) (mockUrl : nat)
    (r1 r2 : Q) : Result.t :=
  Result.mk (Some file)
            (convertedName file targetFormat)
            (Some (ObjectUrl mockUrl))
            (Browser.mathRound (scaledSize (File.size file) r1))
            (negb (Qle_bool r2 (Number.literal (5 # 100))))
            None.

(** The mock result of one file: a blob URL is minted, then two draws are
    taken, the first for the size and the second for the success flag. *)
Definition mockResult (file : File.t) (targetFormat : string) (b : Browser.t)
  : Result.t * Browser.t :=
  let '(mockUrl, b1) := Browser.createObjectURL None b in
  let '(r1, b2) := Browser.mathRandom b1 in
  let '(r2, b3) := Browser.mathRandom b2 in
  (mockEntry file targetFormat mockUrl r1 r2, b3).

(** The draws that the file at index [k] of a call started in [b] reads. *)
Definition sizeDraw (b : Browser.t) (k : nat) : Q :=
  Browser.random b (Browser.drawn b + 2 * k).

Definition successDraw (b : Browser.t) (k : nat) : Q :=
  Browser.random b (Browser.drawn b + 2 * k + 1).

(** The [for] loop over the files, from index [i]. *)
Fixpoint convertLoop (files : list File.t) (i totalFiles : nat) (targetFormat : string)
    (b : Browser.t) : list Result.t * list ProgressEvent * Browser.t :=
  match files with
  | [] => ([], [], b)
  | file :: rest =>
      let '(r, b1) := mockResult file targetFormat b in
      let '(rs, evs, b2) := convertLoop rest (S i) totalFiles targetFormat b1 in
      (r :: rs, (progressOf i totalFiles ++ evs)%list, b2)
  end.

Definition convertFiles (files : list File.t) (sourceFormat targetFormat : string)
    (startTime endTime : Z) (b : Browser.t)
  : Outcome.t * list ProgressEvent * Browser.t :=
  let totalFiles := List.length files in
  let '(results, evs, b') := convertLoop files 0 totalFiles targetFormat b in
  let successfulFiles := ConversionApi.countSuccessful results in
  let failedFiles := (List.length results - successfulFiles)%nat in
  let conversionData :=
    ConversionData.mk sourceFormat targetFormat
      (ConversionApi.getCategoryFromFormat sourceFormat) files
      (0 <? successfulFiles)%nat successfulFiles failedFiles
      startTime endTime (endTime - startTime)
      "mock" "1.0" (Some results) None in
  (Outcome.mk true results
     ("Successfully converted " ++ showNat successfulFiles ++ " of "
        ++ showNat totalFiles ++ " files")
     conversionData,
   evs, b').

(** What the call returns once its loop has produced [results]: the code
    after the loop. *)
Definition conclude (files : list File.t) (sourceFormat targetFormat : string)
    (startTime endTime : Z) (results : list Result.t) : Outcome.t :=
  let totalFiles := List.length files in
  let successfulFiles := ConversionApi.countSuccessful results in
  let failedFiles := (List.length results - successfulFiles)%nat in
  let conversionData :=
    ConversionData.mk sourceFormat targetFormat
      (ConversionApi.getCategoryFromFormat sourceFormat) files
      (0 <? successfulFiles)%nat successfulFiles failedFiles
      startTime endTime (endTime - startTime)
      "mock" "1.0" (Some results) None in
  Outcome.mk true results
    ("Successfully converted " ++ showNat successfulFiles ++ " of "
       ++ showNat totalFiles ++ " files")
    conversionData.

End MockConversionApi.

(** ** services/conversionApi.js: the smart service *)

Module SmartConversionService.

(** The static field [backendAvailable]: [null], [true] or [false]. *)
Definition State : Type := option bool.

Definition initial : State := None.

(** How an attempt on the real client ended. *)
Inductive RealEnd := Returned | Threw | Pending.

(** What a call did, in order. *)
Inductive Event :=
| HealthProbe (available : bool)
| RealClient (how : RealEnd)
| FormatsRequest (failed : bool)
| MockFallback.

Definition checkBackendAvailability (st : State) (health : Fetch unit)
  : bool * State * list Event :=
  match st with
  | Some cached => (cached, st, [])
  | None =>
      match ConversionApi.checkHealth health with
      | Fulfilled _ => (true, Some true, [HealthProbe true])
      | Thrown _ => (false, Some false, [HealthProbe false])
      end
  end.

(** The answers of the environment to one [convertFiles] call that runs
    alone and whose health request is answered; calls that overlap and
    requests that are never answered are in [SmartSession]. *)
Record CallEnv := mkEnv {
  health : Fetch unit;
  remote : ConversionApi.Remote;
  mockStart : Z;
  mockEnd : Z
}.

(** What a [convertFiles] call leaves behind; [reply] is [None] while the
    promise is pending. *)
Record Run := mkRun {
  reply : option Outcome.t;
  after : State;
  events : list Event;
  reported : list ProgressEvent;
  browser : Browser.t
}.

Definition convertFiles (st : State) (files : list File.t)
    (sourceFormat targetFormat : string) (env : CallEnv) (b : Browser.t) : Run :=
  let '(isBackendAvailable, st1, probe) := checkBackendAvailability st (health env) in
  if isBackendAvailable then
    match ConversionApi.convertFiles files sourceFormat targetFormat (remote env) with
    | (Resolved o, evs) => mkRun (Some o) st1 (probe ++ [RealClient Returned])%list evs b
    | (Waiting, evs) => mkRun None st1 (probe ++ [RealClient Pending])%list evs b
    | (Rejected _, evs) =>
        let '(o, mockEvs, b') :=
          MockConversionApi.convertFiles files sourceFormat targetFormat
            (mockStart env) (mockEnd env) b in
        mkRun (Some o) (Some false)
              (probe ++ [RealClient Threw; MockFallback])%list (evs ++ mockEvs)%list b'
    end
  else
    let '(o, mockEvs, b') :=
      MockConversionApi.convertFiles files sourceFormat targetFormat
        (mockStart env) (mockEnd env) b in
    mkRun (Some o) st1 (probe ++ [MockFallback])%list mockEvs b'.

(** [getSupportedFormats]: the formats of the backend, or [null]. *)
Definition getSupportedFormats (st : State) (health : Fetch unit)
    (answer : Fetch (list (string * list string)))
  : option (list (string * list string)) * State * list Event :=
  let '(isBackendAvailable, st1, probe) := checkBackendAvailability st health in
  if isBackendAvailable then
    match ConversionApi.getSupportedFormats answer with
    | Fulfilled formats => (Some formats, st1, (probe ++ [FormatsRequest false])%list)
    | Thrown _ => (None, st1, (probe ++ [FormatsRequest true])%list)
    end
  else (None, st1, probe).


End SmartConversionService.

(** ** services/conversionApi.js: the smart service when calls overlap *)

Module SmartSession.

(** Every [await] of the service hands control back to the page, which may
    call the service again before an earlier call has returned; the static
    field [backendAvailable] and the browser are shared by all calls.
    [checkBackendAvailability] tests the field before it awaits the health
    request and writes it afterwards; [convertFiles] writes it again when the
    real client throws.  A session is a sequence of moves: the page starts a
    call, or the environment delivers what one call is waiting for (the
    answer to its health request, the end of its real-client conversion, the
    answer to its formats request, the timers of its mock).  A request that
    is never answered is a move that never comes. *)

Inductive Request :=
| ConvertFiles (files : list File.t) (sourceFormat targetFormat : string)
| GetSupportedFormats.

Inductive Reply :=
| Converted (o : Outcome.t)
| Formats (f : option (list (string * list string))).

(** Where a call stands: the [await] it is suspended at ([checkHealth],
    [ConversionApi.convertFiles], [ConversionApi.getSupportedFormats], a
    timer of the mock), or what it has returned.  [InMock] holds the start
    time and the results pushed so far. *)
Inductive Phase :=
| AwaitingHealth
| AwaitingBackend
| AwaitingFormats
| InMock (startTime : Z) (results : list Result.t)
| Finished (r : Reply).

(** What a call has done, oldest first. *)
Inductive Deed :=
| ProbeSent
| ProbeAnswered (available : bool)
| BackendCalled
| BackendReturned
| BackendThrew
| FormatsRequested
| FormatsAnswered
| MockCalled
| MockReturned.

Record Task := mkTask {
  request : Request;
  phase : Phase;
  did : list Deed;
  reported : list ProgressEvent
}.

Record t := mk {
  backendAvailable : SmartConversionService.State;
  tasks : list Task;
  browser : Browser.t
}.

Definition fresh (b : Browser.t) : t := mk None [] b.

(** [now] is what [Date.now()] returns during the move; it is read when
    the move enters the mock or ends it. *)
Inductive Move :=
| Calls (r : Request) (now : Z)
| HealthAnswers (i : nat) (answer : Fetch unit) (now : Z)
| BackendSettles (i : nat) (remote : ConversionApi.Remote) (now : Z)
| FormatsAnswers (i : nat) (answer : Fetch (list (string * list string)))
| TimersFire (i : nat) (now : Z).

(** The call goes on with the availability it was told. *)
Definition proceed (available : bool) (r : Request) (now : Z) (done : list Deed) : Task :=
  match available, r with
  | true, ConvertFiles _ _ _ => mkTask r AwaitingBackend (done ++ [BackendCalled]) []
  | true, GetSupportedFormats => mkTask r AwaitingFormats (done ++ [FormatsRequested]) []
  | false, ConvertFiles _ _ _ => mkTask r (InMock now []) (done ++ [MockCalled]) []
  | false, GetSupportedFormats => mkTask r (Finished (Formats None)) done []
  end.

(** [checkBackendAvailability] up to its first [await]. *)
Definition begin (st : SmartConversionService.State) (r : Request) (now : Z) : Task :=
  match st with
  | Some cached => proceed cached r now []
  | None => mkTask r AwaitingHealth [ProbeSent] []
  end.

Definition healthy (answer : Fetch unit) : bool :=
  match ConversionApi.checkHealth answer with
  | Fulfilled _ => true
  | Thrown _ => false
  end.

(** The eleven timers of the next file have fired.  Between them the mock
    only reports progress; in the turn of the last one it mints the blob URL
    of the file, takes its two draws and pushes its result, and after the
    last file it reads the clock and returns.  With no file at all there is
    no timer: the move stands for the delivery of the result. *)
Definition fire (now : Z) (task : Task) (b : Browser.t) : option (Task * Browser.t) :=
  match request task, phase task with
  | ConvertFiles files sourceFormat targetFormat, InMock startTime results =>
      let i := List.length results in
      match nth_error files i with
      | Some file =>
          let '(r, b') := MockConversionApi.mockResult file targetFormat b in
          let results' := (results ++ [r])%list in
          let reported' :=
            (reported task ++ MockConversionApi.progressOf i (List.length files))%list in
          if (S i =? List.length files)%nat
          then Some (mkTask (request task)
                            (Finished (Converted (MockConversionApi.conclude files sourceFormat
                                                    targetFormat startTime now results')))
                            (did task ++ [MockReturned]) reported', b')
          else Some (mkTask (request task) (InMock startTime results') (did task) reported', b')
      | None =>
          Some (mkTask (request task)
                       (Finished (Converted (MockConversionApi.conclude files sourceFormat targetFormat
                                               startTime now results)))
                       (did task ++ [MockReturned]) (reported task), b)
      end
  | _, _ => None
  end.

(** What a move does to the call it is meant for: the new value of the
    flag, the call and the browser; [None] when the call is not waiting for
    that move. *)
Definition advance (m : Move) (st : SmartConversionService.State) (task : Task)
    (b : Browser.t) : option (SmartConversionService.State * Task * Browser.t) :=
  match m, phase task with
  | HealthAnswers _ answer now, AwaitingHealth =>
      let available := healthy answer in
      let next := proceed available (request task) now
                          (did task ++ [ProbeAnswered available]) in
      Some (Some available, next, b)
  | BackendSettles _ remote now, AwaitingBackend =>
      match request task with
      | ConvertFiles files sourceFormat targetFormat =>
          match ConversionApi.convertFiles files sourceFormat targetFormat remote with
          | (Resolved o, evs) =>
              Some (st,
                    mkTask (request task) (Finished (Converted o))
                           (did task ++ [BackendReturned]) (reported task ++ evs),
                    b)
          | (Rejected _, evs) =>
              Some (Some false,
                    mkTask (request task) (InMock now [])
                           (did task ++ [BackendThrew; MockCalled]) (reported task ++ evs),
                    b)
          | (Waiting, _) => None
          end
      | GetSupportedFormats => None
      end
  | FormatsAnswers _ answer, AwaitingFormats =>
      let formats := match ConversionApi.getSupportedFormats answer with
                     | Fulfilled f => Some f
                     | Thrown _ => None
                     end in
      Some (st,
            mkTask (request task) (Finished (Formats formats))
                   (did task ++ [FormatsAnswered]) (reported task),
            b)
  | TimersFire _ now, InMock _ _ =>
      match fire now task b with
      | Some (next, b') => Some (st, next, b')
      | None => None
      end
  | _, _ => None
  end.

Definition target (m : Move) : option nat :=
  match m with
  | Calls _ _ => None
  | HealthAnswers i _ _ | BackendSettles i _ _ | FormatsAnswers i _ | TimersFire i _ => Some i
  end.

Fixpoint replaceNth {A} (i : nat) (x : A) (l : list A) : list A :=
  match l, i with
  | [], _ => []
  | _ :: rest, O => x :: rest
  | y :: rest, S i => y :: replaceNth i x rest
  end.

Definition move (x : t) (m : Move) : t :=
  match m with
  | Calls r now =>
      mk (backendAvailable x) (tasks x ++ [begin (backendAvailable x) r now])%list (browser x)
  | _ =>
      match target m with
      | Some i =>
          match nth_error (tasks x) i with
          | Some task =>
              match advance m (backendAvailable x) task (browser x) with
              | Some (st, next, b) => mk st (replaceNth i next (tasks x)) b
              | None => x
              end
          | None => x
          end
      | None => x
      end
  end.

Definition run (x : t) (moves : list Move) : t := fold_left move moves x.

(** Is some call waiting for the answer of its health probe? *)
Definition probing (x : t) : bool :=
  existsb (fun task => match phase task with AwaitingHealth => true | _ => false end)
          (tasks x).

(** No call is started while a health probe is unanswered. *)
Fixpoint orderly (x : t) (moves : list Move) : bool :=
  match moves with
  | [] => true
  | m :: rest =>
      (match m with Calls _ _ => negb (probing x) | _ => true end) && orderly (move x m) rest
  end.

Definition isProbeSent (d : Deed) : bool :=
  match d with ProbeSent => true | _ => false end.

(** How many health probes the session has sent. *)
Definition probes (x : t) : nat :=
  List.length (filter isProbeSent (flat_map did (tasks x))).

(** The move tells call [i] that its probe failed or that its real client
    threw. *)
Definition degrades (x : t) (m : Move) : option nat :=
  match m with
  | HealthAnswers i answer _ =>
      match nth_error (tasks x) i with
      | Some task =>
          match phase task with
          | AwaitingHealth =>
              match ConversionApi.checkHealth answer with
              | Thrown _ => Some i
              | Fulfilled _ => None
              end
          | _ => None
          end
      | None => None
      end
  | BackendSettles i remote _ =>
      match nth_error (tasks x) i with
      | Some task =>
          match phase task, request task with
          | AwaitingBackend, ConvertFiles files sourceFormat targetFormat =>
              match ConversionApi.convertFiles files sourceFormat targetFormat remote with
              | (Rejected _, _) => Some i
              | _ => None
              end
          | _, _ => None
          end
      | None => None
      end
  | _ => None
  end.

(** The outcome is a result of the mock for [files]. *)
Definition mockOutcome (files : list File.t) (o : Outcome.t) : Prop :=
  Outcome.success o = true /\
  ConversionData.backendUsed (Outcome.conversionData o) = "mock" /\
  map Result.originalFile (Outcome.results o) = map Some files.

(** The call is in the mock or has returned its result. *)
Definition mocked (task : Task) : Prop :=
  match request task, phase task with
  | ConvertFiles files _ _, InMock _ results =>
      map Result.originalFile results = map Some (firstn (List.length results) files) /\
      (List.length results < List.length files \/ files = [])%nat
  | ConvertFiles files _ _, Finished (Converted o) => mockOutcome files o
  | _, _ => False
  end.

(** The call went to the mock at once: no probe, no real client. *)
Definition straightToMock (task : Task) : Prop :=
  match request task with
  | ConvertFiles _ _ _ =>
      mocked task /\
      did task = match phase task with
                 | InMock _ _ => [MockCalled]
                 | _ => [MockCalled; MockReturned]
                 end
  | GetSupportedFormats => phase task = Finished (Formats None) /\ did task = []
  end.

(** The moves that fire the timers of call [i]. *)
Definition timers (i : nat) (moves : list Move) : nat :=
  List.length (filter (fun m => match m with
                                | TimersFire j _ => (i =? j)%nat
                                | _ => false
                                end) moves).

(** The timer rounds the mock needs for [files]. *)
Definition rounds (files : list File.t) : nat := Nat.max 1 (List.length files).

(** The timer rounds a call in the mock still needs before it returns. *)
Definition remaining (task : Task) : nat :=
  match request task, phase task with
  | ConvertFiles files _ _, InMock _ results =>
      Nat.max 1 (List.length files - List.length results)
  | _, _ => 0%nat
  end.

(** The state of a session in which no call was started during a probe:
    until the probe is answered there is at most the one call that sent it;
    afterwards no call waits for a probe and one probe at most was sent. *)
Definition calm (x : t) : Prop :=
  match backendAvailable x with
  | None => tasks x = [] \/ exists r, tasks x = [mkTask r AwaitingHealth [ProbeSent] []]
  | Some _ => probing x = false /\ (probes x <= 1)%nat
  end.

(** The flag is [false] and no probe is out. *)
Definition settledDown (x : t) : Prop :=
  backendAvailable x = Some false /\ probing x = false.

(** What holds of a session whose only call is a conversion of [files],
    started with the flag at [st] and the browser at [b]. *)
Definition alone (st : SmartConversionService.State) (b : Browser.t)
    (files : list File.t) (sourceFormat targetFormat : string) (x : t) : Prop :=
  exists task,
    tasks x = [task] /\ request task = ConvertFiles files sourceFormat targetFormat /\
    match phase task with
    | AwaitingHealth =>
        st = None /\ backendAvailable x = None /\ browser x = b /\ did task = [ProbeSent]
    | AwaitingBackend =>
        backendAvailable x = Some true /\ browser x = b /\ ~ In MockCalled (did task)
    | InMock _ results =>
        backendAvailable x = Some false /\ In MockCalled (did task) /\ mocked task
    | Finished (Converted o) =>
        Outcome.success o = true /\
        ((ConversionData.backendUsed (Outcome.conversionData o) = "api" /\
          backendAvailable x = Some true /\ browser x = b /\ ~ In MockCalled (did task))
         \/
         (ConversionData.backendUsed (Outcome.conversionData o) = "mock" /\
          backendAvailable x = Some false /\ In MockCalled (did task) /\
          List.length (Outcome.results o) = List.length files))
    | AwaitingFormats | Finished (Formats _) => False
    end.

(** Samples: one conversion request; a session in which a second call
    starts before the first probe is answered, the first probe then fails
    and the second succeeds; and a session without such an overlap, in
    which the probe fails. *)
Definition sampleRequest : Request :=
  ConvertFiles [File.mk "a.jpg" 10 "image/jpeg"] "JPEG" "PNG".

Definition overlapping : list Move :=
  [ Calls sampleRequest 0;
    Calls sampleRequest 1;
    HealthAnswers 0 NetworkError 2;
    HealthAnswers 1 (Response 200 (Some tt)) 3;
    Calls sampleRequest 4 ].

Definition serial : list Move :=
  [ Calls sampleRequest 0;
    HealthAnswers 0 NetworkError 2;
    Calls sampleRequest 3;
    TimersFire 0 4;
    TimersFire 1 5 ].

End SmartSession.

(** ** contexts/AppContext.jsx: the session reducer *)

Module AppContext.

Record Notification := mkNotification {
  id : Q;
  kind : string;
  message : string;
  title : string
}.

Record State := mkState {
  darkMode : bool;
  notificationsEnabled : bool;
  selectedCategory : option string;
  sourceFormat : option string;
  targetFormat : option string;
  selectedFiles : list File.t;
  previewUrls : list (option nat);
  isConverting : bool;
  progress : Z;
  conversionResults : list Result.t;
  notifications : list Notification
}.

(** [initialState]; [prefersDark] is the answer of [matchMedia]. *)
Definition initialState (prefersDark : bool) : State :=
  mkState prefersDark true None None None [] [] false 0 [] [].

(** Actions with their payloads.  The identifier of a new notification is
    [Date.now() + Math.random()], read when the reducer runs. *)
Inductive Action :=
| TOGGLE_DARK_MODE
| TOGGLE_NOTIFICATIONS
| SET_CONVERSION (category sourceFormat targetFormat : option string)
| SET_FILES (files : list File.t) (previews : option (list (option nat)))
| ADD_FILES (files : list File.t) (previews : option (list (option nat)))
| REMOVE_FILE (index : nat)
| CLEAR_FILES
| START_CONVERSION
| UPDATE_PROGRESS (progress : Z)
| COMPLETE_CONVERSION (results : list Result.t)
| RESET_CONVERSION
| RESET_CONVERSION_KEEP_CATEGORY
| ADD_NOTIFICATION (freshId : Q) (kind message title : string)
| REMOVE_NOTIFICATION (id : Q)
| CLEAR_NOTIFICATIONS
| UNKNOWN.

(** [l.filter((_, index) => index !== i)], with [index] counted from [k]. *)
Fixpoint filterIndexFrom {A} (k i : nat) (l : list A) : list A :=
  match l with
  | [] => []
  | x :: rest =>
      if (k =? i)%nat then filterIndexFrom (S k) i rest
      else x :: filterIndexFrom (S k) i rest
  end.

Definition filterIndex {A} (i : nat) (l : list A) : list A := filterIndexFrom 0 i l.

(** [x || []] *)
Definition orEmpty {A} (x : option (list A)) : list A :=
  match x with Some l => l | None => [] end.

(** Spread-and-override of the fields a case of the reducer writes. *)
Definition withTheme (dark notify : bool) (s : State) : State :=
  mkState dark notify (selectedCategory s) (sourceFormat s) (targetFormat s)
          (selectedFiles s) (previewUrls s) (isConverting s) (progress s)
          (conversionResults s) (notifications s).

Definition withSelection (category source target : option string) (s : State) : State :=
  mkState (darkMode s) (notificationsEnabled s) category source target
          (selectedFiles s) (previewUrls s) (isConverting s) (progress s)
          (conversionResults s) (notifications s).

Definition withFiles (files : list File.t) (previews : list (option nat)) (s : State)
  : State :=
  mkState (darkMode s) (notificationsEnabled s) (selectedCategory s) (sourceFormat s)
          (targetFormat s) files previews (isConverting s) (progress s)
          (conversionResults s) (notifications s).

Definition withRun (converting : bool) (percent : Z) (results : list Result.t)
    (s : State) : State :=
  mkState (darkMode s) (notificationsEnabled s) (selectedCategory s) (sourceFormat s)
          (targetFormat s) (selectedFiles s) (previewUrls s) converting percent
          results (notifications s).

Definition withNotifications (ns : list Notification) (s : State) : State :=
  mkState (darkMode s) (notificationsEnabled s) (selectedCategory s) (sourceFormat s)
          (targetFormat s) (selectedFiles s) (previewUrls s) (isConverting s)
          (progress s) (conversionResults s) ns.

Definition appReducer (state : State) (action : Action) : State :=
  match action with
  | TOGGLE_DARK_MODE =>
      withTheme (negb (darkMode state)) (notificationsEnabled state) state
  | TOGGLE_NOTIFICATIONS =>
      withTheme (darkMode state) (negb (notificationsEnabled state)) state
  | SET_CONVERSION category source target => withSelection category source target state
  | SET_FILES files previews => withFiles files (orEmpty previews) state
  | ADD_FILES files previews =>
      withFiles (selectedFiles state ++ files)%list
                (previewUrls state ++ orEmpty previews)%list state
  | REMOVE_FILE index =>
      let newFiles := filterIndex index (selectedFiles state) in
      let newPreviews := filterIndex index (previewUrls state) in
      withFiles newFiles newPreviews state
  | CLEAR_FILES =>
      withRun (isConverting state) (progress state) [] (withFiles [] [] state)
  | START_CONVERSION => withRun true 0 [] state
  | UPDATE_PROGRESS percent =>
      withRun (isConverting state) percent (conversionResults state) state
  | COMPLETE_CONVERSION results => withRun false 100 results state
  | RESET_CONVERSION =>
      withRun false 0 [] (withFiles [] [] (withSelection None None None state))
  | RESET_CONVERSION_KEEP_CATEGORY =>
      withRun false 0 []
              (withFiles [] [] (withSelection (selectedCategory state) None None state))
  | ADD_NOTIFICATION freshId kind message title =>
      if negb (notificationsEnabled state) then state
      else withNotifications
             (notifications state ++ [mkNotification freshId kind message title])%list
             state
  | REMOVE_NOTIFICATION id' =>
      withNotifications
        (filter (fun n => negb (Qeq_bool (id n) id')) (notifications state)) state
  | CLEAR_NOTIFICATIONS => withNotifications [] state
  | UNKNOWN => state
  end.

End AppContext.

(** ** hooks/useConversion.js: the file operations of the session *)

Module UseConversion.
Import AppContext.

(** The reducer state together with the browser it lives in. *)
Record Session := mkSession { state : State; browser : Browser.t }.

Definition start (prefersDark : bool) (random : nat -> Q) : Session :=
  mkSession (initialState prefersDark) (Browser.fresh random).

(** [generatePreviewUrls]: an object URL per image file, [null] otherwise. *)
Fixpoint generatePreviewUrls (files : list File.t) (b : Browser.t)
  : list (option nat) * Browser.t :=
  match files with
  | [] => ([], b)
  | file :: rest =>
      if String.prefix "image/" (File.type file) then
        let '(u, b1) := Browser.createObjectURL (Some file) b in
        let '(us, b2) := generatePreviewUrls rest b1 in
        (Some u :: us, b2)
      else
        let '(us, b2) := generatePreviewUrls rest b in
        (None :: us, b2)
  end.

Definition dispatch (a : Action) (x : Session) : Session :=
  mkSession (appReducer (state x) a) (browser x).

Definition addFiles (newFiles : list File.t) (x : Session) : Session :=
  let '(previews, b) := generatePreviewUrls newFiles (browser x) in
  dispatch (ADD_FILES newFiles (Some previews)) (mkSession (state x) b).

Definition setFiles (files : list File.t) (x : Session) : Session :=
  let '(previews, b) := generatePreviewUrls files (browser x) in
  dispatch (SET_FILES files (Some previews)) (mkSession (state x) b).

(** [removeFile]: [state.previewUrls[index]] is [undefined] out of range
    and [null] for a file without preview; both are falsy. *)
Definition removeFile (index : nat) (x : Session) : Session :=
  let b :=
    match nth_error (previewUrls (state x)) index with
    | Some (Some u) => Browser.revokeObjectURL u (browser x)
    | _ => browser x
    end in
  dispatch (REMOVE_FILE index) (mkSession (state x) b).

(** [state.previewUrls.forEach(url => { if (url) URL.revokeObjectURL(url) })] *)
Definition revokeAll (previews : list (option nat)) (b : Browser.t) : Browser.t :=
  fold_left (fun acc url => match url with
                            | Some u => Browser.revokeObjectURL u acc
                            | None => acc
                            end) previews b.

Definition clearFiles (x : Session) : Session :=
  dispatch CLEAR_FILES
           (mkSession (state x) (revokeAll (previewUrls (state x)) (browser x))).

Definition setConversion (category sourceFormat targetFormat : option string)
    (x : Session) : Session :=
  dispatch (SET_CONVERSION category sourceFormat targetFormat) x.

Definition resetConversion (x : Session) : Session :=
  dispatch RESET_CONVERSION
           (mkSession (state x) (revokeAll (previewUrls (state x)) (browser x))).

Definition resetConversionKeepCategory (x : Session) : Session :=
  dispatch RESET_CONVERSION_KEEP_CATEGORY
           (mkSession (state x) (revokeAll (previewUrls (state x)) (browser x))).

(** Actions that components dispatch themselves; the file actions are
    dispatched by the functions above only. *)
Definition direct (a : Action) : bool :=
  match a with
  | SET_FILES _ _ | ADD_FILES _ _ | REMOVE_FILE _ | CLEAR_FILES
  | RESET_CONVERSION | RESET_CONVERSION_KEEP_CATEGORY => false
  | _ => true
  end.

(** [exportHistory]: a blob URL is minted, clicked and revoked at once. *)
Definition exportHistory (x : Session) : Session :=
  let '(url, b) := Browser.createObjectURL None (browser x) in
  mkSession (state x) (Browser.revokeObjectURL url b).

(** One move of the session. *)
Inductive step : Session -> Session -> Prop :=
| step_addFiles fs x : step x (addFiles fs x)
| step_setFiles fs x : step x (setFiles fs x)
| step_removeFile i x : step x (removeFile i x)
| step_clearFiles x : step x (clearFiles x)
| step_resetConversion x : step x (resetConversion x)
| step_resetConversionKeepCategory x : step x (resetConversionKeepCategory x)
| step_dispatch a x : direct a = true -> step x (dispatch a x)
| step_exportHistory x : step x (exportHistory x)
| step_mockUrl x :
    step x (mkSession (state x) (snd (Browser.createObjectURL None (browser x))))
| step_random x :
    step x (mkSession (state x) (snd (Browser.mathRandom (browser x)))).

Inductive steps : Session -> Session -> Prop :=
| steps_refl x : steps x x
| steps_more x y z : steps x y -> step y z -> steps x z.

Definition reachable (x : Session) : Prop :=
  exists prefersDark random, steps (start prefersDark random) x.

(** The preview at an index belongs to the file at that index: an image
    file holds a URL that the browser issued for this very file and that has
    not been revoked; any other file holds [null]. *)
Definition aligned (b : Browser.t) (file : File.t) (preview : option nat) : Prop :=
  match preview with
  | Some u =>
      String.prefix "image/" (File.type file) = true /\
      In (u, Some file) (Browser.issued b) /\
      ~ In u (Browser.revoked b)
  | None => String.prefix "image/" (File.type file) = false
  end.

(** The URLs held by a preview list. *)
Fixpoint live (previews : list (option nat)) : list nat :=
  match previews with
  | [] => []
  | Some u :: rest => u :: live rest
  | None :: rest => live rest
  end.

(** The element at index [i] taken out. *)
Definition without {A} (i : nat) (l : list A) : list A :=
  (firstn i l ++ skipn (S i) l)%list.

Record invariant (x : Session) : Prop := mkInvariant {
  inv_aligned : Forall2 (aligned (browser x))
                        (selectedFiles (state x)) (previewUrls (state x));
  inv_live : NoDup (live (previewUrls (state x)));
  inv_browser : Browser.wellFormed (browser x)
}.

(** A session of three files, two of them images. *)
Definition sampleFiles : list File.t :=
  [File.mk "a.jpg" 10 "image/jpeg"; File.mk "b.png" 20 "image/png";
   File.mk "c.pdf" 30 "application/pdf"].

Definition sampleSession : Session :=
  addFiles sampleFiles (start false (fun _ => 0)).

End UseConversion.

(** ** data/conversions.js and AllFormatsPage.jsx: listings of the table *)

Module ConversionCatalog.
Import JsString Conversions.

(** An entry [{ from, to, category }]; [category] is [None] when the
    lookup that fills it finds nothing. *)
Record Conversion := mkConversion {
  from : string;
  to : string;
  category : option string
}.

(** The [forEach] over the member formats: a format without targets is
    passed over; [None] stands for the [TypeError] of calling [forEach] on a
    value that is not an array. *)
Fixpoint collect (category : string) (members : list string) : option (list Conversion) :=
  match members with
  | [] => Some []
  | format :: rest =>
      match getProperty supportedConversions format with
      | JsUndefined => collect category rest
      | JsArray targets =>
          match collect category rest with
          | Some later =>
              Some (map (fun target => mkConversion format target (Some category)) targets
                      ++ later)%list
          | None => None
          end
      | JsInherited _ => None
      end
  end.

(** [getConversionsByCategory]; [None] stands for a thrown [TypeError]
    (an inherited member is truthy and has no [formats]). *)
Definition getConversionsByCategory (category : string) : option (list Conversion) :=
  match ownProperty conversionCategories category with
  | Some c => collect category (formats c)
  | None => if includes objectPrototypeKeys category then None else Some []
  end.

(** [getFormatIcon], for any reading [icon] of the field the table holds;
    [None] stands for reading a field of [undefined]. *)
Definition getFormatIcon {Icon : Type} (icon : Category -> Icon) (format : string)
  : option Icon :=
  option_map icon (ownProperty conversionCategories (getCategoryByFormat format)).

(** [getConversionDescription]; [None] stands for the [TypeError] of
    [targetFormat.toUpperCase()] on a missing target. *)
Definition getConversionDescription (sourceFormat targetFormat : option string)
  : option string :=
  if isMultiPageConversion sourceFormat targetFormat then
    match targetFormat with
    | Some t =>
        Some ("Convert PDF pages to " ++ toUpperCase t ++ " images (packaged in ZIP file)")
    | None => None
    end
  else
    Some ("Convert " ++ ConversionApi.interpolate (option_map toUpperCase sourceFormat)
            ++ " to " ++ ConversionApi.interpolate (option_map toUpperCase targetFormat)).

(** AllFormatsPage.jsx:
    [Object.keys(conversionCategories).find(key =>
       conversionCategories[key].formats.includes(sourceFormat))]. *)
Definition findCategoryKey (sourceFormat : string) : option string :=
  option_map fst
    (find (fun kc => includes (formats (snd kc)) sourceFormat) conversionCategories).

(** AllFormatsPage.jsx, [getAllConversions]. *)
Definition getAllConversions : list Conversion :=
  flat_map (fun entry =>
              map (fun target =>
                     mkConversion (fst entry) target (findCategoryKey (fst entry)))
                  (snd entry))
           supportedConversions.

(** The table relates [source] to [target]. *)
Definition converts (source target : string) : Prop :=
  exists targets, ownProperty supportedConversions source = Some targets /\ In target targets.

(** Decidable checks on the table. *)
Fixpoint distinct (l : list string) : bool :=
  match l with
  | [] => true
  | x :: rest => negb (includes rest x) && distinct rest
  end.

End ConversionCatalog.

(** ** services/conversionApi.js: the synchronous single-file call *)

Module SingleFileApi.
Import ConversionApi.

(** Body of [/convert]; [convert_error] is its field [error]. *)
Record ConvertBody := mkConvertBody {
  converted_filename : string;
  download_url : option string;
  size : Z;
  convert_error : option string
}.

(** What [convertSingleFile] resolves with. *)
Record SingleOutcome := mkSingle { success : bool; result : Result.t }.

(** [convertSingleFile]: as for the upload, the body is parsed before
    [response.ok] is read; the download address is built without a test for
    a missing path. *)
Definition convertSingleFile (file : File.t) (r : Fetch ConvertBody)
  : Settled SingleOutcome ConversionApiError :=
  match r with
  | NetworkError => Thrown (newError "Failed to convert file" None)
  | Response st None => Thrown (newError "Failed to convert file" None)
  | Response st (Some data) =>
      if ok st then
        Fulfilled (mkSingle true
                     (Result.mk (Some file) (converted_filename data)
                        (Some (RemoteUrl (getDownloadUrl (interpolate (download_url data)))))
                        (size data) true None))
      else Thrown (newError (orElse (convert_error data) "Conversion failed") (Some st))
  end.

(** An error as the client normalises it for answer [r]: a message, no
    conversion record, and a status code only if the service answered with
    that code outside 2xx. *)
Definition normalised {A} (r : Fetch A) (e : ConversionApiError) : Prop :=
  message e <> EmptyString /\
  conversionData e = None /\
  forall st, status e = Some st -> ok st = false /\ exists body, r = Response st body.

End SingleFileApi.

(** ** services/firestoreService.js: figures computed from the history *)

Module FirestoreService.

(** The fields of a stored conversion record that the figures read; an
    absent [processingTimeMs] is [None]. *)
Record HistoryRecord := mkRecord {
  success : bool;
  processingTimeMs : option Z
}.

(** [record.processingTimeMs || 0] *)
Definition timeOf (record : HistoryRecord) : Z :=
  match processingTimeMs record with Some t => t | None => 0%Z end.

Definition calculateAverageProcessingTime (history : list HistoryRecord) : Z :=
  match history with
  | [] => 0%Z
  | _ =>
      let totalTime := fold_left (fun sum record => (sum + timeOf record)%Z) history 0%Z in
      Browser.mathRound (inject_Z totalTime / inject_Z (Z.of_nat (List.length history)))
  end.


(** [Array.prototype.sort] with the comparator [([,a], [,b]) => b - a]: a
    stable sort by decreasing count.  An entry goes in front of the first
    entry whose count is not larger. *)
Fixpoint insertByCount (x : string * Z) (sorted : list (string * Z)) : list (string * Z) :=
  match sorted with
  | [] => [x]
  | y :: rest =>
      if (snd y <=? snd x)%Z then x :: y :: rest else y :: insertByCount x rest
  end.

Definition sortByCount (entries : list (string * Z)) : list (string * Z) :=
  fold_right insertByCount [] entries.

(** The text [' → '], the arrow in UTF-8. *)
Definition arrow : string :=
  String " " (String (ascii_of_nat 226) (String (ascii_of_nat 134)
    (String (ascii_of_nat 146) (String " " EmptyString)))).

(** [getMostUsedFormats], on the entries of [formatUsage] in the order
    [Object.entries] gives them. *)
Definition getMostUsedFormats (formatUsage : list (string * Z)) : list (string * Z) :=
  map (fun entry => (replaceFirst "_to_" arrow (fst entry), snd entry))
      (firstn 5 (sortByCount formatUsage)).

End FirestoreService.

(** ** App.jsx: the local history *)

Module AppHistory.

(** [setConversionHistory(prev => [conversion, ...prev.slice(0, 9)])] *)
Definition addToHistory {A} (conversion : A) (prev : list A) : list A :=
  conversion :: firstn 9 prev.

(** Conversions added one after the other, the first of [conversions] first. *)
Definition addAll {A} (conversions prev : list A) : list A :=
  fold_left (fun history conversion => addToHistory conversion history) conversions prev.

End AppHistory.

(** ** hooks/useConversion.js: running a conversion *)

Module ConversionHook.
Import AppContext UseConversion.

(** What is handed to [trackConversion]: the record of the outcome, or the
    record the [catch] branch builds from the selection. *)
Inductive Tracked :=
| OutcomeRecord (data : ConversionData.t)
| FailureRecord (sourceFormat targetFormat : string) (category : option string)
                (files : list File.t) (errorMessage : string).

(** The reducer state and browser, the flag of the smart service, the
    [error] state of the hook, whether a user is signed in, and what has
    been handed to [trackConversion] so far. *)
Record Hook := mkHook {
  session : Session;
  service : SmartConversionService.State;
  error : option string;
  user : bool;
  tracked : list Tracked
}.

(** The answers of the environment to one run, and the readings of
    [Date.now()] taken for the identifiers of the two notifications. *)
Record HookEnv := mkHookEnv {
  call : SmartConversionService.CallEnv;
  startedAt : Z;
  finishedAt : Z
}.

(** What the function returns: [null], the result of the service, the
    object of the [catch] branch, or nothing yet. *)
Inductive Returned :=
| ReturnedNull
| ReturnedResult (result : Outcome.t)
| ReturnedFailure
| StillRunning.

(** [!value] for a format of the selection. *)
Definition missing (format : option string) : bool :=
  match format with
  | None => true
  | Some EmptyString => true
  | Some _ => false
  end.

(** [dispatch] of [ADD_NOTIFICATION]: the reducer reads the clock and
    draws a random number for the identifier only when notifications are
    switched on. *)
Definition notify (now : Z) (kind message title : string) (x : Session) : Session :=
  if notificationsEnabled (state x) then
    let '(r, b) := Browser.mathRandom (browser x) in
    dispatch (ADD_NOTIFICATION (inject_Z now + r) kind message title)
             (mkSession (state x) b)
  else dispatch (ADD_NOTIFICATION (inject_Z now) kind message title) x.

(** The progress callback handed to the service. *)
Definition reportProgress (events : list ProgressEvent) (x : Session) : Session :=
  fold_left (fun acc ev => dispatch (UPDATE_PROGRESS (fst ev)) acc) events x.

Definition guardMessage : string := "Please select files and conversion formats".

Definition convertFiles (h : Hook) (env : HookEnv) : Hook * Returned :=
  let st := state (session h) in
  match selectedFiles st, sourceFormat st, targetFormat st with
  | _ :: _, Some source, Some target =>
      if missing (Some source) || missing (Some target) then
        (mkHook (session h) (service h) (Some guardMessage) (user h) (tracked h),
         ReturnedNull)
      else
        let files := selectedFiles st in
        let x1 := dispatch START_CONVERSION (session h) in
        let x2 := notify (startedAt env) "info"
                         ("Starting conversion of " ++ showNat (List.length files)
                            ++ " file(s) from " ++ source ++ " to " ++ target)
                         "Conversion Started" x1 in
        let run := SmartConversionService.convertFiles
                     (service h) files source target (call env) (browser x2) in
        let x3 := reportProgress (SmartConversionService.reported run)
                                 (mkSession (state x2) (SmartConversionService.browser run)) in
        match SmartConversionService.reply run with
        | None =>
            (mkHook x3 (SmartConversionService.after run) None (user h) (tracked h),
             StillRunning)
        | Some result =>
            if Outcome.success result then
              let x4 := dispatch (COMPLETE_CONVERSION (Outcome.results result)) x3 in
              let sink := if user h
                          then (tracked h ++ [OutcomeRecord (Outcome.conversionData result)])%list
                          else tracked h in
              let x5 := notify (finishedAt env) "success" (Outcome.message result)
                               "Conversion Complete!" x4 in
              (mkHook x5 (SmartConversionService.after run) None (user h) sink,
               ReturnedResult result)
            else
              let text := ConversionApi.orElse (Some (Outcome.message result))
                                               "Conversion failed" in
              let x4 := dispatch (COMPLETE_CONVERSION []) x3 in
              let sink := if user h
                          then (tracked h ++ [FailureRecord source target (selectedCategory st)
                                                            files text])%list
                          else tracked h in
              let x5 := notify (finishedAt env) "error" text "Conversion Failed" x4 in
              (mkHook x5 (SmartConversionService.after run) (Some text) (user h) sink,
               ReturnedFailure)
        end
  | _, _, _ =>
      (mkHook (session h) (service h) (Some guardMessage) (user h) (tracked h),
       ReturnedNull)
  end.

(** A run of the hook that found something to convert. *)
Definition ready (h : Hook) : Prop :=
  selectedFiles (state (session h)) <> [] /\
  missing (sourceFormat (state (session h))) = false /\
  missing (targetFormat (state (session h))) = false.

(** A signed-in user with the sample files selected for JPEG to PNG, and
    a backend that cannot be reached. *)
Definition sampleHook : Hook :=
  mkHook (dispatch (SET_CONVERSION (Some "images") (Some "JPEG") (Some "PNG")) sampleSession)
         None None true [].

Definition sampleHookEnv : HookEnv :=
  mkHookEnv (SmartConversionService.mkEnv NetworkError
               (ConversionApi.mkRemote NetworkError [] 0 1) 1 2)
            0 3.

End ConversionHook.

(** ** Proof automation *)

(** Case analysis on a string that is compared with literals only. *)
Ltac by_literals u :=
  repeat match goal with
         | |- context [String.eqb u ?lit] =>
             destruct (String.eqb_spec u lit) as [-> | ?]; [ try reflexivity | ]
         end.

(** Membership in a list of literals. *)
Ltac in_list := simpl; repeat (first [left; reflexivity | right]).

(** Turn the outcome of a comparison of rationals into the order it tells. *)
Ltac compared :=
  repeat match goal with
         | E : Qcompare _ _ = Eq |- _ => apply Qeq_alt in E
         | E : Qcompare _ _ = Lt |- _ => apply Qlt_alt in E
         | E : Qcompare _ _ = Gt |- _ => apply Qgt_alt in E
         end.

(** * Properties *)

Section FormatTable.
Import JsString Conversions.

Lemma includes_In (l : list string) (x : string) :
  includes l x = true <-> In x l.
Proof.
  unfold includes. rewrite existsb_exists. split.
  - intros (y & Hy & E). apply String.eqb_eq in E. now subst.
  - intros H. exists x. split; [assumption | apply String.eqb_refl].
Qed.

Lemma ownProperty_None {A} (obj : list (string * A)) (k : string) :
  ~ In k (map fst obj) -> ownProperty obj k = None.
Proof.
  induction obj as [| [k' v] rest IH]; simpl; intros H; [reflexivity |].
  destruct (String.eqb_spec k k') as [-> | Hne].
  - exfalso. apply H. now left.
  - apply IH. intros Hin. apply H. now right.
Qed.

Lemma declaredIn_declarations (c f : string) :
  declaredIn c f <-> In (c, f) declarations.
Proof.
  unfold declaredIn, declarations. rewrite in_flat_map. split.
  - intros (cat & Hc & Hf). exists (c, cat). split; [assumption |].
    simpl. now apply in_map.
  - intros ([c' cat] & Hc & Hf). simpl in Hf.
    apply in_map_iff in Hf. destruct Hf as (f' & E & Hf'). inversion E; subst.
    now exists cat.
Qed.

(** No member inherited from [Object.prototype] survives normalisation. *)
Lemma normalised_not_inherited (f : string) :
  toUpperCase f = f -> includes objectPrototypeKeys f = false.
Proof.
  intros Hup. destruct (includes objectPrototypeKeys f) eqn:E; [| reflexivity].
  apply includes_In in E. simpl in E.
  repeat (destruct E as [E | E]; [subst f; discriminate Hup |]).
  contradiction.
Qed.

(** C9. [isMultiPageConversion(source, target)] is true exactly when the
    source upper-cases to "PDF" and the target upper-cases to "JPEG" or
    "PNG"; so ("PDF","PNG") is true, ("PDF","DOCX") and ("JPEG","PNG") are
    false, and a missing argument gives false. *)
Theorem isMultiPageConversion_exact :
  (forall source target : string,
      isMultiPageConversion (Some source) (Some target) = true <->
      toUpperCase source = "PDF" /\
      (toUpperCase target = "JPEG" \/ toUpperCase target = "PNG")) /\
  isMultiPageConversion (Some "PDF") (Some "PNG") = true /\
  isMultiPageConversion (Some "PDF") (Some "DOCX") = false /\
  isMultiPageConversion (Some "JPEG") (Some "PNG") = false /\
  (forall target, isMultiPageConversion None target = false) /\
  (forall source, isMultiPageConversion source None = false).
Proof.
  split; [| repeat split; try reflexivity].
  - intros source target. unfold isMultiPageConversion. simpl.
    rewrite andb_true_iff, !orb_true_iff, !String.eqb_eq.
    intuition discriminate.
  - intros source. unfold isMultiPageConversion.
    destruct (option_map toUpperCase source) as [s |]; simpl;
      [apply andb_false_r | reflexivity].
Qed.

(** C10. The scan of the category table ([getCategoryByFormat]) and the
    hard-coded lists of the client ([getCategoryFromFormat]) name the same
    category for every format string, and that category is 'other' for a
    format that no category of the table declares. *)
Theorem category_lookups_agree (format : string) :
  getCategoryByFormat format = ConversionApi.getCategoryFromFormat format /\
  ((forall c, ~ declaredIn c (toUpperCase format)) ->
   getCategoryByFormat format = "other" /\
   ConversionApi.getCategoryFromFormat format = "other").
Proof.
  assert (E : getCategoryByFormat format = ConversionApi.getCategoryFromFormat format).
  { unfold getCategoryByFormat, ConversionApi.getCategoryFromFormat.
    generalize (toUpperCase format) as u. intros u.
    cbn. by_literals u. reflexivity. }
  split; [exact E |].
  intros Hnone. rewrite <- E. cut (getCategoryByFormat format = "other"); [tauto |].
  unfold getCategoryByFormat.
  assert (Hno : forall c cat, In (c, cat) conversionCategories ->
                              includes (formats cat) (toUpperCase format) = false).
  { intros c cat Hin. destruct (includes (formats cat) (toUpperCase format)) eqn:Ei;
      [| reflexivity].
    exfalso. apply (Hnone c). exists cat. split; [assumption |].
    now apply includes_In. }
  generalize Hno. generalize conversionCategories as cats.
  induction cats as [| [c cat] rest IH]; intros H; simpl; [reflexivity |].
  rewrite (H c cat (or_introl eq_refl)).
  apply IH. intros c' cat' Hin. apply (H c' cat'). now right.
Qed.

Lemma category_lookups_agree_witness :
  getCategoryByFormat "unknownfmt" = "other" /\
  ConversionApi.getCategoryFromFormat "unknownfmt" = "other".
Proof.
  apply (proj2 (category_lookups_agree "unknownfmt")).
  intros c H. apply declaredIn_declarations in H. simpl in H.
  repeat (destruct H as [H | H]; [discriminate H |]). contradiction.
Defined.

Lemma declared_GIF_twice : declaredIn "images" "GIF" /\ declaredIn "video" "GIF".
Proof. split; apply declaredIn_declarations; in_list. Qed.

(** C6, as stated, fails: "GIF" is a member of both 'images' and 'video'. *)
Lemma one_category_per_format_fails :
  ~ (forall f c1 c2 : string, declaredIn c1 f -> declaredIn c2 f -> c1 = c2).
Proof.
  intros H. destruct declared_GIF_twice as [Hi Hv].
  specialize (H "GIF" "images" "video" Hi Hv). discriminate H.
Qed.

(** C6. The member lists of two distinct categories share a format only
    for "GIF" (images and video) and "CSV" (documents and other); every
    other format is a member of one category only.  The owner that
    [getCategoryByFormat] reports declares the format, and is 'images' for
    "GIF" and 'documents' for "CSV". *)
Theorem categories_share_only_GIF_and_CSV :
  (forall f c1 c2 : string,
      declaredIn c1 f -> declaredIn c2 f -> c1 <> c2 -> sharedFormat f c1 c2 = true) /\
  getCategoryByFormat "GIF" = "images" /\
  getCategoryByFormat "CSV" = "documents" /\
  (forall format c : string,
      declaredIn c (toUpperCase format) ->
      declaredIn (getCategoryByFormat format) (toUpperCase format)).
Proof.
  split; [| split; [reflexivity | split; [reflexivity |]]].
  - intros f c1 c2 H1 H2 Hne.
    apply declaredIn_declarations in H1, H2.
    assert (Hall : forallb (fun p => forallb (fun q =>
                      negb (String.eqb (snd p) (snd q))
                      || String.eqb (fst p) (fst q)
                      || sharedFormat (snd p) (fst p) (fst q)) declarations)
                    declarations = true) by (vm_compute; reflexivity).
    rewrite forallb_forall in Hall. specialize (Hall _ H1).
    rewrite forallb_forall in Hall. specialize (Hall _ H2). simpl in Hall.
    rewrite String.eqb_refl in Hall. simpl in Hall.
    destruct (String.eqb_spec c1 c2) as [E | _]; [contradiction | exact Hall].
  - intros format c. unfold getCategoryByFormat.
    generalize (toUpperCase format) as u. intros u H.
    apply declaredIn_declarations in H. simpl in H.
    repeat (destruct H as [H | H];
            [inversion H; subst; apply declaredIn_declarations; in_list |]).
    contradiction.
Qed.

Lemma categories_share_only_GIF_and_CSV_witness :
  sharedFormat "GIF" "images" "video" = true.
Proof.
  apply (proj1 categories_share_only_GIF_and_CSV "GIF" "images" "video").
  - apply declaredIn_declarations; in_list.
  - apply declaredIn_declarations; in_list.
  - discriminate.
Defined.

(** C7. For every key of [supportedConversions] the lookup yields a
    non-empty array of valid upper-case formats; for every normalised
    (upper-case) string that is not a key it yields the empty array.  The
    lookup is a total function: no input makes it throw. *)
Theorem targetFormats_known_and_unknown :
  (forall k : string,
      In k (map fst supportedConversions) ->
      exists l, targetFormats (Some k) = JsArray l /\ l <> [] /\
                forallb validFormat l = true) /\
  (forall f : string,
      toUpperCase f = f -> ~ In f (map fst supportedConversions) ->
      targetFormats (Some f) = JsArray []) /\
  targetFormats None = JsArray [].
Proof.
  split; [| split; [| reflexivity]].
  - intros k Hk. simpl in Hk.
    repeat (destruct Hk as [Hk | Hk];
            [subst k; eexists; split; [reflexivity |];
             split; [discriminate | reflexivity] |]).
    contradiction.
  - intros f Hup Hkey. unfold targetFormats, getProperty.
    rewrite (ownProperty_None _ _ Hkey), (normalised_not_inherited _ Hup).
    destruct f; reflexivity.
Qed.

Lemma targetFormats_known_and_unknown_witness :
  (exists l, targetFormats (Some "RAR") = JsArray l /\ l <> [] /\
             forallb validFormat l = true) /\
  targetFormats (Some "UNKNOWNFMT") = JsArray [].
Proof.
  split.
  - apply (proj1 targetFormats_known_and_unknown "RAR"). in_list.
  - apply (proj1 (proj2 targetFormats_known_and_unknown) "UNKNOWNFMT").
    + reflexivity.
    + simpl. intros H.
      repeat (destruct H as [H | H]; [discriminate H |]). contradiction.
Defined.

(** Outside the normalised strings the lookup can reach a member that the
    table inherits, which is not an array. *)
Remark targetFormats_inherited :
  targetFormats (Some "constructor") = JsInherited "constructor".
Proof. reflexivity. Qed.

End FormatTable.

Section Polling.
Import ConversionApi.

Lemma pollStep_continue (d : StatusData) : pollStep d = Continue <-> inProgress d.
Proof.
  unfold pollStep, inProgress. destruct (job_status d) as [s |].
  - destruct (String.eqb_spec s "completed") as [-> | H1].
    { split; [discriminate | intros [H | H]; discriminate H]. }
    destruct (String.eqb_spec s "failed") as [-> | H2].
    { split; [discriminate | intros [H | H]; discriminate H]. }
    destruct (String.eqb_spec s "processing") as [-> | H3]; simpl.
    { split; [now left | reflexivity]. }
    destruct (String.eqb_spec s "pending") as [-> | H4].
    { split; [now right | reflexivity]. }
    split; [discriminate |]. intros [H | H]; inversion H; contradiction.
  - split; [discriminate | intros [H | H]; discriminate H].
Qed.

Lemma poll_answer (d : StatusData) (later : list (Fetch StatusData)) :
  fst (pollConversionStatus (answer d :: later)) =
  match pollStep d with
  | Resolve d' => Resolved d'
  | Reject e => Rejected e
  | Continue => fst (pollConversionStatus later)
  end.
Proof.
  simpl. destruct (pollStep d); try reflexivity.
  destruct (pollConversionStatus later) as [c evs]. reflexivity.
Qed.

(** Rounds that find the job under way are passed over. *)
Lemma poll_passes_over (waiting : list StatusData) (rest : list (Fetch StatusData)) :
  Forall inProgress waiting ->
  fst (pollConversionStatus (map answer waiting ++ rest)) =
  fst (pollConversionStatus rest).
Proof.
  induction 1 as [| d ds Hd _ IH]; [reflexivity |].
  change (map answer (d :: ds) ++ rest)%list
    with (answer d :: (map answer ds ++ rest))%list.
  rewrite poll_answer. apply pollStep_continue in Hd. rewrite Hd. exact IH.
Qed.

(** C2, as stated, fails: with status 'failed' and an empty
    [error_message] the rejection carries the generic text, not the
    (present) server message. *)
Lemma failed_message_verbatim_fails :
  ~ (forall (d : StatusData) (m : string) (later : list (Fetch StatusData)),
        job_status d = Some "failed" -> error_message d = Some m ->
        exists e, fst (pollConversionStatus (answer d :: later)) = Rejected e /\
                  message e = m).
Proof.
  intros H.
  destruct (H (mkStatus (Some "failed") 0 None (Some EmptyString)) EmptyString [] eq_refl eq_refl)
    as (e & He & Hm).
  simpl in He. inversion He; subst. discriminate Hm.
Qed.

(** C2. After any number of rounds that report 'processing' or 'pending',
    the round that receives payload [d] settles the promise: it resolves
    with [d] when the status is 'completed'; it rejects with exactly
    [error_message] when the status is 'failed' and the message is a
    non-empty string, and with 'Conversion failed' when the message is
    absent or empty; it goes on polling if and only if the status is
    'processing' or 'pending'; any other status rejects with 'Unknown
    status: ...'.  While only 'processing'/'pending' arrive the promise
    stays pending. *)
Theorem pollConversionStatus_settles
    (waiting : list StatusData) (d : StatusData) (later : list (Fetch StatusData)) :
  Forall inProgress waiting ->
  let outcome := fst (pollConversionStatus (map answer waiting ++ answer d :: later)) in
  (job_status d = Some "completed" -> outcome = Resolved d) /\
  (job_status d = Some "failed" ->
     forall m, error_message d = Some m -> m <> EmptyString ->
               outcome = Rejected (newError m None)) /\
  (job_status d = Some "failed" ->
     error_message d = None \/ error_message d = Some EmptyString ->
     outcome = Rejected (newError "Conversion failed" None)) /\
  (pollStep d = Continue <-> inProgress d) /\
  (inProgress d -> outcome = fst (pollConversionStatus later)) /\
  (~ inProgress d ->
     job_status d <> Some "completed" -> job_status d <> Some "failed" ->
     outcome = Rejected (newError ("Unknown status: " ++ interpolate (job_status d)) None)) /\
  fst (pollConversionStatus (map answer waiting)) = Waiting.
Proof.
  intros Hw outcome. subst outcome.
  rewrite (poll_passes_over _ _ Hw), poll_answer.
  repeat split.
  - intros E. unfold pollStep. rewrite E. reflexivity.
  - intros E m Em Hne. unfold pollStep. rewrite E, Em. simpl.
    destruct m; [contradiction | reflexivity].
  - intros E [Em | Em]; unfold pollStep; rewrite E, Em; reflexivity.
  - apply pollStep_continue.
  - apply pollStep_continue.
  - intros H. apply pollStep_continue in H. rewrite H. reflexivity.
  - intros Hn Hc Hf.
    assert (Hs : pollStep d <> Continue) by (intros E; apply Hn, pollStep_continue, E).
    unfold pollStep in *. destruct (job_status d) as [s |]; [| reflexivity].
    destruct (String.eqb_spec s "completed") as [-> | _]; [contradiction |].
    destruct (String.eqb_spec s "failed") as [-> | _]; [contradiction |].
    destruct (String.eqb s "processing" || String.eqb s "pending");
      [contradiction | reflexivity].
  - rewrite <- (app_nil_r (map answer waiting)).
    rewrite (poll_passes_over _ _ Hw). reflexivity.
Qed.

Lemma pollConversionStatus_settles_witness :
  fst (pollConversionStatus
         (map answer [mkStatus (Some "pending") 0 None None;
                      mkStatus (Some "processing") 40 None None]
            ++ answer (mkStatus (Some "failed") 40 None (Some "corrupt file")) :: []))
  = Rejected (newError "corrupt file" None).
Proof.
  refine (proj1 (proj2 (pollConversionStatus_settles
                          [mkStatus (Some "pending") 0 None None;
                           mkStatus (Some "processing") 40 None None]
                          (mkStatus (Some "failed") 40 None (Some "corrupt file"))
                          [] _)) eq_refl "corrupt file" eq_refl _).
  - constructor; [right; reflexivity |].
    constructor; [left; reflexivity | constructor].
  - discriminate.
Defined.

End Polling.

Section Binary64.
Import Number.

Lemma pow2_pos (e : Z) : 0 < pow2 e.
Proof. unfold pow2. apply Qpower_0_lt. reflexivity. Qed.

Lemma pow2_plus (a b : Z) : pow2 (a + b) == pow2 a * pow2 b.
Proof. unfold pow2. apply Qpower_plus. discriminate. Qed.

Lemma pow2_le (a b : Z) : (a <= b)%Z -> pow2 a <= pow2 b.
Proof. intros H. unfold pow2. apply Qpower_le_compat_l; [exact H | discriminate]. Qed.

Lemma pow2_lt_inv (a b : Z) : pow2 a < pow2 b -> (a < b)%Z.
Proof. intros H. apply (Qpower_lt_compat_l_inv 2); [exact H | reflexivity]. Qed.

Lemma pow2_Z (n : Z) : (0 <= n)%Z -> pow2 n == inject_Z (2 ^ n).
Proof. intros H. unfold pow2. rewrite Zpower_Qpower by exact H. reflexivity. Qed.

(** [pow2 (e + n)] is a whole multiple of [pow2 e]. *)
Lemma pow2_multiple (e n : Z) : (0 <= n)%Z -> pow2 (e + n) == inject_Z (2 ^ n) * pow2 e.
Proof. intros H. rewrite pow2_plus, (pow2_Z n H). ring. Qed.

(** [floorLog2] is the integer part of the binary logarithm. *)
Lemma floorLog2_spec (x : Q) :
  0 < x -> pow2 (floorLog2 x) <= x /\ x < pow2 (floorLog2 x + 1).
Proof.
  intros Hx. destruct x as [n d].
  assert (Hn : (0 < n)%Z) by (unfold Qlt in Hx; simpl in Hx; lia).
  unfold floorLog2. cbn [Qnum Qden].
  set (a := Z.log2 n). set (b := Z.log2 (Zpos d)).
  destruct (Z.log2_spec n Hn) as [Ha1 Ha2]. fold a in Ha1, Ha2.
  destruct (Z.log2_spec (Zpos d) eq_refl) as [Hb1 Hb2]. fold b in Hb1, Hb2.
  assert (Ha0 : (0 <= a)%Z) by apply Z.log2_nonneg.
  assert (Hb0 : (0 <= b)%Z) by apply Z.log2_nonneg.
  assert (Hxd : (n # d) * inject_Z (Zpos d) == inject_Z n).
  { unfold Qeq, Qmult, inject_Z. simpl. lia. }
  assert (Hd : 0 < inject_Z (Zpos d)) by reflexivity.
  (* 2^b <= d < 2^(b+1) and 2^a <= n < 2^(a+1) over Q *)
  assert (Qa1 : pow2 a <= inject_Z n) by (rewrite (pow2_Z a Ha0), <- Zle_Qle; exact Ha1).
  assert (Qa2 : inject_Z n < pow2 (a + 1)).
  { rewrite (pow2_Z (a + 1)) by lia. rewrite <- Zlt_Qlt. replace (a + 1)%Z with (Z.succ a) by lia. exact Ha2. }
  assert (Qb1 : pow2 b <= inject_Z (Zpos d)) by (rewrite (pow2_Z b Hb0), <- Zle_Qle; exact Hb1).
  assert (Qb2 : inject_Z (Zpos d) < pow2 (b + 1)).
  { rewrite (pow2_Z (b + 1)) by lia. rewrite <- Zlt_Qlt. replace (b + 1)%Z with (Z.succ b) by lia. exact Hb2. }
  destruct (Qle_bool (pow2 (a - b)) (n # d)) eqn:E.
  - split; [apply Qle_bool_iff; exact E |].
    (* x * d = n < 2^(a+1) = 2^(a-b+1) * 2^b <= 2^(a-b+1) * d *)
    apply (Qmult_lt_r _ _ (inject_Z (Zpos d)) Hd). rewrite Hxd.
    apply (Qlt_le_trans _ (pow2 (a + 1)) _ Qa2).
    replace (a + 1)%Z with ((a - b + 1) + b)%Z by lia. rewrite pow2_plus.
    apply Qmult_le_l; [apply pow2_pos | exact Qb1].
  - split.
    + apply (Qmult_le_r _ _ (inject_Z (Zpos d)) Hd). rewrite Hxd.
      apply (Qle_trans _ (pow2 a) _); [| exact Qa1].
      replace a with ((a - b - 1) + (b + 1))%Z at 2 by lia. rewrite pow2_plus.
      apply Qmult_le_l; [apply pow2_pos | apply Qlt_le_weak; exact Qb2].
    + replace (a - b - 1 + 1)%Z with (a - b)%Z by lia.
      apply Qnot_le_lt. intros H. apply Qle_bool_iff in H. rewrite H in E. discriminate E.
Qed.

Lemma floorLog2_le (x y : Q) : 0 < x -> x <= y -> (floorLog2 x <= floorLog2 y)%Z.
Proof.
  intros Hx Hxy.
  destruct (floorLog2_spec x Hx) as [H1 _].
  destruct (floorLog2_spec y (Qlt_le_trans _ _ _ Hx Hxy)) as [_ H2].
  assert (H : pow2 (floorLog2 x) < pow2 (floorLog2 y + 1)) by lra.
  apply pow2_lt_inv in H. lia.
Qed.

Lemma nearestEven_cases (y : Q) :
  nearestEven y = Qfloor y \/ nearestEven y = (Qfloor y + 1)%Z.
Proof.
  unfold nearestEven.
  destruct (Qcompare (y - inject_Z (Qfloor y)) (1 # 2)); [destruct (Z.even (Qfloor y)) | |]; auto.
Qed.

(** Rounding to the nearest integer moves a number by at most one half. *)
Lemma nearestEven_near (y : Q) :
  y - (1 # 2) <= inject_Z (nearestEven y) /\ inject_Z (nearestEven y) <= y + (1 # 2).
Proof.
  pose proof (Qfloor_le y) as Hle. pose proof (Qlt_floor y) as Hlt.
  rewrite inject_Z_plus in Hlt. change (inject_Z 1) with 1 in Hlt.
  unfold nearestEven.
  destruct (Qcompare (y - inject_Z (Qfloor y)) (1 # 2)) eqn:E.
  - apply Qeq_alt in E. destruct (Z.even (Qfloor y)).
    + split; lra.
    + rewrite inject_Z_plus. change (inject_Z 1) with 1. split; lra.
  - apply Qlt_alt in E. split; lra.
  - apply Qgt_alt in E. rewrite inject_Z_plus. change (inject_Z 1) with 1. split; lra.
Qed.

Lemma nearestEven_ge (y : Q) (n : Z) : inject_Z n <= y -> (n <= nearestEven y)%Z.
Proof.
  intros H. apply Qfloor_resp_le in H. rewrite Qfloor_Z in H.
  destruct (nearestEven_cases y) as [-> | ->]; lia.
Qed.

Lemma nearestEven_le (y : Q) (n : Z) : y <= inject_Z n -> (nearestEven y <= n)%Z.
Proof.
  intros H. pose proof (Qfloor_resp_le _ _ H) as Hf. rewrite Qfloor_Z in Hf.
  pose proof (Qfloor_le y) as Hle.
  unfold nearestEven.
  destruct (Z.eq_dec (Qfloor y) n) as [Heq | Hne].
  - assert (E : Qcompare (y - inject_Z (Qfloor y)) (1 # 2) = Lt).
    { apply -> Qlt_alt. rewrite Heq in Hle |- *. lra. }
    rewrite E. lia.
  - destruct (Qcompare (y - inject_Z (Qfloor y)) (1 # 2)); [destruct (Z.even (Qfloor y)) | |]; lia.
Qed.

Lemma nearestEven_monotone (y1 y2 : Q) : y1 <= y2 -> (nearestEven y1 <= nearestEven y2)%Z.
Proof.
  intros H. pose proof (Qfloor_resp_le _ _ H) as Hf.
  destruct (Z.eq_dec (Qfloor y1) (Qfloor y2)) as [Heq | Hne].
  - unfold nearestEven. rewrite <- Heq.
    destruct (Qcompare (y1 - inject_Z (Qfloor y1)) (1 # 2)) eqn:E1;
      destruct (Qcompare (y2 - inject_Z (Qfloor y1)) (1 # 2)) eqn:E2;
      try (destruct (Z.even (Qfloor y1))); try lia;
      exfalso; compared; lra.
  - destruct (nearestEven_cases y1) as [-> | ->];
      destruct (nearestEven_cases y2) as [-> | ->]; lia.
Qed.

Lemma ulpExponent_pos (x : Q) : 0 < x -> ulpExponent x = Z.max (floorLog2 x - 52) (-1074).
Proof.
  intros Hx. unfold ulpExponent.
  assert (E : Qabs x = x).
  { destruct x as [n d]. unfold Qabs. f_equal. apply Z.abs_eq.
    unfold Qlt in Hx. simpl in Hx. lia. }
  rewrite E. reflexivity.
Qed.

(** [x / pow2 e] scaled back. *)
Lemma scaled_back (x : Q) (e : Z) : x / pow2 e * pow2 e == x.
Proof. field. pose proof (pow2_pos e). lra. Qed.

(** Rounding a number moves it by at most half a unit in the last place. *)
Lemma round_near (x : Q) :
  x - pow2 (ulpExponent x) / 2 <= round x /\ round x <= x + pow2 (ulpExponent x) / 2.
Proof.
  unfold round. set (P := pow2 (ulpExponent x)).
  assert (HP : 0 < P) by apply pow2_pos.
  destruct (nearestEven_near (x / P)) as [H1 H2].
  pose proof (scaled_back x (ulpExponent x)) as Hs. fold P in Hs.
  assert (E1 : (x / P - (1 # 2)) * P == x - P / 2) by (field; lra).
  assert (E2 : (x / P + (1 # 2)) * P == x + P / 2) by (field; lra).
  split.
  - apply (Qmult_le_r _ _ P HP) in H1. rewrite E1 in H1. exact H1.
  - apply (Qmult_le_r _ _ P HP) in H2. rewrite E2 in H2. exact H2.
Qed.

Lemma round_nonneg (x : Q) : 0 <= x -> 0 <= round x.
Proof.
  intros Hx. unfold round. set (P := pow2 (ulpExponent x)).
  assert (HP : 0 < P) by apply pow2_pos.
  apply Qmult_le_0_compat; [| lra].
  change 0 with (inject_Z 0). rewrite <- Zle_Qle. apply nearestEven_ge.
  change (inject_Z 0) with 0. apply Qle_shift_div_l; [exact HP | lra].
Qed.

Lemma round_zero (x : Q) : x == 0 -> round x == 0.
Proof.
  intros Hx. unfold round. set (P := pow2 (ulpExponent x)).
  assert (HP : 0 < P) by apply pow2_pos.
  assert (H0 : x / P == 0) by (rewrite Hx; field; lra).
  assert (Hge : (0 <= nearestEven (x / P))%Z) by (apply nearestEven_ge; rewrite H0; apply Qle_refl).
  assert (Hle : (nearestEven (x / P) <= 0)%Z) by (apply nearestEven_le; rewrite H0; apply Qle_refl).
  replace (nearestEven (x / P)) with 0%Z by lia. ring.
Qed.

(** A whole multiple of the last place below [x] is below [round x]. *)
Lemma round_ge_multiple (x : Q) (n : Z) :
  inject_Z n * pow2 (ulpExponent x) <= x -> inject_Z n * pow2 (ulpExponent x) <= round x.
Proof.
  intros H. unfold round. set (P := pow2 (ulpExponent x)) in *.
  assert (HP : 0 < P) by apply pow2_pos.
  apply Qmult_le_r; [exact HP |]. rewrite <- Zle_Qle. apply nearestEven_ge.
  apply Qle_shift_div_l; assumption.
Qed.

Lemma round_le_multiple (x : Q) (n : Z) :
  x <= inject_Z n * pow2 (ulpExponent x) -> round x <= inject_Z n * pow2 (ulpExponent x).
Proof.
  intros H. unfold round. set (P := pow2 (ulpExponent x)) in *.
  assert (HP : 0 < P) by apply pow2_pos.
  apply Qmult_le_r; [exact HP |]. rewrite <- Zle_Qle. apply nearestEven_le.
  apply Qle_shift_div_r; assumption.
Qed.

(** Rounding is monotone. *)
Lemma round_monotone (x y : Q) : 0 <= x -> x <= y -> round x <= round y.
Proof.
  intros Hx0 Hxy.
  destruct (Qeq_dec x 0) as [Hz | Hnz].
  { rewrite (round_zero x Hz). apply round_nonneg. lra. }
  assert (Hx : 0 < x) by (apply Qnot_le_lt; intros H; apply Hnz; lra).
  assert (Hy : 0 < y) by lra.
  pose proof (floorLog2_le x y Hx Hxy) as Hk.
  pose proof (ulpExponent_pos x Hx) as Ex. pose proof (ulpExponent_pos y Hy) as Ey.
  destruct (floorLog2_spec x Hx) as [Hx1 Hx2]. destruct (floorLog2_spec y Hy) as [Hy1 Hy2].
  destruct (Z.eq_dec (ulpExponent x) (ulpExponent y)) as [Heq | Hne].
  - unfold round. rewrite Heq. set (P := pow2 (ulpExponent y)).
    assert (HP : 0 < P) by apply pow2_pos.
    apply Qmult_le_r; [exact HP |]. rewrite <- Zle_Qle. apply nearestEven_monotone.
    apply Qmult_le_r with (z := / P); [apply Qinv_lt_0_compat; exact HP |].
    unfold Qdiv in *. lra.
  - assert (Hlt : (ulpExponent x < ulpExponent y)%Z) by lia.
    assert (Hey : ulpExponent y = (floorLog2 y - 52)%Z) by lia.
    apply (Qle_trans _ (pow2 (floorLog2 y))).
    + (* round x <= 2^ky, a multiple of the last place of x *)
      replace (floorLog2 y) with (ulpExponent x + (floorLog2 y - ulpExponent x))%Z by lia.
      rewrite pow2_multiple by lia. apply round_le_multiple.
      rewrite <- pow2_multiple by lia.
      replace (ulpExponent x + (floorLog2 y - ulpExponent x))%Z with (floorLog2 y) by lia.
      apply Qlt_le_weak. apply (Qlt_le_trans _ _ _ Hx2). apply pow2_le. lia.
    + replace (floorLog2 y) with (ulpExponent y + 52)%Z at 1 by lia.
      rewrite pow2_multiple by lia. apply round_ge_multiple.
      rewrite <- pow2_multiple by lia.
      replace (ulpExponent y + 52)%Z with (floorLog2 y) by lia. exact Hy1.
Qed.

(** In the normal range rounding moves a number by at most 2^-53 of itself. *)
Lemma round_relative (x : Q) :
  pow2 (-1022) <= x ->
  x * (1 - pow2 (-53)) <= round x /\ round x <= x * (1 + pow2 (-53)).
Proof.
  intros Hn.
  assert (Hx : 0 < x) by (pose proof (pow2_pos (-1022)); lra).
  destruct (floorLog2_spec x Hx) as [Hx1 Hx2].
  assert (Hk : (-1022 <= floorLog2 x)%Z).
  { assert (H : pow2 (-1022) < pow2 (floorLog2 x + 1)) by lra. apply pow2_lt_inv in H. lia. }
  pose proof (ulpExponent_pos x Hx) as Ex.
  assert (He : ulpExponent x = (floorLog2 x + -52)%Z) by lia.
  destruct (round_near x) as [H1 H2].
  assert (Hu : pow2 (ulpExponent x) / 2 <= x * pow2 (-53)).
  { rewrite He, pow2_plus.
    assert (E : pow2 (-52) / 2 == pow2 (-53)) by reflexivity.
    assert (Hp : 0 < pow2 (-53)) by apply pow2_pos.
    setoid_replace (pow2 (floorLog2 x) * pow2 (-52) / 2) with (pow2 (floorLog2 x) * pow2 (-53))
      by (rewrite <- E; field).
    apply Qmult_le_r; assumption. }
  split; lra.
Qed.

(** The factor [0.7 + Math.random() * 0.6] in binary64. *)
Lemma factor_bounds (r : Q) :
  0 <= r -> r < 1 ->
  literal (7 # 10) <= add (literal (7 # 10)) (mul r (literal (6 # 10))) /\
  add (literal (7 # 10)) (mul r (literal (6 # 10))) <= add (literal (7 # 10)) (literal (6 # 10)).
Proof.
  intros Hr0 Hr1. unfold add, mul.
  assert (H6 : 0 < literal (6 # 10)) by (vm_compute; reflexivity).
  assert (H7 : 0 < literal (7 # 10)) by (vm_compute; reflexivity).
  assert (I6 : round (literal (6 # 10)) == literal (6 # 10)) by (vm_compute; reflexivity).
  assert (I7 : round (literal (7 # 10)) == literal (7 # 10)) by (vm_compute; reflexivity).
  set (d6 := literal (6 # 10)) in *. set (d7 := literal (7 # 10)) in *.
  assert (Hp0 : 0 <= r * d6) by (apply Qmult_le_0_compat; lra).
  assert (Hp1 : r * d6 <= d6).
  { setoid_replace d6 with (1 * d6) at 2 by ring. apply Qmult_le_r; lra. }
  assert (Ha0 : 0 <= round (r * d6)) by (apply round_nonneg; exact Hp0).
  assert (Ha1 : round (r * d6) <= d6).
  { apply (Qle_trans _ (round d6)); [apply round_monotone; assumption | lra]. }
  split.
  - apply (Qle_trans _ (round d7)); [lra | apply round_monotone; lra].
  - apply round_monotone; lra.
Qed.

(** The number that is rounded lies between 70% of the size, less the
    relative 2^-52 that the binary64 operations may lose, and 130% of it. *)
Lemma scaled_size_bounds (size : Z) (r : Q) :
  (0 <= size)%Z -> 0 <= r -> r < 1 ->
  let x := MockConversionApi.scaledSize size r in
  (7 # 10) * (1 - pow2 (-52)) * inject_Z size <= x /\ x <= (13 # 10) * inject_Z size.
Proof.
  intros Hs Hr0 Hr1 x. subst x. unfold MockConversionApi.scaledSize.
  destruct (factor_bounds r Hr0 Hr1) as [Hlo Hhi].
  set (b := add (literal (7 # 10)) (mul r (literal (6 # 10)))) in *.
  assert (C7 : (7 # 10) * (1 - pow2 (-52)) <= literal (7 # 10) * (1 - pow2 (-53)))
    by (vm_compute; discriminate).
  assert (C13 : add (literal (7 # 10)) (literal (6 # 10)) * (1 + pow2 (-53)) <= 13 # 10)
    by (vm_compute; discriminate).
  assert (Cn : pow2 (-1022) <= literal (7 # 10)) by (vm_compute; discriminate).
  assert (Cp : 0 < pow2 (-53) /\ pow2 (-53) < 1) by (split; vm_compute; reflexivity).
  assert (H7 : 0 < literal (7 # 10)) by (vm_compute; reflexivity).
  unfold mul.
  destruct (Z.eq_dec size 0) as [-> | Hne].
  - assert (E : round (inject_Z 0 * b) == 0) by (apply round_zero; ring).
    rewrite E. change (inject_Z 0) with 0. split; lra.
  - assert (H1 : 1 <= inject_Z size) by (change 1 with (inject_Z 1); rewrite <- Zle_Qle; lia).
    set (z := inject_Z size) in *.
    assert (Hzb : literal (7 # 10) <= z * b).
    { apply (Qle_trans _ (1 * b)); [lra |]. apply Qmult_le_r; lra. }
    destruct (round_relative (z * b)) as [R1 R2]; [lra |].
    set (u := pow2 (-53)) in *. set (d7 := literal (7 # 10)) in *.
    set (bmax := add d7 (literal (6 # 10))) in *.
    split.
    + apply (Qle_trans _ (z * b * (1 - u))); [| exact R1].
      apply (Qle_trans _ (z * (d7 * (1 - u)))).
      * setoid_replace ((7 # 10) * (1 - pow2 (-52)) * z) with (z * ((7 # 10) * (1 - pow2 (-52)))) by ring.
        apply Qmult_le_l; lra.
      * setoid_replace (z * b * (1 - u)) with (z * (b * (1 - u))) by ring.
        apply Qmult_le_l; [lra |]. apply Qmult_le_r; lra.
    + apply (Qle_trans _ (z * b * (1 + u))); [exact R2 |].
      apply (Qle_trans _ (z * (bmax * (1 + u)))).
      * setoid_replace (z * b * (1 + u)) with (z * (b * (1 + u))) by ring.
        apply Qmult_le_l; [lra |]. apply Qmult_le_r; lra.
      * setoid_replace ((13 # 10) * z) with (z * (13 # 10)) by ring.
        apply Qmult_le_l; lra.
Qed.

(** On the grid of [Math.random] the binary64 constant [0.05] separates the
    draws as the decimal 0.05 does. *)
Lemma threshold_on_grid (q : Q) :
  onGrid q -> (literal (5 # 100) < q <-> 5 # 100 < q).
Proof.
  intros [k Hk].
  assert (Ed : literal (5 # 100) == 3602879701896397 # 72057594037927936) by (vm_compute; reflexivity).
  assert (Ep : pow2 (-53) == 1 # 9007199254740992) by (vm_compute; reflexivity).
  rewrite Ed, Hk, Ep.
  unfold Qlt, Qmult, inject_Z. cbn [Qnum Qden]. lia.
Qed.

(** The binary64 constant [0.05] lies above 0.05, by less than 2^-58. *)
Lemma threshold_gap :
  5 # 100 < literal (5 # 100) /\ literal (5 # 100) < (5 # 100) + pow2 (-58).
Proof. split; vm_compute; reflexivity. Qed.

End Binary64.

Section MockFallback.
Import JsString MockConversionApi.









(** What the loop leaves: one entry per file, in order, each built from
    the next blob URL and the next two draws. *)
Lemma convertLoop_entries (targetFormat : string) (total : nat) :
  forall (files : list File.t) (i : nat) (b : Browser.t) rs evs b',
    convertLoop files i total targetFormat b = (rs, evs, b') ->
    Browser.random b' = Browser.random b /\
    Browser.drawn b' = (Browser.drawn b + 2 * List.length files)%nat /\
    Browser.revoked b' = Browser.revoked b /\
    List.length rs = List.length files /\
    forall k f, nth_error files k = Some f ->
                nth_error rs k =
                Some (mockEntry f targetFormat (Browser.nextObjectUrl b + k)
                                (sizeDraw b k) (successDraw b k)).
Proof.
  induction files as [| file rest IH]; intros i b rs evs b' E.
  - inversion E; subst. simpl. repeat split; try lia.
    intros [| k] f H; discriminate H.
  - cbn [convertLoop] in E. unfold mockResult in E. cbn in E.
    match type of E with
    | context [convertLoop rest (S i) total targetFormat ?b1] =>
        destruct (convertLoop rest (S i) total targetFormat b1)
          as [[rs1 evs1] b2] eqn:E1
    end.
    inversion E; subst; clear E.
    destruct (IH _ _ _ _ _ E1) as (Hr & Hd & Hv & Hl & Hn). cbn in Hr, Hd, Hv, Hn.
    repeat split.
    + exact Hr.
    + rewrite Hd. simpl. lia.
    + exact Hv.
    + simpl. now rewrite Hl.
    + intros [| k] f Hf.
      * inversion Hf; subst. cbn. unfold sizeDraw, successDraw.
        rewrite !Nat.add_0_r. replace (Browser.drawn b + 1)%nat with (S (Browser.drawn b)) by lia.
        reflexivity.
      * cbn. rewrite (Hn k f Hf). unfold sizeDraw, successDraw. cbn.
        repeat f_equal; lia.
Qed.

Lemma some_success (rs : list Result.t) :
  (0 <? ConversionApi.countSuccessful rs)%nat = true <->
  exists r, In r rs /\ Result.success r = true.
Proof.
  unfold ConversionApi.countSuccessful. rewrite Nat.ltb_lt. split.
  - intros H. destruct (filter Result.success rs) as [| r l] eqn:E;
      [simpl in H; lia |].
    assert (Hin : In r (filter Result.success rs)) by (rewrite E; now left).
    apply filter_In in Hin. now exists r.
  - intros (r & Hin & Hs).
    assert (Hf : In r (filter Result.success rs)) by (apply filter_In; now split).
    destruct (filter Result.success rs); [contradiction | simpl; lia].
Qed.


Lemma mock_originals (files : list File.t) (s t : string) (t0 t1 : Z) (b : Browser.t) :
  map Result.originalFile (Outcome.results (fst (fst (convertFiles files s t t0 t1 b))))
  = map Some files.
Proof.
  unfold convertFiles.
  destruct (convertLoop files 0 (List.length files) t b) as [[rs evs] b'] eqn:E. cbn.
  destruct (convertLoop_entries _ _ _ _ _ _ _ _ E) as (_ & _ & _ & Hl & Hn).
  apply nth_error_ext. intros k. rewrite !nth_error_map.
  destruct (nth_error files k) as [f |] eqn:Ef.
  - rewrite (Hn k f Ef). reflexivity.
  - apply nth_error_None in Ef.
    assert (Hk : nth_error rs k = None) by (apply nth_error_None; lia).
    rewrite Hk. reflexivity.
Qed.

Lemma mock_entry_at (files : list File.t) (s t : string) (t0 t1 : Z) (b : Browser.t)
    (k : nat) (f : File.t) :
  nth_error files k = Some f ->
  nth_error (Outcome.results (fst (fst (convertFiles files s t t0 t1 b)))) k =
  Some (mockEntry f t (Browser.nextObjectUrl b + k) (sizeDraw b k) (successDraw b k)).
Proof.
  intros Hf. unfold convertFiles.
  destruct (convertLoop files 0 (List.length files) t b) as [[rs evs] b'] eqn:E. cbn.
  destruct (convertLoop_entries _ _ _ _ _ _ _ _ E) as (_ & _ & _ & _ & Hn).
  exact (Hn k f Hf).
Qed.

(** C3, as stated, fails: when every file of a mock conversion fails, the
    returned outcome still carries [success: true]. *)
Lemma outcome_success_iff_some_entry_fails :
  ~ (forall (files : list File.t) (s t : string) (t0 t1 : Z) (b : Browser.t),
        let o := fst (fst (convertFiles files s t t0 t1 b)) in
        Outcome.success o = true <->
        exists r, In r (Outcome.results o) /\ Result.success r = true).
Proof.
  intros H.
  destruct (proj1 (H [File.mk "a.jpg" 10 "image/jpeg"; File.mk "b.jpg" 20 "image/jpeg";
                      File.mk "c.jpg" 30 "image/jpeg"]
                     "JPEG" "PNG" 0%Z 1%Z (Browser.fresh (fun _ => 0))) eq_refl)
    as (r & Hin & Hs).
  cbv in Hin. destruct Hin as [<- | [<- | [<- | []]]]; discriminate Hs.
Qed.

(** C3. Whenever a batch conversion returns normally, from the mock
    fallback or from the remote client, the success flag of the conversion
    record it carries ([conversionData.success]) is true if and only if at
    least one per-file result has [success = true]; the [success] field of
    the returned object itself is [true] on every normal return. *)
Theorem record_success_iff_some_entry :
  (forall (files : list File.t) (s t : string) (t0 t1 : Z) (b : Browser.t),
      let o := fst (fst (convertFiles files s t t0 t1 b)) in
      Outcome.success o = true /\
      ConversionData.results (Outcome.conversionData o) = Some (Outcome.results o) /\
      (ConversionData.success (Outcome.conversionData o) = true <->
       exists r, In r (Outcome.results o) /\ Result.success r = true)) /\
  (forall (files : list File.t) (s t : string) (env : ConversionApi.Remote) o evs,
      ConversionApi.convertFiles files s t env = (Resolved o, evs) ->
      Outcome.success o = true /\
      ConversionData.results (Outcome.conversionData o) = Some (Outcome.results o) /\
      (ConversionData.success (Outcome.conversionData o) = true <->
       exists r, In r (Outcome.results o) /\ Result.success r = true)).
Proof.
  split.
  - intros files s t t0 t1 b o. subst o. unfold convertFiles.
    destruct (convertLoop files 0 (List.length files) t b) as [[rs evs] b'].
    cbn. split; [reflexivity | split; [reflexivity | apply some_success]].
  - intros files s t env o evs H. unfold ConversionApi.convertFiles in H.
    destruct (ConversionApi.startConversion (ConversionApi.upload env)); [| discriminate H].
    destruct (ConversionApi.pollConversionStatus (ConversionApi.statuses env))
      as [[d | e |] evs']; try discriminate H.
    destruct (ConversionApi.results d) as [items |]; [| discriminate H].
    inversion H; subst; clear H. cbn.
    split; [reflexivity | split; [reflexivity | apply some_success]].
Qed.

Lemma record_success_iff_some_entry_witness :
  exists o,
    ConversionApi.convertFiles
      [File.mk "a.jpg" 10 "image/jpeg"] "JPEG" "PNG"
      (ConversionApi.mkRemote
         (Response 200 (Some (ConversionApi.mkUpload (Some "job-1") None)))
         [ConversionApi.answer
            (ConversionApi.mkStatus (Some "completed") 100
               (Some [ConversionApi.mkItem "a.jpg" "a.png" (Some "/download/a.png")
                                           12 false (Some "unreadable")])
               None)]
         0 5) = (Resolved o, [(100%Z, Some "completed")]) /\
    Outcome.success o = true /\
    ConversionData.success (Outcome.conversionData o) = false.
Proof.
  eexists. split; [reflexivity |].
  split.
  - refine (proj1 (proj2 record_success_iff_some_entry
              [File.mk "a.jpg" 10 "image/jpeg"] "JPEG" "PNG"
              (ConversionApi.mkRemote
                 (Response 200 (Some (ConversionApi.mkUpload (Some "job-1") None)))
                 [ConversionApi.answer
                    (ConversionApi.mkStatus (Some "completed") 100
                       (Some [ConversionApi.mkItem "a.jpg" "a.png" (Some "/download/a.png")
                                                   12 false (Some "unreadable")])
                       None)]
                 0 5) _ _ eq_refl)).
  - reflexivity.
Defined.



(** [Math.round] moves a number by at most one half. *)
Lemma mathRound_near (x : Q) :
  x - (1 # 2) < inject_Z (Browser.mathRound x) /\
  inject_Z (Browser.mathRound x) <= x + (1 # 2).
Proof.
  unfold Browser.mathRound.
  pose proof (Qfloor_le (x + (1 # 2))) as Hle.
  pose proof (Qlt_floor (x + (1 # 2))) as Hlt.
  rewrite inject_Z_plus in Hlt. change (inject_Z 1) with 1 in Hlt.
  split; lra.
Qed.

(** C5, as stated, fails: a file of 2 bytes with a first draw of 0 gets
    size [Math.round(1.4) = 1], which is half of the input size. *)
Lemma mock_size_within_30_percent_fails :
  ~ (forall (f : File.t) (t : string) (b : Browser.t),
        (forall n, 0 <= Browser.random b n /\ Browser.random b n < 1) ->
        (0 <= File.size f)%Z ->
        let r := fst (mockResult f t b) in
        (7 # 10) * inject_Z (File.size f) <= inject_Z (Result.size r) /\
        inject_Z (Result.size r) <= (13 # 10) * inject_Z (File.size f)).
Proof.
  intros H.
  assert (Hd : forall n : nat, 0 <= 0 /\ 0 < 1) by (intros; split; lra).
  destruct (H (File.mk "a.jpg" 2 "image/jpeg") "PNG" (Browser.fresh (fun _ => 0)) Hd)
    as [Hlow _]; [discriminate |].
  vm_compute in Hlow. apply Hlow. reflexivity.
Qed.

(** C5. For the file at index [k] of a mock conversion, with draws in
    [0,1) and an input size that is a safe integer: the output size is
    [Math.round] of the binary64 product [file.size * (0.7 + draw * 0.6)],
    which lies between 70% of the input size, less a relative 2^-52 lost to
    the rounding of the operations, and 130% of it; hence the size is
    within one half of that range.  The file succeeds if and only if its
    second draw exceeds the binary64 constant [0.05], which lies less than
    2^-58 above 0.05; for a draw on the grid of [Math.random] that is if
    and only if the draw exceeds 0.05. *)
Theorem mock_size_and_success
    (files : list File.t) (s t : string) (t0 t1 : Z) (b : Browser.t)
    (k : nat) (f : File.t) :
  (forall n, 0 <= Browser.random b n /\ Browser.random b n < 1) ->
  nth_error files k = Some f ->
  (0 <= File.size f < 2 ^ 53)%Z ->
  let o := fst (fst (convertFiles files s t t0 t1 b)) in
  let x := scaledSize (File.size f) (sizeDraw b k) in
  let low := (7 # 10) * (1 - Number.pow2 (-52)) * inject_Z (File.size f) in
  let high := (13 # 10) * inject_Z (File.size f) in
  exists r,
    nth_error (Outcome.results o) k = Some r /\
    Result.size r = Browser.mathRound x /\
    low <= x /\ x <= high /\
    low - (1 # 2) < inject_Z (Result.size r) /\
    inject_Z (Result.size r) <= high + (1 # 2) /\
    (Result.success r = true <-> Number.literal (5 # 100) < successDraw b k) /\
    (Number.onGrid (successDraw b k) ->
     (Result.success r = true <-> 5 # 100 < successDraw b k)) /\
    5 # 100 < Number.literal (5 # 100) /\
    Number.literal (5 # 100) < (5 # 100) + Number.pow2 (-58).
Proof.
  intros Hdraws Hf Hsize o x low high. subst o.
  eexists. split; [apply (mock_entry_at _ s t t0 t1 b _ _ Hf) |].
  cbn [mockEntry Result.size Result.success]. fold x.
  destruct (Hdraws (Browser.drawn b + 2 * k)%nat) as [Hr0 Hr1].
  destruct (scaled_size_bounds (File.size f) (sizeDraw b k) (proj1 Hsize) Hr0 Hr1)
    as [Hlo Hhi].
  fold x low high in Hlo, Hhi.
  destruct (mathRound_near x) as [Hn1 Hn2].
  assert (Hflag : negb (Qle_bool (successDraw b k) (Number.literal (5 # 100))) = true
                  <-> Number.literal (5 # 100) < successDraw b k).
  { rewrite negb_true_iff. split.
    - intros Hb. apply Qnot_le_lt. intros Hle.
      apply Qle_bool_iff in Hle. rewrite Hle in Hb. discriminate Hb.
    - intros Hlt.
      destruct (Qle_bool (successDraw b k) (Number.literal (5 # 100))) eqn:E; [| reflexivity].
      apply Qle_bool_iff in E. exfalso. apply (Qlt_not_le _ _ Hlt E). }
  split; [reflexivity |].
  split; [exact Hlo |]. split; [exact Hhi |].
  split; [lra |]. split; [lra |].
  split; [exact Hflag |].
  split; [intros Hg; rewrite Hflag; apply threshold_on_grid; exact Hg |].
  exact threshold_gap.
Qed.

Lemma mock_size_and_success_witness :
  exists r,
    nth_error (Outcome.results
                 (fst (fst (convertFiles [File.mk "a.jpg" 45 "image/jpeg"]
                                         "JPEG" "PNG" 0 1 (Browser.fresh (fun _ => 0))))))
              0 = Some r /\
    Result.size r = 31%Z /\ Result.success r = false.
Proof.
  destruct (mock_size_and_success [File.mk "a.jpg" 45 "image/jpeg"] "JPEG" "PNG" 0 1
              (Browser.fresh (fun _ => 0)) 0 (File.mk "a.jpg" 45 "image/jpeg"))
    as (r & Hr & Hs & _).
  - intros n. simpl. split; [apply Qle_refl | reflexivity].
  - reflexivity.
  - split; [discriminate | reflexivity].
  - exists r. split; [exact Hr |].
    vm_compute in Hr. inversion Hr. split; reflexivity.
Defined.

End MockFallback.

Section Orchestrator.
Import SmartSession.

Lemma replaceNth_length {A} (i : nat) (x : A) (l : list A) :
  List.length (replaceNth i x l) = List.length l.
Proof.
  revert i. induction l as [| y l IH]; intros [| i]; simpl; try reflexivity.
  now rewrite IH.
Qed.

Lemma nth_error_replaceNth {A} (i j : nat) (x : A) (l : list A) :
  nth_error (replaceNth i x l) j =
  if (i =? j)%nat then option_map (fun _ => x) (nth_error l j) else nth_error l j.
Proof.
  revert i j. induction l as [| y l IH]; intros [| i] [| j]; simpl; try reflexivity.
  - destruct (i =? j)%nat; reflexivity.
  - apply IH.
Qed.

(** A move starts a call, hands one call what it waits for, or does
    nothing because no call waits for it. *)
Lemma move_cases (x : t) (m : Move) :
  (exists r now, m = Calls r now /\
     move x m = mk (backendAvailable x)
                   (tasks x ++ [begin (backendAvailable x) r now]) (browser x)) \/
  (exists i task st next b,
     target m = Some i /\ nth_error (tasks x) i = Some task /\
     advance m (backendAvailable x) task (browser x) = Some (st, next, b) /\
     move x m = mk st (replaceNth i next (tasks x)) b) \/
  (exists i,
     target m = Some i /\
     (forall task, nth_error (tasks x) i = Some task ->
                   advance m (backendAvailable x) task (browser x) = None) /\
     move x m = x).
Proof.
  destruct m as [r now | i a now | i e now | i a | i now];
    [left; eauto | | | |];
    right; unfold move; cbn [target];
    (destruct (nth_error (tasks x) i) as [task |] eqn:E;
     [| right; exists i; split; [reflexivity | split; [intros ? H0; rewrite E in H0; discriminate H0 | reflexivity]]]);
    match goal with
    | |- context [advance ?m ?st task ?b] =>
        destruct (advance m st task b) as [[[st' next] b'] |] eqn:Ea
    end;
    first [ left; exists i, task, st', next, b'; repeat split; assumption
          | right; exists i; split; [reflexivity |]; split; [| reflexivity];
            intros task0 H0; rewrite E in H0; inversion H0; subst task0; exact Ea ].
Qed.

Lemma run_app (x : t) (before after : list Move) :
  run x (before ++ after) = run (run x before) after.
Proof. apply fold_left_app. Qed.

Lemma orderly_app (x : t) (before after : list Move) :
  orderly x (before ++ after) = orderly x before && orderly (run x before) after.
Proof.
  revert x. induction before as [| m before IH]; intros x; [reflexivity |].
  cbn [app orderly run fold_left]. rewrite IH, andb_assoc. reflexivity.
Qed.

Lemma probing_false (x : t) (i : nat) (task : Task) :
  probing x = false -> nth_error (tasks x) i = Some task -> phase task <> AwaitingHealth.
Proof.
  unfold probing. intros Hp Hi Hphase.
  assert (H : existsb (fun task => match phase task with AwaitingHealth => true | _ => false end)
                      (tasks x) = true).
  { apply existsb_exists. exists task. split; [eapply nth_error_In; exact Hi |].
    rewrite Hphase. reflexivity. }
  rewrite H in Hp. discriminate Hp.
Qed.

Lemma existsb_replaceNth {A} (p : A -> bool) (i : nat) (x : A) (l : list A) :
  existsb p l = false -> p x = false -> existsb p (replaceNth i x l) = false.
Proof.
  revert i. induction l as [| y l IH]; intros [| i] Hl Hx; simpl in *; try reflexivity.
  - apply orb_false_iff in Hl. destruct Hl as [_ Hl]. rewrite Hx, Hl. reflexivity.
  - apply orb_false_iff in Hl. destruct Hl as [Hy Hl]. rewrite Hy. simpl. now apply IH.
Qed.

Lemma sent_replaceNth (i : nat) (task next : Task) (l : list Task) :
  nth_error l i = Some task ->
  filter isProbeSent (did next) = filter isProbeSent (did task) ->
  filter isProbeSent (flat_map did (replaceNth i next l)) = filter isProbeSent (flat_map did l).
Proof.
  revert i. induction l as [| y l IH]; intros [| i] Hi Hs; simpl in *; try discriminate.
  - inversion Hi; subst y. rewrite !filter_app, Hs. reflexivity.
  - rewrite !filter_app, (IH i Hi Hs). reflexivity.
Qed.

(** A call that is past its probe never waits for one again, sends no
    further probe, and leaves the flag set. *)
Lemma advance_past_probe (m : Move) (st st' : SmartConversionService.State)
    (task next : Task) (b b' : Browser.t) :
  advance m st task b = Some (st', next, b') ->
  phase task <> AwaitingHealth ->
  phase next <> AwaitingHealth /\
  filter isProbeSent (did next) = filter isProbeSent (did task) /\
  request next = request task /\
  (st <> None -> st' <> None).
Proof.
  intros Ha Hp. unfold advance in Ha.
  destruct m as [r now | i a now | i e now | i a | i now];
    destruct (phase task) eqn:Ephase; try discriminate Ha; try (now elim Hp).
  - destruct (request task) as [files s t |] eqn:Er; [| discriminate Ha].
    destruct (ConversionApi.convertFiles files s t e) as [[o | err |] evs];
      inversion Ha; subst; cbn;
      (split; [discriminate |]); rewrite filter_app; cbn; rewrite app_nil_r;
      (split; [reflexivity |]); (split; [reflexivity |]); try (intros; discriminate); auto.
  - inversion Ha; subst; cbn.
    split; [discriminate |]. rewrite filter_app; cbn; rewrite app_nil_r.
    split; [reflexivity |]. split; [reflexivity | auto].
  - destruct (fire now task b) as [[next' b''] |] eqn:Ef; [| discriminate Ha].
    inversion Ha; subst; clear Ha.
    unfold fire in Ef. rewrite Ephase in Ef.
    destruct (request task) as [files s t |] eqn:Er; [| discriminate Ef].
    destruct (nth_error files (List.length results)) as [file |].
    + destruct (MockConversionApi.mockResult file t b) as [r bb].
      destruct (S (List.length results) =? List.length files)%nat;
        inversion Ef; subst; cbn;
        (split; [discriminate |]); try (rewrite filter_app; cbn; rewrite app_nil_r);
        (split; [reflexivity |]); (split; [reflexivity | auto]).
    + inversion Ef; subst; cbn.
      split; [discriminate |]. rewrite filter_app; cbn; rewrite app_nil_r.
      split; [reflexivity |]. split; [reflexivity | auto].
Qed.

Lemma proceed_past_probe (a : bool) (r : Request) (now : Z) (done : list Deed) :
  phase (proceed a r now done) <> AwaitingHealth /\
  filter isProbeSent (did (proceed a r now done)) = filter isProbeSent done /\
  request (proceed a r now done) = r.
Proof.
  destruct a, r; cbn; (split; [discriminate |]);
    try (rewrite filter_app; cbn; rewrite app_nil_r); split; reflexivity.
Qed.

Lemma probing_app (x : t) (task : Task) :
  existsb (fun task => match phase task with AwaitingHealth => true | _ => false end)
          (tasks x ++ [task]) =
  probing x || match phase task with AwaitingHealth => true | _ => false end.
Proof. unfold probing. rewrite existsb_app. cbn. rewrite orb_false_r. reflexivity. Qed.

Lemma calm_move (x : t) (m : Move) :
  calm x ->
  (match m with Calls _ _ => negb (probing x) | _ => true end) = true ->
  calm (move x m).
Proof.
  intros Hc Hm. unfold calm in *.
  destruct (move_cases x m) as [(r & now & -> & ->) | [(i & task & st & next & b & Ht & Hi & Ha & ->)
                                                      | (i0 & _ & _ & ->)]];
    [| | exact Hc].
  - (* a call *)
    cbn [backendAvailable tasks]. apply negb_true_iff in Hm.
    destruct (backendAvailable x) as [a |] eqn:Ef.
    + destruct Hc as [Hp Hn]. cbn [begin].
      destruct (proceed_past_probe a r now []) as (Hph & Hs & _).
      split.
      * unfold probing at 1. cbn [tasks]. rewrite probing_app, Hp.
        destruct (phase (proceed a r now [])); try reflexivity. now elim Hph.
      * unfold probes in *. cbn [tasks]. rewrite flat_map_app, filter_app, length_app.
        cbn [flat_map]. rewrite app_nil_r, Hs. cbn. lia.
    + destruct Hc as [Hc | [r0 Hc]]; rewrite Hc in *.
      * right. exists r. reflexivity.
      * unfold probing in Hm. rewrite Hc in Hm. discriminate Hm.
  - (* an answer *)
    cbn [backendAvailable tasks].
    destruct (backendAvailable x) as [a |] eqn:Ef.
    + destruct Hc as [Hp Hn].
      pose proof (probing_false x i task Hp Hi) as Hph.
      destruct (advance_past_probe _ _ _ _ _ _ _ Ha Hph) as (Hph' & Hs & _ & Hst).
      destruct st as [a' |]; [| now elim Hst].
      split.
      * unfold probing in *. cbn [tasks]. apply existsb_replaceNth; [exact Hp |].
        destruct (phase next); try reflexivity. now elim Hph'.
      * unfold probes in *. cbn [tasks]. rewrite (sent_replaceNth i task next _ Hi Hs). exact Hn.
    + destruct Hc as [Hc | [r0 Hc]]; rewrite Hc in Hi.
      * destruct i; discriminate Hi.
      * destruct i as [| i]; [| destruct i; discriminate Hi].
        inversion Hi; subst task. clear Hi. rewrite Hc.
        unfold advance in Ha. cbn [phase request did] in Ha.
        destruct m as [r now | j a now | j e now | j a | j now]; try discriminate Ha.
        inversion Ha; subst. clear Ha.
        destruct (proceed_past_probe (healthy a) r0 now [ProbeSent; ProbeAnswered (healthy a)])
          as (Hph & Hs & _).
        split.
        -- unfold probing. cbn.
           destruct (phase (proceed (healthy a) r0 now [ProbeSent; ProbeAnswered (healthy a)]));
             try reflexivity. now elim Hph.
        -- unfold probes. cbn. rewrite app_nil_r.
           change (ProbeSent :: ProbeAnswered (healthy a) :: nil)
             with ([ProbeSent; ProbeAnswered (healthy a)]) in Hs.
           cbn [app] in Hs |- *. rewrite Hs. cbn. lia.
Qed.

Lemma calm_run (moves : list Move) :
  forall x, calm x -> orderly x moves = true -> calm (run x moves).
Proof.
  induction moves as [| m moves IH]; intros x Hc Ho; [exact Hc |].
  cbn [orderly] in Ho. apply andb_true_iff in Ho. destruct Ho as [Hm Ho].
  cbn [run fold_left]. apply IH; [apply calm_move; assumption | exact Ho].
Qed.

Lemma calm_fresh (b : Browser.t) : calm (fresh b).
Proof. left. reflexivity. Qed.

Lemma calm_probes (x : t) : calm x -> (probes x <= 1)%nat.
Proof.
  unfold calm. destruct (backendAvailable x).
  - intros [_ H]. exact H.
  - intros [H | [r H]]; unfold probes; rewrite H; cbn; lia.
Qed.


(** *** Once the flag is [false] and no probe is out *)

Lemma firstn_S_nth {A} (l : list A) (k : nat) (x : A) :
  nth_error l k = Some x -> firstn (S k) l = (firstn k l ++ [x])%list.
Proof.
  revert k. induction l as [| y l IH]; intros [| k] H; try discriminate H.
  - inversion H. reflexivity.
  - simpl in H. change (firstn (S (S k)) (y :: l)) with (y :: firstn (S k) l).
    rewrite (IH k H). reflexivity.
Qed.

Lemma mockResult_original (file : File.t) (t : string) (b : Browser.t) :
  Result.originalFile (fst (MockConversionApi.mockResult file t b)) = Some file.
Proof. reflexivity. Qed.

(** A call in the mock stays there until it returns a mock result; the
    flag is not touched. *)
Lemma advance_mocked (m : Move) (st st' : SmartConversionService.State)
    (task next : Task) (b b' : Browser.t) :
  advance m st task b = Some (st', next, b') ->
  mocked task ->
  mocked next /\ st' = st /\ request next = request task /\
  exists now, m = TimersFire (match target m with Some i => i | None => 0 end) now /\
    ((did next = did task /\ exists t0 results, phase next = InMock t0 results) \/
     (did next = (did task ++ [MockReturned])%list /\ exists o, phase next = Finished (Converted o))).
Proof.
  intros Ha Hm. unfold mocked in Hm. unfold advance in Ha.
  destruct (request task) as [files s t |] eqn:Er; [| destruct (phase task); contradiction].
  destruct (phase task) as [| | | t0 results | [o | f]] eqn:Ephase; try contradiction;
    destruct m as [r now | i a now | i e now | i a | i now]; try discriminate Ha.
  destruct Hm as [Hpre Hlen].
  destruct (fire now task b) as [[next' b''] |] eqn:Ef; [| discriminate Ha].
  inversion Ha; subst; clear Ha.
  unfold fire in Ef. rewrite Ephase, Er in Ef.
  destruct (nth_error files (List.length results)) as [file |] eqn:En.
  - pose proof (mockResult_original file t b) as Ho.
    destruct (MockConversionApi.mockResult file t b) as [r bb]. cbn [fst] in Ho.
    assert (Hpre' : map Result.originalFile (results ++ [r])
                    = map Some (firstn (S (List.length results)) files)).
    { rewrite map_app, Hpre, (firstn_S_nth _ _ _ En), map_app. cbn. rewrite Ho. reflexivity. }
    assert (Hlt : (List.length results < List.length files)%nat)
      by (apply nth_error_Some; rewrite En; discriminate).
    destruct (S (List.length results) =? List.length files)%nat eqn:Elast;
      inversion Ef; subst; clear Ef; unfold mocked; cbn [request phase did target]; try rewrite Er.
    + apply Nat.eqb_eq in Elast.
      split; [| split; [reflexivity | split; [reflexivity |]]].
      * unfold mockOutcome, MockConversionApi.conclude. cbn.
        split; [reflexivity |]. split; [reflexivity |].
        rewrite Hpre', Elast, firstn_all. reflexivity.
      * exists now. split; [reflexivity |]. right. split; [reflexivity | eauto].
    + apply Nat.eqb_neq in Elast.
      split; [| split; [reflexivity | split; [reflexivity |]]].
      * split.
        -- rewrite length_app. cbn [List.length]. rewrite Nat.add_1_r. exact Hpre'.
        -- left. rewrite length_app. cbn [List.length]. lia.
      * exists now. split; [reflexivity |]. left. split; [reflexivity | eauto].
  - assert (Hfiles : files = []).
    { destruct Hlen as [Hlt | He]; [| exact He].
      apply nth_error_None in En. lia. }
    subst files. destruct results as [| r0 results]; [| discriminate Hpre].
    inversion Ef; subst; clear Ef. unfold mocked. cbn [request phase did target]. try rewrite Er.
    split; [| split; [reflexivity | split; [reflexivity |]]].
    + unfold mockOutcome, MockConversionApi.conclude. cbn. repeat split.
    + exists now. split; [reflexivity |]. right. split; [reflexivity | eauto].
Qed.

Lemma mocked_phase (task : Task) : mocked task -> phase task <> AwaitingHealth.
Proof.
  unfold mocked. intros H E. rewrite E in H. destruct (request task); exact H.
Qed.

Lemma straightToMock_phase (task : Task) : straightToMock task -> phase task <> AwaitingHealth.
Proof.
  unfold straightToMock. destruct (request task) eqn:Er.
  - intros [H _]. apply mocked_phase. exact H.
  - intros [H _]. rewrite H. discriminate.
Qed.

Lemma advance_straightToMock (m : Move) (st st' : SmartConversionService.State)
    (task next : Task) (b b' : Browser.t) :
  advance m st task b = Some (st', next, b') ->
  straightToMock task ->
  straightToMock next /\ st' = st.
Proof.
  intros Ha Hs. unfold straightToMock in *.
  destruct (request task) as [files s t |] eqn:Er.
  - destruct Hs as [Hm Hd].
    destruct (advance_mocked _ _ _ _ _ _ _ Ha Hm) as (Hm' & Hst & Hr & now & Hnow & Hcases).
    rewrite Hr, Er. split; [| exact Hst]. split; [exact Hm' |].
    assert (Hin : exists t0 results, phase task = InMock t0 results).
    { unfold advance in Ha. rewrite Hnow in Ha.
      destruct (phase task) as [| | | t0 results | r]; try discriminate Ha. eauto. }
    destruct Hin as (t0 & results & Hin). rewrite Hin in Hd.
    destruct Hcases as [[Hd' (t0' & results' & Hp')] | [Hd' [o Hp']]]; rewrite Hd', Hp', Hd;
      reflexivity.
  - destruct Hs as [Hp Hd]. unfold advance in Ha. rewrite Hp in Ha.
    destruct m; discriminate Ha.
Qed.

Lemma begin_unavailable (r : Request) (now : Z) : straightToMock (begin (Some false) r now).
Proof.
  destruct r as [files s t |]; unfold straightToMock, mocked; cbn.
  - split; [| reflexivity]. split; [reflexivity |]. destruct files; [right | left; cbn; lia]; reflexivity.
  - split; reflexivity.
Qed.

Lemma settledDown_move (x : t) (m : Move) : settledDown x -> settledDown (move x m).
Proof.
  intros [Hf Hp]. unfold settledDown.
  destruct (move_cases x m) as [(r & now & -> & ->) | [(i & task & st & next & b & Ht & Hi & Ha & ->)
                                                      | (i0 & _ & _ & ->)]];
    [| | split; assumption]; cbn [backendAvailable tasks].
  - split; [exact Hf |]. unfold probing at 1. cbn [tasks]. rewrite probing_app, Hp, Hf.
    pose proof (straightToMock_phase _ (begin_unavailable r now)) as Hph.
    destruct (phase (begin (Some false) r now)); try reflexivity. now elim Hph.
  - pose proof (probing_false x i task Hp Hi) as Hph.
    destruct (advance_past_probe _ _ _ _ _ _ _ Ha Hph) as (Hph' & _ & _ & _).
    split.
    + rewrite Hf in Ha. unfold advance in Ha.
      destruct m as [r now | j a now | j e now | j a | j now];
        destruct (phase task) eqn:Ephase; try discriminate Ha; try (now elim Hph).
      * destruct (request task) as [files s t |]; [| discriminate Ha].
        destruct (ConversionApi.convertFiles files s t e) as [[o | err |] evs];
          inversion Ha; reflexivity.
      * inversion Ha; reflexivity.
      * destruct (fire now task (browser x)) as [[n bb] |]; inversion Ha; reflexivity.
    + unfold probing in *. cbn [tasks]. apply existsb_replaceNth; [exact Hp |].
      destruct (phase next); try reflexivity. now elim Hph'.
Qed.

(** Calls started once the session has settled down go straight to the
    mock. *)
Lemma later_calls (moves : list Move) :
  forall (x : t) (n : nat),
    settledDown x ->
    (forall j task, (n <= j)%nat -> nth_error (tasks x) j = Some task -> straightToMock task) ->
    settledDown (run x moves) /\
    forall j task, (n <= j)%nat -> nth_error (tasks (run x moves)) j = Some task ->
                   straightToMock task.
Proof.
  induction moves as [| m moves IH]; intros x n Hs Hl; [split; assumption |].
  cbn [run fold_left]. apply IH; [apply settledDown_move; exact Hs |].
  destruct Hs as [Hf Hp].
  destruct (move_cases x m) as [(r & now & -> & ->) | [(i & task & st & next & b & Ht & Hi & Ha & ->)
                                                      | (i0 & _ & _ & ->)]];
    [| | exact Hl]; cbn [tasks]; intros j task' Hj Hn.
  - destruct (Nat.lt_ge_cases j (List.length (tasks x))) as [Hlt | Hge].
    + rewrite nth_error_app1 in Hn by exact Hlt. exact (Hl j task' Hj Hn).
    + rewrite nth_error_app2 in Hn by exact Hge.
      destruct (j - List.length (tasks x))%nat as [| k]; [| destruct k; discriminate Hn].
      inversion Hn; subst task'. rewrite Hf. apply begin_unavailable.
  - rewrite nth_error_replaceNth in Hn.
    destruct (Nat.eqb_spec i j) as [-> | Hne]; [| exact (Hl j task' Hj Hn)].
    rewrite Hi in Hn. inversion Hn; subst task'.
    exact (proj1 (advance_straightToMock _ _ _ _ _ _ _ Ha (Hl j task Hj Hi))).
Qed.

(** *** The call that was sent to the mock *)

Lemma fire_mocked (now : Z) (task : Task) (b : Browser.t) :
  mocked task -> (0 < remaining task)%nat ->
  exists next b', fire now task b = Some (next, b') /\ remaining next = pred (remaining task).
Proof.
  unfold mocked, remaining, fire.
  destruct (request task) as [files s t |] eqn:Er; [| destruct (phase task); contradiction].
  destruct (phase task) as [| | | t0 results | [o | f]] eqn:Ephase; try contradiction;
    [| intros _ H; inversion H].
  intros [Hpre Hlen] _.
  destruct (nth_error files (List.length results)) as [file |] eqn:En.
  - destruct (MockConversionApi.mockResult file t b) as [r bb].
    assert (Hlt : (List.length results < List.length files)%nat)
      by (apply nth_error_Some; rewrite En; discriminate).
    destruct (S (List.length results) =? List.length files)%nat eqn:Elast.
    + apply Nat.eqb_eq in Elast. eexists. eexists. split; [reflexivity |].
      cbn [request phase]. lia.
    + apply Nat.eqb_neq in Elast. eexists. eexists. split; [reflexivity |].
      cbn [request phase]. rewrite length_app. cbn [List.length]. lia.
  - eexists. eexists. split; [reflexivity |]. cbn [request phase].
    apply nth_error_None in En. lia.
Qed.

Lemma timers_cons (i : nat) (m : Move) (moves : list Move) :
  timers i (m :: moves) =
  ((match m with TimersFire j _ => if (i =? j)%nat then 1 else 0 | _ => 0 end)
   + timers i moves)%nat.
Proof.
  unfold timers. cbn [filter].
  destruct m as [r now | j a now | j e now | j a | j now]; try reflexivity.
  destruct (i =? j)%nat; reflexivity.
Qed.

(** A call in the mock stays in the mock whatever else happens, and every
    round of its timers brings it one round nearer to its return. *)
Lemma mock_runs_on (moves : list Move) :
  forall (x : t) (i : nat) (task : Task),
    nth_error (tasks x) i = Some task -> mocked task ->
    exists task',
      nth_error (tasks (run x moves)) i = Some task' /\
      mocked task' /\ request task' = request task /\
      (remaining task' <= remaining task - timers i moves)%nat.
Proof.
  induction moves as [| m moves IH]; intros x i task Hi Hm.
  - exists task. cbn. repeat split; try assumption. lia.
  - cbn [run fold_left]. rewrite timers_cons.
    destruct (move_cases x m) as [(r & now & -> & E) | [(j & taskj & st & next & b & Ht & Hj & Ha & E)
                                                        | Hnc]].
    + destruct (IH (move x (Calls r now)) i task) as (task' & H1 & H2 & H3 & H4).
      * rewrite E. cbn [tasks]. rewrite nth_error_app1; [exact Hi |].
        apply nth_error_Some. rewrite Hi. discriminate.
      * exact Hm.
      * exists task'. repeat split; try assumption; try lia.
    + destruct (Nat.eqb_spec j i) as [-> | Hne].
      * rewrite Hi in Hj. inversion Hj; subst taskj. clear Hj.
        destruct (advance_mocked _ _ _ _ _ _ _ Ha Hm) as (Hm' & _ & Hr & now & Hnow & _).
        rewrite Ht in Hnow.
        assert (Hrem : (remaining next <= remaining task - 1)%nat).
        { rewrite Hnow in Ha. unfold advance in Ha.
          destruct (phase task) as [| | | t0 results | rr] eqn:Ephase; try discriminate Ha.
          assert (Hpos : (0 < remaining task)%nat).
          { unfold remaining. unfold mocked in Hm. rewrite Ephase in Hm |- *.
            destruct (request task); [lia | contradiction]. }
          destruct (fire_mocked now task (browser x) Hm Hpos) as (n' & b'' & Hf & Hp).
          rewrite Hf in Ha. inversion Ha; subst. lia. }
        destruct (IH (move x m) i next) as (task' & H1 & H2 & H3 & H4).
        -- rewrite E. cbn [tasks]. rewrite nth_error_replaceNth, Nat.eqb_refl, Hi. reflexivity.
        -- exact Hm'.
        -- exists task'. split; [exact H1 |]. split; [exact H2 |].
           split; [congruence |].
           rewrite Hnow. rewrite Nat.eqb_refl. lia.
      * destruct (IH (move x m) i task) as (task' & H1 & H2 & H3 & H4).
        -- rewrite E. cbn [tasks]. rewrite nth_error_replaceNth.
           destruct (Nat.eqb_spec j i); [contradiction | exact Hi].
        -- exact Hm.
        -- exists task'. repeat split; try assumption.
           assert (Hz : match m with
                        | TimersFire j0 _ => if (i =? j0)%nat then 1%nat else 0%nat
                        | _ => 0%nat
                        end = 0%nat).
           { destruct m as [r now | j0 a now | j0 e now | j0 a | j0 now]; try reflexivity.
             cbn [target] in Ht. inversion Ht; subst j0.
             destruct (Nat.eqb_spec i j); [congruence | reflexivity]. }
           rewrite Hz. lia.
    + destruct Hnc as (j & Ht & Hnone & E).
      destruct (IH (move x m) i task) as (task' & H1 & H2 & H3 & H4).
      * rewrite E. exact Hi.
      * exact Hm.
      * exists task'. repeat split; try assumption.
        destruct m as [r now | j0 a now | j0 e now | j0 a | j0 now]; try exact H4.
        cbn [target] in Ht. inversion Ht; subst j0.
        destruct (Nat.eqb_spec i j) as [<- | Hne]; [| exact H4].
        destruct (Nat.eq_dec (remaining task) 0) as [Hz | Hpos]; [lia |].
        exfalso. pose proof (Hnone task Hi) as Hadv.
        destruct (fire_mocked now task (browser x) Hm) as (n' & b'' & Hf & _); [lia |].
        unfold advance in Hadv. unfold remaining in Hpos.
        destruct (request task); [| now elim Hpos].
        destruct (phase task); try (now elim Hpos).
        rewrite Hf in Hadv. discriminate Hadv.
Qed.


(** What a degrading move leaves behind. *)
Lemma degrades_move (x : t) (m : Move) (i : nat) :
  degrades x m = Some i ->
  target m = Some i /\
  exists task next,
    nth_error (tasks x) i = Some task /\
    move x m = mk (Some false) (replaceNth i next (tasks x)) (browser x) /\
    request next = request task /\
    (forall files s t, request task = ConvertFiles files s t ->
                       mocked next /\ remaining next = rounds files).
Proof.
  unfold degrades.
  destruct m as [r now | j a now | j e now | j a | j now]; try discriminate.
  - destruct (nth_error (tasks x) j) as [task |] eqn:Ej; [| discriminate].
    destruct (phase task) eqn:Ephase; try discriminate.
    destruct (ConversionApi.checkHealth a) eqn:Eh; [discriminate |].
    intros H. inversion H; subst j. split; [reflexivity |].
    exists task. eexists. split; [exact Ej |].
    unfold move. cbn [target]. rewrite Ej. unfold advance, healthy. rewrite Ephase, Eh.
    split; [reflexivity |].
    destruct (request task) as [files s t |]; cbn.
    + split; [reflexivity |]. intros files' s' t' E. inversion E; subst.
      unfold mocked, remaining, rounds. cbn. rewrite Nat.sub_0_r.
      split; [| reflexivity]. split; [reflexivity |].
      destruct files'; [right | left; cbn; lia]; reflexivity.
    + split; [reflexivity |]. intros files' s' t' E. discriminate E.
  - destruct (nth_error (tasks x) j) as [task |] eqn:Ej; [| discriminate].
    destruct (phase task) eqn:Ephase; try discriminate.
    destruct (request task) as [files s t |] eqn:Er; [| discriminate].
    destruct (ConversionApi.convertFiles files s t e) as [[o | err |] evs] eqn:Ec;
      try discriminate.
    intros H. inversion H; subst j. split; [reflexivity |].
    exists task. eexists. split; [exact Ej |].
    unfold move. cbn [target]. rewrite Ej. unfold advance. rewrite Ephase, Er, Ec.
    split; [reflexivity |]. cbn [request]. split; [reflexivity |].
    intros files' s' t' E. inversion E; subst.
    unfold mocked, remaining, rounds. cbn [request phase]. try rewrite Er. cbn. rewrite Nat.sub_0_r.
    split; [| reflexivity]. split; [reflexivity |].
    destruct files'; [right | left; cbn; lia]; reflexivity.
Qed.

Lemma tasks_grow (moves : list Move) :
  forall x, (List.length (tasks x) <= List.length (tasks (run x moves)))%nat.
Proof.
  induction moves as [| m moves IH]; intros x; [apply le_n |].
  cbn [run fold_left]. eapply Nat.le_trans; [| apply IH].
  destruct (move_cases x m) as [(r & now & -> & ->) | [(i & task & st & next & b & Ht & Hi & Ha & ->)
                                                      | (i0 & _ & _ & ->)]];
    cbn [tasks]; [rewrite length_app; cbn; lia | rewrite replaceNth_length; lia | lia].
Qed.

Lemma finished_when_no_round_remains (task : Task) (files : list File.t) (s t : string) :
  mocked task -> request task = ConvertFiles files s t -> remaining task = 0%nat ->
  exists o, phase task = Finished (Converted o) /\ mockOutcome files o.
Proof.
  unfold mocked, remaining. intros Hm Hr Hz. rewrite Hr in *.
  destruct (phase task) as [| | | t0 results | [o | f]]; try contradiction.
  - lia.
  - eauto.
Qed.

(** C1 as stated, for sessions in which calls may overlap, fails: when a
    second call starts before the first probe is answered, two probes are
    sent; and when the first probe then fails and the second succeeds, the
    flag ends up [true] and a later call is handed to the real client. *)
Lemma one_shot_breaker_fails :
  ~ (forall (b : Browser.t) (moves : list Move),
        (probes (run (fresh b) moves) <= 1)%nat) /\
  ~ (forall (b : Browser.t) (moves before after : list Move) (m : Move) (i : nat),
        moves = (before ++ m :: after)%list ->
        degrades (run (fresh b) before) m = Some i ->
        backendAvailable (run (fresh b) moves) = Some false /\
        forall j task,
          (List.length (tasks (run (fresh b) (before ++ [m]))) <= j)%nat ->
          nth_error (tasks (run (fresh b) moves)) j = Some task ->
          straightToMock task) /\
  (backendAvailable (run (fresh (Browser.fresh (fun _ => 0))) overlapping) = Some true /\
   map did (tasks (run (fresh (Browser.fresh (fun _ => 0))) overlapping))
   = [ [ProbeSent; ProbeAnswered false; MockCalled];
       [ProbeSent; ProbeAnswered true; BackendCalled];
       [BackendCalled] ]).
Proof.
  split; [| split; [| split; reflexivity]].
  - intros H. specialize (H (Browser.fresh (fun _ => 0)) overlapping).
    vm_compute in H. lia.
  - intros H.
    destruct (H (Browser.fresh (fun _ => 0)) overlapping
                [Calls sampleRequest 0; Calls sampleRequest 1]
                [HealthAnswers 1 (Response 200 (Some tt)) 3; Calls sampleRequest 4]
                (HealthAnswers 0 NetworkError 2) 0%nat eq_refl eq_refl) as [Hflag _].
    vm_compute in Hflag. discriminate Hflag.
Qed.

(** C1. In a session in which no call is started while a health probe is
    unanswered: at most one probe is sent, and the flag holds what the
    probe was answered ([true] exactly when [checkHealth] is fulfilled).
    When a move tells a call that its probe failed or that its real client
    threw, then from that move on the flag is [false]; every call started
    later goes straight to the mock (no probe, no real client: its history
    is [MockCalled], then [MockReturned]); and the call itself, when it is a
    conversion, is in the mock, and once the timers of the mock have fired
    for each of its files it has returned a mock result for those files. *)
Theorem degrade_and_remember (b : Browser.t) (moves : list Move) :
  orderly (fresh b) moves = true ->
  (probes (run (fresh b) moves) <= 1)%nat /\
  (forall before after i answer now task,
      moves = (before ++ HealthAnswers i answer now :: after)%list ->
      nth_error (tasks (run (fresh b) before)) i = Some task ->
      phase task = AwaitingHealth ->
      backendAvailable (run (fresh b) (before ++ [HealthAnswers i answer now]))
      = Some (match ConversionApi.checkHealth answer with
              | Fulfilled _ => true
              | Thrown _ => false
              end)) /\
  (forall before after m i,
      moves = (before ++ m :: after)%list ->
      degrades (run (fresh b) before) m = Some i ->
      backendAvailable (run (fresh b) moves) = Some false /\
      (forall j task,
          (List.length (tasks (run (fresh b) (before ++ [m]))) <= j)%nat ->
          nth_error (tasks (run (fresh b) moves)) j = Some task ->
          straightToMock task) /\
      (forall files s t task0,
          nth_error (tasks (run (fresh b) before)) i = Some task0 ->
          request task0 = ConvertFiles files s t ->
          exists task,
            nth_error (tasks (run (fresh b) moves)) i = Some task /\
            request task = ConvertFiles files s t /\
            mocked task /\
            ((rounds files <= timers i after)%nat ->
             exists o, phase task = Finished (Converted o) /\ mockOutcome files o))).
Proof.
  intros Ho. split; [| split].
  - apply calm_probes. apply calm_run; [apply calm_fresh | exact Ho].
  - intros before after i answer now task -> Hi Hp.
    rewrite run_app. cbn [run fold_left]. unfold move. cbn [target].
    fold (run (fresh b) before). rewrite Hi. unfold advance. rewrite Hp. reflexivity.
  - intros before after m i -> Hd.
    rewrite orderly_app in Ho. apply andb_true_iff in Ho. destruct Ho as [Hob Ho].
    cbn [orderly] in Ho. apply andb_true_iff in Ho. destruct Ho as [Hom _].
    pose proof (calm_run before (fresh b) (calm_fresh b) Hob) as Hc0.
    set (x0 := run (fresh b) before) in *.
    pose proof (calm_move x0 m Hc0 Hom) as Hc1.
    destruct (degrades_move x0 m i Hd) as (Ht & task & next & Hi & Hmove & Hreq & Hmock).
    assert (Hs1 : settledDown (move x0 m)).
    { unfold settledDown. unfold calm in Hc1. rewrite Hmove in Hc1 |- *.
      cbn [backendAvailable] in *. split; [reflexivity | exact (proj1 Hc1)]. }
    assert (E1 : run (fresh b) (before ++ [m]) = move x0 m) by (rewrite run_app; reflexivity).
    assert (E : run (fresh b) (before ++ m :: after) = run (move x0 m) after)
      by (rewrite run_app; reflexivity).
    rewrite E1, E.
    destruct (later_calls after (move x0 m) (List.length (tasks (move x0 m))) Hs1)
      as [[Hflag _] Hlater].
    { intros j task' Hj Hn. exfalso.
      assert (Hlt : (j < List.length (tasks (move x0 m)))%nat)
        by (apply nth_error_Some; rewrite Hn; discriminate).
      lia. }
    split; [exact Hflag |]. split; [exact Hlater |].
    intros files s t task0 Hi0 Hr0.
    rewrite Hi in Hi0. inversion Hi0; subst task0. clear Hi0.
    destruct (Hmock files s t Hr0) as [Hm Hrem].
    destruct (mock_runs_on after (move x0 m) i next) as (task' & H1 & H2 & H3 & H4).
    + rewrite Hmove. cbn [tasks]. rewrite nth_error_replaceNth, Nat.eqb_refl, Hi. reflexivity.
    + exact Hm.
    + exists task'. split; [exact H1 |]. split; [congruence |]. split; [exact H2 |].
      intros Hrounds. apply (finished_when_no_round_remains task' files s t H2); [congruence | lia].
Qed.

Lemma degrade_and_remember_witness :
  backendAvailable (run (fresh (Browser.fresh (fun _ => 1 # 2))) serial) = Some false /\
  (forall j task,
      (List.length (tasks (run (fresh (Browser.fresh (fun _ => 1 # 2)))
                               ([Calls sampleRequest 0] ++ [HealthAnswers 0 NetworkError 2])))
       <= j)%nat ->
      nth_error (tasks (run (fresh (Browser.fresh (fun _ => 1 # 2))) serial)) j = Some task ->
      straightToMock task) /\
  exists task,
    nth_error (tasks (run (fresh (Browser.fresh (fun _ => 1 # 2))) serial)) 0 = Some task /\
    exists o, phase task = Finished (Converted o) /\
              mockOutcome [File.mk "a.jpg" 10 "image/jpeg"] o.
Proof.
  pose proof (degrade_and_remember (Browser.fresh (fun _ => 1 # 2)) serial eq_refl) as H.
  destruct H as (_ & _ & H).
  pose proof (H [Calls sampleRequest 0]
                [Calls sampleRequest 3; TimersFire 0 4; TimersFire 1 5]
                (HealthAnswers 0 NetworkError 2) 0%nat eq_refl eq_refl) as H2.
  destruct H2 as (Hflag & Hlater & Hself).
  split; [exact Hflag |]. split; [exact Hlater |].
  pose proof (Hself [File.mk "a.jpg" 10 "image/jpeg"] "JPEG" "PNG" _ eq_refl eq_refl) as H3.
  destruct H3 as (task & Hn & _ & _ & Hdone).
  exists task. split; [exact Hn |]. apply Hdone. apply le_n.
Defined.

End Orchestrator.

Section SessionFiles.
Import AppContext UseConversion.

(** *** Removing by index *)

Lemma filterIndexFrom_past {A} (l : list A) :
  forall k i, (i < k)%nat -> filterIndexFrom k i l = l.
Proof.
  induction l as [| x rest IH]; intros k i H; [reflexivity |].
  cbn [filterIndexFrom]. destruct (Nat.eqb_spec k i) as [E | _]; [lia |].
  rewrite IH; [reflexivity | lia].
Qed.

Lemma filterIndexFrom_without {A} (l : list A) :
  forall k i, (k <= i)%nat -> filterIndexFrom k i l = without (i - k) l.
Proof.
  induction l as [| x rest IH]; intros k i H.
  - unfold without. rewrite firstn_nil, skipn_nil. reflexivity.
  - cbn [filterIndexFrom]. destruct (Nat.eqb_spec k i) as [-> | Hne].
    + rewrite Nat.sub_diag. unfold without. simpl.
      apply filterIndexFrom_past. lia.
    + rewrite IH by lia.
      replace (i - k)%nat with (S (i - S k)) by lia. reflexivity.
Qed.

Lemma filterIndex_without {A} (i : nat) (l : list A) : filterIndex i l = without i l.
Proof.
  unfold filterIndex. rewrite filterIndexFrom_without by lia.
  now rewrite Nat.sub_0_r.
Qed.

Lemma without_cons {A} (i : nat) (x : A) (l : list A) :
  without (S i) (x :: l) = x :: without i l.
Proof. reflexivity. Qed.

Lemma Forall2_without {A B} (P : A -> B -> Prop) (l : list A) (l' : list B) :
  Forall2 P l l' -> forall i, Forall2 P (without i l) (without i l').
Proof.
  induction 1 as [| x y l l' Hxy Hl IH]; intros i.
  - unfold without. rewrite !firstn_nil, !skipn_nil. constructor.
  - destruct i as [| i]; [exact Hl |].
    rewrite !without_cons. constructor; [exact Hxy | apply IH].
Qed.

Lemma live_without (ps : list (option nat)) :
  forall i u, In u (live (without i ps)) -> In u (live ps).
Proof.
  induction ps as [| p rest IH]; intros i u H.
  - unfold without in H. rewrite firstn_nil, skipn_nil in H. exact H.
  - destruct i as [| i].
    + change (without 0 (p :: rest)) with rest in H.
      destruct p; simpl; auto.
    + rewrite without_cons in H. destruct p as [v |]; simpl in *.
      * destruct H as [H | H]; [now left | right; eauto].
      * eauto.
Qed.

Lemma NoDup_live_without (ps : list (option nat)) :
  NoDup (live ps) -> forall i, NoDup (live (without i ps)).
Proof.
  induction ps as [| p rest IH]; intros Hnd i.
  - unfold without. rewrite firstn_nil, skipn_nil. constructor.
  - destruct i as [| i].
    + change (without 0 (p :: rest)) with rest.
      destruct p; simpl in Hnd; [now inversion Hnd | exact Hnd].
    + rewrite without_cons. destruct p as [v |]; simpl in *.
      * inversion Hnd as [| ? ? Hv Hrest]; subst. constructor.
        -- intros Hin. apply Hv. eapply live_without, Hin.
        -- now apply IH.
      * now apply IH.
Qed.

Lemma nth_error_live (ps : list (option nat)) (i u : nat) :
  nth_error ps i = Some (Some u) -> In u (live ps).
Proof.
  revert i. induction ps as [| p rest IH]; intros i Hi; [destruct i; discriminate Hi |].
  destruct i as [| i]; simpl in Hi.
  - inversion Hi; subst. now left.
  - destruct p; simpl; [right |]; eauto.
Qed.

(** The URL taken out is held by no remaining preview. *)
Lemma removed_not_live (ps : list (option nat)) :
  NoDup (live ps) ->
  forall i u, nth_error ps i = Some (Some u) -> ~ In u (live (without i ps)).
Proof.
  induction ps as [| p rest IH]; intros Hnd i u Hi.
  - destruct i; discriminate Hi.
  - destruct i as [| i].
    + simpl in Hi. inversion Hi; subst p.
      change (without 0 (Some u :: rest)) with rest.
      simpl in Hnd. now inversion Hnd.
    + simpl in Hi. rewrite without_cons. destruct p as [v |]; simpl in *.
      * inversion Hnd as [| ? ? Hv Hrest]; subst.
        intros [E | Hin].
        -- subst v. apply Hv. exact (nth_error_live _ _ _ Hi).
        -- exact (IH Hrest i u Hi Hin).
      * now apply IH.
Qed.

(** *** The browser stays well formed *)

Lemma wellFormed_fresh (random : nat -> Q) : Browser.wellFormed (Browser.fresh random).
Proof. constructor; simpl; try constructor; intros; contradiction. Qed.

Lemma wellFormed_create (blob : option File.t) (b : Browser.t) :
  Browser.wellFormed b -> Browser.wellFormed (snd (Browser.createObjectURL blob b)).
Proof.
  intros [Hi Hn Hr Hd]. constructor; simpl.
  - intros u bl [E | Hin]; [inversion E; lia |]. specialize (Hi _ _ Hin). lia.
  - constructor; [| exact Hn]. intros Hin. apply in_map_iff in Hin.
    destruct Hin as ([u bl] & E & Hin). simpl in E. subst u.
    specialize (Hi _ _ Hin). lia.
  - intros u Hu. specialize (Hr _ Hu). lia.
  - exact Hd.
Qed.

Lemma wellFormed_revoke (u : nat) (b : Browser.t) :
  Browser.wellFormed b -> (u < Browser.nextObjectUrl b)%nat ->
  ~ In u (Browser.revoked b) ->
  Browser.wellFormed (Browser.revokeObjectURL u b).
Proof.
  intros [Hi Hn Hr Hd] Hu Hnot. constructor; simpl; try assumption.
  - intros v [<- | Hv]; [exact Hu | now apply Hr].
  - now constructor.
Qed.

Lemma wellFormed_random (b : Browser.t) :
  Browser.wellFormed b -> Browser.wellFormed (snd (Browser.mathRandom b)).
Proof. intros [Hi Hn Hr Hd]. constructor; simpl; assumption. Qed.

(** *** Alignment *)

Lemma aligned_transfer (b b' : Browser.t) (f : File.t) (p : option nat) :
  incl (Browser.issued b) (Browser.issued b') ->
  (forall u, p = Some u -> ~ In u (Browser.revoked b')) ->
  aligned b f p -> aligned b' f p.
Proof.
  intros Hincl Hrev. destruct p as [u |]; simpl; [| trivial].
  intros (Ht & Hin & _). split; [exact Ht | split; [now apply Hincl | now apply Hrev]].
Qed.

Lemma Forall2_aligned_transfer (b b' : Browser.t) (fs : list File.t)
    (ps : list (option nat)) :
  incl (Browser.issued b) (Browser.issued b') ->
  (forall u, In u (live ps) -> ~ In u (Browser.revoked b')) ->
  Forall2 (aligned b) fs ps -> Forall2 (aligned b') fs ps.
Proof.
  intros Hincl Hrev H. induction H as [| f p fs ps Hfp _ IH]; constructor.
  - apply (aligned_transfer b b'); [exact Hincl | | exact Hfp].
    intros u ->. apply Hrev. now left.
  - apply IH. intros u Hu. apply Hrev. destruct p; simpl; auto.
Qed.

(** A URL held by an aligned preview list was issued and is not revoked. *)
Lemma live_issued (b : Browser.t) (fs : list File.t) (ps : list (option nat)) :
  Forall2 (aligned b) fs ps ->
  forall u, In u (live ps) ->
            (exists f, In (u, Some f) (Browser.issued b)) /\ ~ In u (Browser.revoked b).
Proof.
  induction 1 as [| f p fs ps Hfp _ IH]; intros u Hu; [contradiction |].
  destruct p as [v |]; simpl in Hu; [| now apply IH].
  destruct Hu as [<- | Hu]; [| now apply IH].
  destruct Hfp as (_ & Hin & Hnot). split; [now exists f | exact Hnot].
Qed.

(** *** The operations of the hook *)

Lemma generatePreviewUrls_spec (files : list File.t) :
  forall (b : Browser.t) us b',
    Browser.wellFormed b ->
    generatePreviewUrls files b = (us, b') ->
    Browser.wellFormed b' /\
    Browser.revoked b' = Browser.revoked b /\
    (Browser.nextObjectUrl b <= Browser.nextObjectUrl b')%nat /\
    incl (Browser.issued b) (Browser.issued b') /\
    (forall u, In u (live us) ->
               (Browser.nextObjectUrl b <= u < Browser.nextObjectUrl b')%nat) /\
    NoDup (live us) /\
    Forall2 (aligned b') files us.
Proof.
  induction files as [| file rest IH]; intros b us b' Hwf E.
  - inversion E; subst.
    split; [exact Hwf |]. split; [reflexivity |]. split; [lia |].
    split; [apply incl_refl |]. split; [intros u Hu; contradiction |].
    split; constructor.
  - cbn [generatePreviewUrls] in E.
    destruct (String.prefix "image/" (File.type file)) eqn:Ht.
    + cbn in E.
      destruct (generatePreviewUrls rest (snd (Browser.createObjectURL (Some file) b)))
        as [us1 b2] eqn:E1.
      cbn in E1. rewrite E1 in E. inversion E; subst; clear E.
      destruct (IH _ _ _ (wellFormed_create (Some file) b Hwf) E1)
        as (Hwf2 & Hrev & Hnext & Hincl & Hlive & Hnd & Hal).
      cbn in Hrev, Hnext, Hincl, Hlive.
      split; [exact Hwf2 |]. split; [exact Hrev |]. split; [lia |].
      split; [intros e He; apply Hincl; now right |].
      split; [| split].
      * intros u [<- | Hu]; [lia |]. specialize (Hlive u Hu). lia.
      * simpl. constructor; [| exact Hnd].
        intros Hin. specialize (Hlive _ Hin). lia.
      * constructor; [| exact Hal]. simpl.
        split; [exact Ht |]. split; [apply Hincl; now left |].
        rewrite Hrev. intros Hin.
        pose proof (Browser.revoked_below b Hwf _ Hin). lia.
    + destruct (generatePreviewUrls rest b) as [us1 b2] eqn:E1.
      inversion E; subst; clear E.
      destruct (IH _ _ _ Hwf E1) as (Hwf2 & Hrev & Hnext & Hincl & Hlive & Hnd & Hal).
      repeat (split; [assumption |]).
      constructor; [exact Ht | exact Hal].
Qed.

Lemma revokeAll_spec (ps : list (option nat)) :
  forall b : Browser.t,
    Browser.wellFormed b -> NoDup (live ps) ->
    (forall u, In u (live ps) ->
               (u < Browser.nextObjectUrl b)%nat /\ ~ In u (Browser.revoked b)) ->
    Browser.wellFormed (revokeAll ps b) /\
    (forall u, In u (Browser.revoked b) -> In u (Browser.revoked (revokeAll ps b))).
Proof.
  induction ps as [| p rest IH]; intros b Hwf Hnd Hfresh; [split; auto |].
  destruct p as [v |]; cbn [revokeAll fold_left live] in *; [| now apply IH].
  inversion Hnd as [| ? ? Hv Hrest]; subst.
  destruct (Hfresh v (or_introl eq_refl)) as [Hlt Hnot].
  destruct (IH (Browser.revokeObjectURL v b)) as [Hwf' Hmono].
  - now apply wellFormed_revoke.
  - exact Hrest.
  - intros u Hu. destruct (Hfresh u (or_intror Hu)) as [Hlt' Hnot'].
    split; [exact Hlt' |]. simpl. intros [E | Hin]; [subst; contradiction | contradiction].
  - split; [exact Hwf' |]. intros u Hu. apply Hmono. now right.
Qed.

Lemma direct_keeps_files (a : Action) (s : State) :
  direct a = true ->
  selectedFiles (appReducer s a) = selectedFiles s /\
  previewUrls (appReducer s a) = previewUrls s.
Proof.
  destruct a; intros H; try discriminate H; simpl; auto.
  destruct (notificationsEnabled s); simpl; auto.
Qed.

(** Bounds on the live URLs of a session that satisfies the invariant. *)
Lemma invariant_live (x : Session) :
  invariant x ->
  forall u, In u (live (previewUrls (state x))) ->
            (u < Browser.nextObjectUrl (browser x))%nat /\
            ~ In u (Browser.revoked (browser x)).
Proof.
  intros [Hal _ Hwf] u Hu.
  destruct (live_issued _ _ _ Hal u Hu) as [[f Hin] Hnot].
  split; [exact (Browser.issued_below _ Hwf _ _ Hin) | exact Hnot].
Qed.

Lemma invariant_start (prefersDark : bool) (random : nat -> Q) :
  invariant (start prefersDark random).
Proof.
  constructor; [constructor | constructor | apply wellFormed_fresh].
Qed.

Lemma invariant_removeFile (i : nat) (x : Session) :
  invariant x -> invariant (removeFile i x).
Proof.
  intros Hinv. pose proof Hinv as [Hal Hnd Hwf].
  unfold removeFile, dispatch. cbn [state browser appReducer withFiles selectedFiles previewUrls].
  rewrite !filterIndex_without.
  destruct (nth_error (previewUrls (state x)) i) as [[u |] |] eqn:Ei.
  - destruct (invariant_live x Hinv u (nth_error_live _ _ _ Ei)) as [Hlt Hnot].
    constructor; cbn.
    + apply (Forall2_aligned_transfer (browser x));
        [apply incl_refl | | now apply Forall2_without].
      intros v Hv. cbn. intros [E | Hin].
      * subst v. exact (removed_not_live _ Hnd _ _ Ei Hv).
      * destruct (invariant_live x Hinv v (live_without _ _ _ Hv)) as [_ Hn].
        contradiction.
    + now apply NoDup_live_without.
    + now apply wellFormed_revoke.
  - constructor; cbn; [now apply Forall2_without | now apply NoDup_live_without | exact Hwf].
  - constructor; cbn; [now apply Forall2_without | now apply NoDup_live_without | exact Hwf].
Qed.

Lemma live_app (ps qs : list (option nat)) : live (ps ++ qs) = (live ps ++ live qs)%list.
Proof.
  induction ps as [| [u |] rest IH]; simpl; [reflexivity | now rewrite IH | exact IH].
Qed.

Lemma invariant_addFiles (fs : list File.t) (x : Session) :
  invariant x -> invariant (addFiles fs x).
Proof.
  intros Hinv. pose proof Hinv as [Hal Hnd Hwf]. unfold addFiles.
  destruct (generatePreviewUrls fs (browser x)) as [us b] eqn:E.
  destruct (generatePreviewUrls_spec _ _ _ _ Hwf E)
    as (Hwf' & Hrev & Hnext & Hincl & Hlive & Hnd' & Hal').
  constructor; cbn.
  - apply Forall2_app; [| exact Hal'].
    apply (Forall2_aligned_transfer (browser x)); [exact Hincl | | exact Hal].
    intros u Hu. rewrite Hrev. exact (proj2 (invariant_live x Hinv u Hu)).
  - rewrite live_app. apply NoDup_app; [exact Hnd | exact Hnd' |].
    intros u Hu Hu'. pose proof (proj1 (invariant_live x Hinv u Hu)).
    specialize (Hlive u Hu'). lia.
  - exact Hwf'.
Qed.

Lemma invariant_setFiles (fs : list File.t) (x : Session) :
  invariant x -> invariant (setFiles fs x).
Proof.
  intros [Hal Hnd Hwf]. unfold setFiles.
  destruct (generatePreviewUrls fs (browser x)) as [us b] eqn:E.
  destruct (generatePreviewUrls_spec _ _ _ _ Hwf E)
    as (Hwf' & _ & _ & _ & _ & Hnd' & Hal').
  constructor; cbn; assumption.
Qed.

(** [clearFiles] and the two resets: every preview is revoked and both
    lists are emptied. *)
Lemma invariant_discard (a : Action) (x : Session) :
  a = CLEAR_FILES \/ a = RESET_CONVERSION \/ a = RESET_CONVERSION_KEEP_CATEGORY ->
  invariant x ->
  invariant (dispatch a (mkSession (state x)
                                   (revokeAll (previewUrls (state x)) (browser x)))).
Proof.
  intros Ha Hinv. pose proof Hinv as [Hal Hnd Hwf].
  destruct (revokeAll_spec _ _ Hwf Hnd (invariant_live x Hinv)) as [Hwf' _].
  destruct Ha as [-> | [-> | ->]];
    (constructor; cbn; [constructor | constructor | exact Hwf']).
Qed.

Lemma invariant_dispatch (a : Action) (x : Session) :
  direct a = true -> invariant x -> invariant (dispatch a x).
Proof.
  intros Hd [Hal Hnd Hwf]. destruct (direct_keeps_files a (state x) Hd) as [Ef Ep].
  constructor; cbn; rewrite ?Ef, ?Ep; assumption.
Qed.

Lemma invariant_mint (x : Session) :
  invariant x ->
  invariant (mkSession (state x) (snd (Browser.createObjectURL None (browser x)))).
Proof.
  intros Hinv. pose proof Hinv as [Hal Hnd Hwf]. constructor; cbn [state browser].
  - apply (Forall2_aligned_transfer (browser x)); [| | exact Hal].
    + intros e He. now right.
    + intros u Hu. exact (proj2 (invariant_live x Hinv u Hu)).
  - exact Hnd.
  - now apply wellFormed_create.
Qed.

Lemma invariant_exportHistory (x : Session) : invariant x -> invariant (exportHistory x).
Proof.
  intros Hinv. pose proof Hinv as [Hal Hnd Hwf]. unfold exportHistory.
  cbn [Browser.createObjectURL].
  constructor; cbn [state browser].
  - apply (Forall2_aligned_transfer (browser x)); [| | exact Hal].
    + intros e He. now right.
    + intros u Hu. cbn. intros [E | Hin].
      * pose proof (proj1 (invariant_live x Hinv u Hu)). lia.
      * exact (proj2 (invariant_live x Hinv u Hu) Hin).
  - exact Hnd.
  - apply wellFormed_revoke.
    + exact (wellFormed_create None (browser x) Hwf).
    + cbn. lia.
    + cbn. intros Hin. pose proof (Browser.revoked_below _ Hwf _ Hin). lia.
Qed.

Lemma invariant_random (x : Session) :
  invariant x ->
  invariant (mkSession (state x) (snd (Browser.mathRandom (browser x)))).
Proof.
  intros [Hal Hnd Hwf]. constructor; cbn [state browser].
  - apply (Forall2_aligned_transfer (browser x)); [apply incl_refl | | exact Hal].
    intros u Hu Hin.
    destruct (live_issued _ _ _ Hal u Hu) as [_ Hnot]. contradiction.
  - exact Hnd.
  - now apply wellFormed_random.
Qed.

Lemma step_invariant (x y : Session) : step x y -> invariant x -> invariant y.
Proof.
  intros Hs Hinv. destruct Hs.
  - now apply invariant_addFiles.
  - now apply invariant_setFiles.
  - now apply invariant_removeFile.
  - apply invariant_discard; auto.
  - apply invariant_discard; auto.
  - apply invariant_discard; auto.
  - now apply invariant_dispatch.
  - now apply invariant_exportHistory.
  - now apply invariant_mint.
  - now apply invariant_random.
Qed.

Lemma steps_invariant (x y : Session) : steps x y -> invariant x -> invariant y.
Proof.
  induction 1 as [| x y z _ IH Hs]; intros Hinv; [exact Hinv |].
  exact (step_invariant _ _ Hs (IH Hinv)).
Qed.

Lemma reachable_invariant (x : Session) : reachable x -> invariant x.
Proof.
  intros (prefersDark & random & Hs).
  exact (steps_invariant _ _ Hs (invariant_start prefersDark random)).
Qed.

Lemma steps_reachable (x y : Session) : reachable x -> steps x y -> reachable y.
Proof.
  intros (prefersDark & random & Hx) Hxy. exists prefersDark, random.
  induction Hxy as [| x y z _ IH Hs]; [exact Hx |].
  exact (steps_more _ _ _ (IH Hx) Hs).
Qed.

(** *** Nothing is ever taken back from the revocation log *)

Lemma generatePreviewUrls_revoked (files : list File.t) :
  forall b : Browser.t,
    Browser.revoked (snd (generatePreviewUrls files b)) = Browser.revoked b.
Proof.
  induction files as [| file rest IH]; intros b; [reflexivity |].
  cbn [generatePreviewUrls].
  destruct (String.prefix "image/" (File.type file)).
  - cbn. specialize (IH (snd (Browser.createObjectURL (Some file) b))). cbn in IH.
    destruct (generatePreviewUrls rest _) as [us b2]. exact IH.
  - specialize (IH b). destruct (generatePreviewUrls rest b) as [us b2]. exact IH.
Qed.

Lemma revokeAll_keeps (ps : list (option nat)) :
  forall (b : Browser.t) (u : nat),
    In u (Browser.revoked b) -> In u (Browser.revoked (revokeAll ps b)).
Proof.
  induction ps as [| [v |] rest IH]; intros b u Hu; cbn [revokeAll fold_left];
    [exact Hu | | now apply IH].
  apply (IH (Browser.revokeObjectURL v b)). now right.
Qed.

Lemma step_keeps_revoked (x y : Session) (u : nat) :
  step x y -> In u (Browser.revoked (browser x)) -> In u (Browser.revoked (browser y)).
Proof.
  intros Hs Hu. destruct Hs; cbn.
  - unfold addFiles. pose proof (generatePreviewUrls_revoked fs (browser x)) as E.
    destruct (generatePreviewUrls fs (browser x)) as [us b]. cbn in *. now rewrite E.
  - unfold setFiles. pose proof (generatePreviewUrls_revoked fs (browser x)) as E.
    destruct (generatePreviewUrls fs (browser x)) as [us b]. cbn in *. now rewrite E.
  - destruct (nth_error (previewUrls (state x)) i) as [[v |] |]; cbn; auto.
  - now apply revokeAll_keeps.
  - now apply revokeAll_keeps.
  - now apply revokeAll_keeps.
  - exact Hu.
  - now right.
  - exact Hu.
  - exact Hu.
Qed.

Lemma steps_keep_revoked (x y : Session) (u : nat) :
  steps x y -> In u (Browser.revoked (browser x)) -> In u (Browser.revoked (browser y)).
Proof.
  induction 1 as [| x y z _ IH Hs]; intros Hu; [exact Hu |].
  exact (step_keeps_revoked _ _ _ Hs (IH Hu)).
Qed.

Lemma nth_error_without {A} (l : list A) :
  forall i k, nth_error (without i l) k = nth_error l (if (k <? i)%nat then k else S k).
Proof.
  induction l as [| x rest IH]; intros i k.
  - unfold without. rewrite firstn_nil, skipn_nil.
    destruct (k <? i)%nat; destruct k; reflexivity.
  - destruct i as [| i]; [reflexivity |].
    rewrite without_cons. destruct k as [| k]; [reflexivity |].
    cbn [nth_error]. rewrite IH.
    change (S k <? S i)%nat with (k <? i)%nat.
    destruct (k <? i)%nat; reflexivity.
Qed.

(** C8. In every reachable session the file list and the preview list
    have the same length and are aligned index by index.  [removeFile] at
    index [i] takes the [i]-th element, and nothing else, out of both lists
    at once; when the discarded preview is a URL it is revoked by this very
    call, it had not been revoked before, and however the session goes on
    it is in the revocation log exactly once; when there is no URL at [i]
    nothing is revoked. *)
Theorem files_and_previews_stay_aligned (x : Session) :
  reachable x ->
  List.length (selectedFiles (state x)) = List.length (previewUrls (state x)) /\
  Forall2 (aligned (browser x)) (selectedFiles (state x)) (previewUrls (state x)) /\
  forall i : nat,
    let y := removeFile i x in
    selectedFiles (state y) = without i (selectedFiles (state x)) /\
    previewUrls (state y) = without i (previewUrls (state x)) /\
    (forall k, nth_error (selectedFiles (state y)) k =
               nth_error (selectedFiles (state x)) (if (k <? i)%nat then k else S k)) /\
    (forall k, nth_error (previewUrls (state y)) k =
               nth_error (previewUrls (state x)) (if (k <? i)%nat then k else S k)) /\
    Forall2 (aligned (browser y)) (selectedFiles (state y)) (previewUrls (state y)) /\
    (forall u, nth_error (previewUrls (state x)) i = Some (Some u) ->
               Browser.revoked (browser y) = u :: Browser.revoked (browser x) /\
               ~ In u (Browser.revoked (browser x)) /\
               forall z, steps y z ->
                         count_occ Nat.eq_dec (Browser.revoked (browser z)) u = 1%nat) /\
    ((forall u, nth_error (previewUrls (state x)) i <> Some (Some u)) ->
     Browser.revoked (browser y) = Browser.revoked (browser x)).
Proof.
  intros Hreach. pose proof (reachable_invariant x Hreach) as Hinv.
  pose proof Hinv as [Hal Hnd Hwf].
  split; [exact (Forall2_length Hal) |]. split; [exact Hal |].
  intros i y.
  assert (Hry : reachable y).
  { apply (steps_reachable x); [exact Hreach |].
    exact (steps_more _ _ _ (steps_refl x) (step_removeFile i x)). }
  assert (Hf : selectedFiles (state y) = without i (selectedFiles (state x)))
    by (subst y; cbn; apply filterIndex_without).
  assert (Hp : previewUrls (state y) = without i (previewUrls (state x)))
    by (subst y; cbn; apply filterIndex_without).
  split; [exact Hf |]. split; [exact Hp |].
  split; [intros k; rewrite Hf; apply nth_error_without |].
  split; [intros k; rewrite Hp; apply nth_error_without |].
  split; [exact (inv_aligned y (reachable_invariant y Hry)) |].
  split.
  - intros u Hu.
    assert (Hr : Browser.revoked (browser y) = u :: Browser.revoked (browser x))
      by (subst y; unfold removeFile; rewrite Hu; reflexivity).
    split; [exact Hr |].
    split; [exact (proj2 (invariant_live x Hinv u (nth_error_live _ _ _ Hu))) |].
    intros z Hz.
    pose proof (reachable_invariant z (steps_reachable y z Hry Hz)) as [_ _ Hwfz].
    apply (proj1 (NoDup_count_occ' Nat.eq_dec _) (Browser.revoked_once _ Hwfz)).
    apply (steps_keep_revoked y z u Hz). rewrite Hr. now left.
  - intros Hnone. subst y. unfold removeFile.
    destruct (nth_error (previewUrls (state x)) i) as [[u |] |] eqn:E;
      [exfalso; exact (Hnone u eq_refl) | reflexivity | reflexivity].
Qed.

Lemma files_and_previews_stay_aligned_witness :
  selectedFiles (state (removeFile 1 sampleSession))
    = [File.mk "a.jpg" 10 "image/jpeg"; File.mk "c.pdf" 30 "application/pdf"] /\
  previewUrls (state (removeFile 1 sampleSession)) = [Some 0%nat; None] /\
  Browser.revoked (browser (removeFile 1 sampleSession)) = [1%nat] /\
  count_occ Nat.eq_dec
            (Browser.revoked (browser (clearFiles (removeFile 1 sampleSession)))) 1%nat
  = 1%nat.
Proof.
  assert (R : reachable sampleSession).
  { exists false, (fun _ => 0).
    exact (steps_more _ _ _ (steps_refl _) (step_addFiles sampleFiles _)). }
  destruct (files_and_previews_stay_aligned sampleSession R) as (_ & _ & H).
  destruct (H 1%nat) as (Hf & Hp & _ & _ & _ & Hu & _).
  destruct (Hu 1%nat eq_refl) as (Hr & _ & Hz).
  split; [exact Hf |]. split; [exact Hp |]. split; [exact Hr |].
  exact (Hz _ (steps_more _ _ _ (steps_refl _) (step_clearFiles _))).
Defined.

End SessionFiles.

Section Catalog.
Import JsString Conversions ConversionCatalog.

Lemma distinct_NoDup (l : list string) : distinct l = true -> NoDup l.
Proof.
  induction l as [| x rest IH]; simpl; intros H; constructor;
    apply andb_true_iff in H; destruct H as [Hx Hr].
  - intros Hin. apply includes_In in Hin. rewrite Hin in Hx. discriminate Hx.
  - now apply IH.
Qed.

Lemma ownProperty_In {A} (obj : list (string * A)) (k : string) (v : A) :
  ownProperty obj k = Some v -> In (k, v) obj.
Proof.
  induction obj as [| [k' v'] rest IH]; simpl; intros H; [discriminate H |].
  destruct (String.eqb_spec k k') as [-> | _].
  - inversion H; subst. now left.
  - right. now apply IH.
Qed.

Lemma In_ownProperty {A} (obj : list (string * A)) (k : string) (v : A) :
  NoDup (map fst obj) -> In (k, v) obj -> ownProperty obj k = Some v.
Proof.
  induction obj as [| [k' v'] rest IH]; simpl; intros Hnd Hin; [contradiction |].
  inversion Hnd as [| ? ? Hk Hrest]; subst.
  destruct Hin as [E | Hin].
  - inversion E; subst. now rewrite String.eqb_refl.
  - destruct (String.eqb_spec k k') as [-> | _]; [| now apply IH].
    exfalso. apply Hk. change k' with (fst (k', v)). now apply in_map.
Qed.

(** The compatibility table is well formed: its keys are pairwise distinct
    (no entry of the object literal shadows another), every key is a format
    that some category declares, no format is listed as a target of itself,
    and no target list names a format twice. *)
Theorem supportedConversions_well_formed :
  NoDup (map fst supportedConversions) /\
  (forall source targets, In (source, targets) supportedConversions ->
      validFormat source = true /\ ~ In source targets /\ NoDup targets).
Proof.
  split.
  - apply distinct_NoDup. vm_compute. reflexivity.
  - intros source targets Hin.
    assert (Hall : forallb (fun entry => validFormat (fst entry)
                                          && negb (includes (snd entry) (fst entry))
                                          && distinct (snd entry))
                           supportedConversions = true) by (vm_compute; reflexivity).
    rewrite forallb_forall in Hall. specialize (Hall _ Hin). simpl in Hall.
    apply andb_true_iff in Hall. destruct Hall as [Hall Hd].
    apply andb_true_iff in Hall. destruct Hall as [Hv Hs].
    split; [exact Hv |]. split; [| now apply distinct_NoDup].
    intros Hself. apply includes_In in Hself. rewrite Hself in Hs. discriminate Hs.
Qed.

Lemma supportedConversions_well_formed_witness :
  validFormat "RAR" = true /\ ~ In "RAR" ["ZIP"; "7Z"; "TAR"; "GZ"] /\
  NoDup ["ZIP"; "7Z"; "TAR"; "GZ"].
Proof.
  apply (proj2 supportedConversions_well_formed "RAR" ["ZIP"; "7Z"; "TAR"; "GZ"]).
  in_list.
Defined.

End Catalog.

Section CatalogListings.
Import JsString Conversions ConversionCatalog.

Lemma conversionCategories_keys : NoDup (map fst conversionCategories).
Proof. apply distinct_NoDup. vm_compute. reflexivity. Qed.

Lemma declaredIn_ownProperty (categoryKey : string) (cat : Category) (f : string) :
  ownProperty conversionCategories categoryKey = Some cat ->
  (declaredIn categoryKey f <-> In f (formats cat)).
Proof.
  intros E. split.
  - intros (cat' & Hin & Hf).
    rewrite (In_ownProperty _ _ _ conversionCategories_keys Hin) in E.
    inversion E; subst. exact Hf.
  - intros Hf. exists cat. split; [now apply ownProperty_In | exact Hf].
Qed.

Lemma converts_own (source target : string) (targets : list string) :
  ownProperty supportedConversions source = Some targets ->
  (converts source target <-> In target targets).
Proof.
  intros E. split.
  - intros (ts & E' & Hin). rewrite E in E'. inversion E'; subst. exact Hin.
  - intros Hin. now exists targets.
Qed.

(** What the loop over the member formats gathers. *)
Lemma collect_In (categoryKey : string) (members : list string) :
  forall l, collect categoryKey members = Some l ->
  forall c, In c l <->
            In (from c) members /\ converts (from c) (to c) /\
            category c = Some categoryKey.
Proof.
  induction members as [| f rest IH]; intros l E c.
  - inversion E; subst. simpl. tauto.
  - cbn [collect] in E. unfold getProperty in E.
    destruct (ownProperty supportedConversions f) as [targets |] eqn:Ef.
    + destruct (collect categoryKey rest) as [later |]; [| discriminate E].
      inversion E; subst; clear E. specialize (IH later eq_refl c).
      rewrite in_app_iff, in_map_iff, IH. cbn [In]. split.
      * intros [(t & <- & Ht) | (Hr & Hc & Hk)]; cbn.
        -- split; [now left |]. split; [now apply (converts_own f t targets) | reflexivity].
        -- tauto.
      * intros ([Hf | Hr] & Hc & Hk); [left | tauto].
        exists (to c). split; [destruct c; cbn in *; now subst |].
        rewrite <- Hf in Hc. now apply (converts_own f (to c) targets).
    + destruct (includes objectPrototypeKeys f); [discriminate E |].
      rewrite (IH l E c). cbn [In]. split; [tauto |].
      intros ([Hf | Hr] & Hc & Hk); [| tauto].
      destruct Hc as (ts & E' & _). rewrite <- Hf, Ef in E'. discriminate E'.
Qed.

Lemma getConversionsByCategory_In (categoryKey : string) (l : list Conversion) :
  getConversionsByCategory categoryKey = Some l ->
  forall c, In c l <->
            declaredIn categoryKey (from c) /\ converts (from c) (to c) /\
            category c = Some categoryKey.
Proof.
  intros E c. unfold getConversionsByCategory in E.
  destruct (ownProperty conversionCategories categoryKey) as [cat |] eqn:Ek.
  - rewrite (collect_In _ _ _ E c), (declaredIn_ownProperty _ _ (from c) Ek). tauto.
  - destruct (includes objectPrototypeKeys categoryKey); [discriminate E |].
    inversion E; subst. cbn. split; [contradiction |].
    intros ((cat & Hin & _) & _).
    rewrite (In_ownProperty _ _ _ conversionCategories_keys Hin) in Ek. discriminate Ek.
Qed.

Lemma getConversionsByCategory_None (categoryKey : string) :
  getConversionsByCategory categoryKey = None <-> In categoryKey objectPrototypeKeys.
Proof.
  unfold getConversionsByCategory.
  destruct (ownProperty conversionCategories categoryKey) as [cat |] eqn:Ek.
  - apply ownProperty_In in Ek. simpl in Ek.
    repeat (destruct Ek as [Ek | Ek];
            [inversion Ek; subst; split;
             [vm_compute; discriminate | cbn; intuition discriminate] |]).
    contradiction.
  - destruct (includes objectPrototypeKeys categoryKey) eqn:E.
    + split; [intros _ | reflexivity]. now apply includes_In.
    + split; [discriminate |]. intros Hin. apply includes_In in Hin.
      rewrite Hin in E. discriminate E.
Qed.

(** [getConversionsByCategory] throws exactly on the names a plain object
    inherits; otherwise it lists exactly the pairs (member format of the
    category, target of that format), each tagged with the category, and it
    lists nothing for a name that is not a category. *)
Theorem getConversionsByCategory_exact (categoryKey : string) :
  (getConversionsByCategory categoryKey = None <-> In categoryKey objectPrototypeKeys) /\
  (forall l, getConversionsByCategory categoryKey = Some l ->
     forall c, In c l <->
               declaredIn categoryKey (from c) /\ converts (from c) (to c) /\
               category c = Some categoryKey) /\
  (~ In categoryKey (map fst conversionCategories) ->
   ~ In categoryKey objectPrototypeKeys ->
   getConversionsByCategory categoryKey = Some []).
Proof.
  split; [apply getConversionsByCategory_None | split].
  - apply getConversionsByCategory_In.
  - intros Hk Hp. unfold getConversionsByCategory.
    rewrite (ownProperty_None _ _ Hk).
    destruct (includes objectPrototypeKeys categoryKey) eqn:E; [| reflexivity].
    apply includes_In in E. contradiction.
Qed.

Lemma getConversionsByCategory_exact_witness :
  In (mkConversion "RAR" "ZIP" (Some "archives"))
     [mkConversion "ZIP" "7Z" (Some "archives"); mkConversion "ZIP" "TAR" (Some "archives");
      mkConversion "ZIP" "GZ" (Some "archives"); mkConversion "RAR" "ZIP" (Some "archives");
      mkConversion "RAR" "7Z" (Some "archives"); mkConversion "RAR" "TAR" (Some "archives");
      mkConversion "RAR" "GZ" (Some "archives"); mkConversion "7Z" "ZIP" (Some "archives");
      mkConversion "7Z" "TAR" (Some "archives"); mkConversion "7Z" "GZ" (Some "archives");
      mkConversion "TAR" "ZIP" (Some "archives"); mkConversion "TAR" "7Z" (Some "archives");
      mkConversion "TAR" "GZ" (Some "archives"); mkConversion "GZ" "ZIP" (Some "archives");
      mkConversion "GZ" "7Z" (Some "archives"); mkConversion "GZ" "TAR" (Some "archives")] /\
  getConversionsByCategory "all" = Some [].
Proof.
  split.
  - apply (proj1 (proj2 (getConversionsByCategory_exact "archives")) _ eq_refl
                 (mkConversion "RAR" "ZIP" (Some "archives"))).
    split; [apply declaredIn_declarations; in_list |].
    split; [| reflexivity].
    exists ["ZIP"; "7Z"; "TAR"; "GZ"]. split; [reflexivity | in_list].
  - apply (proj2 (proj2 (getConversionsByCategory_exact "all"))).
    + cbn. intuition discriminate.
    + cbn. intuition discriminate.
Defined.

Lemma scanCategories_key (cats : list (string * Category)) (upper : string) :
  scanCategories cats upper = "other" \/ In (scanCategories cats upper) (map fst cats).
Proof.
  induction cats as [| [k c] rest IH]; simpl; [now left |].
  destruct (includes (formats c) upper); [right; now left |].
  destruct IH as [E | Hin]; [now left | right; now right].
Qed.

Lemma ownProperty_defined {A} (obj : list (string * A)) (k : string) :
  In k (map fst obj) -> exists v, ownProperty obj k = Some v.
Proof.
  induction obj as [| [k' v'] rest IH]; simpl; intros Hin; [contradiction |].
  destruct (String.eqb_spec k k') as [_ | Hne]; [now exists v' |].
  destruct Hin as [E | Hin]; [now subst | now apply IH].
Qed.

(** [getFormatIcon] never reads a field of [undefined]: whatever the
    format, the category name that [getCategoryByFormat] returns is a key of
    the category table. *)
Theorem getFormatIcon_defined {Icon : Type} (icon : Category -> Icon) (format : string) :
  exists c, ownProperty conversionCategories (getCategoryByFormat format) = Some c /\
            getFormatIcon icon format = Some (icon c).
Proof.
  assert (Hkey : In (getCategoryByFormat format) (map fst conversionCategories)).
  { destruct (scanCategories_key conversionCategories (toUpperCase format)) as [E | Hin];
      [| exact Hin].
    unfold getCategoryByFormat. rewrite E. in_list. }
  destruct (ownProperty_defined _ _ Hkey) as [c Hc].
  exists c. split; [exact Hc |]. unfold getFormatIcon. now rewrite Hc.
Qed.

(** [getConversionDescription] never throws: the unguarded
    [targetFormat.toUpperCase()] is reached only when the target is present.
    The text announces a ZIP package exactly for the multi-page
    conversions, for which it is one of two fixed sentences. *)
Theorem getConversionDescription_defined (sourceFormat targetFormat : option string) :
  exists d, getConversionDescription sourceFormat targetFormat = Some d /\
    (isMultiPageConversion sourceFormat targetFormat = true ->
       d = "Convert PDF pages to JPEG images (packaged in ZIP file)" \/
       d = "Convert PDF pages to PNG images (packaged in ZIP file)") /\
    (isMultiPageConversion sourceFormat targetFormat = false ->
       d = "Convert " ++ ConversionApi.interpolate (option_map toUpperCase sourceFormat)
             ++ " to " ++ ConversionApi.interpolate (option_map toUpperCase targetFormat)).
Proof.
  unfold getConversionDescription.
  destruct (isMultiPageConversion sourceFormat targetFormat) eqn:E.
  - unfold isMultiPageConversion in E. apply andb_true_iff in E. destruct E as [_ Et].
    destruct targetFormat as [t |]; [| discriminate Et].
    cbn in Et. eexists. split; [reflexivity |]. split; [intros _ | discriminate].
    rewrite !orb_true_iff, !String.eqb_eq in Et.
    destruct Et as [-> | [-> | F]]; [now left | now right | discriminate F].
  - eexists. split; [reflexivity |]. split; [discriminate | reflexivity].
Qed.

Lemma getConversionDescription_defined_witness :
  getConversionDescription (Some "pdf") (Some "png")
  = Some "Convert PDF pages to PNG images (packaged in ZIP file)".
Proof.
  destruct (getConversionDescription_defined (Some "pdf") (Some "png")) as (d & E & Hm & _).
  rewrite E. f_equal.
  destruct (Hm eq_refl) as [Hd | Hd]; [| exact Hd].
  subst d. cbn in E. discriminate E.
Defined.

Lemma findCategoryKey_found (sourceFormat c : string) :
  findCategoryKey sourceFormat = Some c -> getCategoryByFormat sourceFormat = c.
Proof.
  unfold findCategoryKey. cbn.
  by_literals sourceFormat; intros H; inversion H; reflexivity.
Qed.

(** The category search of the format overview agrees with
    [getCategoryByFormat]: what it finds is what the other returns, and on a
    normalised format for which it finds nothing the other returns 'other'. *)
Theorem findCategoryKey_agrees (sourceFormat : string) :
  (forall c, findCategoryKey sourceFormat = Some c -> getCategoryByFormat sourceFormat = c) /\
  (toUpperCase sourceFormat = sourceFormat ->
   findCategoryKey sourceFormat = None -> getCategoryByFormat sourceFormat = "other").
Proof.
  split.
  - intros c. apply findCategoryKey_found.
  - intros Hup. unfold getCategoryByFormat. rewrite Hup.
    unfold findCategoryKey. cbn.
    by_literals sourceFormat; intros H; try discriminate H; reflexivity.
Qed.

Lemma findCategoryKey_agrees_witness :
  getCategoryByFormat "GIF" = "images" /\ getCategoryByFormat "DWG" = "other".
Proof.
  split.
  - apply (proj1 (findCategoryKey_agrees "GIF") "images"). reflexivity.
  - apply (proj2 (findCategoryKey_agrees "DWG")); reflexivity.
Defined.

(** Every entry of the full listing of the format overview carries a
    category (the search never comes back empty for a source of the table),
    that category is the one [getCategoryByFormat] names, and the entry is
    also listed by [getConversionsByCategory] for that category. *)
Theorem getAllConversions_listed (c : Conversion) :
  In c getAllConversions ->
  converts (from c) (to c) /\
  category c = Some (getCategoryByFormat (from c)) /\
  exists l, getConversionsByCategory (getCategoryByFormat (from c)) = Some l /\ In c l.
Proof.
  unfold getAllConversions. rewrite in_flat_map.
  intros ([source targets] & Hentry & Hc). cbn [fst snd] in Hc.
  apply in_map_iff in Hc. destruct Hc as (target & <- & Ht). cbn [from to category].
  assert (Hown : ownProperty supportedConversions source = Some targets).
  { apply In_ownProperty; [| exact Hentry]. apply distinct_NoDup. vm_compute. reflexivity. }
  assert (Hconv : converts source target) by now exists targets.
  assert (Hall : forallb (fun entry => match findCategoryKey (fst entry) with
                                       | Some _ => true
                                       | None => false
                                       end) supportedConversions = true)
    by (vm_compute; reflexivity).
  rewrite forallb_forall in Hall. specialize (Hall _ Hentry). cbn [fst] in Hall.
  destruct (findCategoryKey source) as [k |] eqn:Ek; [| discriminate Hall].
  pose proof (findCategoryKey_found _ _ Ek) as Hk. rewrite Hk.
  split; [exact Hconv |]. split; [reflexivity |].
  destruct (getConversionsByCategory k) as [l |] eqn:El.
  - exists l. split; [reflexivity |].
    apply (getConversionsByCategory_In _ _ El). cbn [from to category].
    split; [| split; [exact Hconv | reflexivity]].
    unfold findCategoryKey in Ek.
    destruct (find (fun kc => includes (formats (snd kc)) source) conversionCategories)
      as [[k' cat] |] eqn:Ef; [| discriminate Ek].
    cbn in Ek. inversion Ek; subst k'.
    apply find_some in Ef. destruct Ef as [Hin Hinc]. cbn in Hinc.
    exists cat. split; [exact Hin | now apply includes_In].
  - exfalso. unfold findCategoryKey in Ek.
    destruct (find (fun kc => includes (formats (snd kc)) source) conversionCategories)
      as [[k' cat] |] eqn:Ef; [| discriminate Ek].
    cbn in Ek. inversion Ek; subst k'.
    apply find_some in Ef. destruct Ef as [Hin _].
    apply (in_map fst) in Hin. simpl in Hin.
    repeat (destruct Hin as [<- | Hin]; [vm_compute in El; discriminate El |]).
    contradiction.
Qed.

Lemma getAllConversions_listed_witness :
  category (mkConversion "GIF" "MP4" (Some "images")) = Some (getCategoryByFormat "GIF").
Proof.
  apply (getAllConversions_listed (mkConversion "GIF" "MP4" (Some "images"))).
  vm_compute. do 26 right. left. reflexivity.
Defined.

End CatalogListings.

Section RemoteClient.
Import ConversionApi SingleFileApi.

Lemma orElse_nonempty (x : option string) (fallback : string) :
  fallback <> EmptyString -> orElse x fallback <> EmptyString.
Proof.
  intros Hf. destruct x as [[| c s] |]; simpl; try exact Hf. discriminate.
Qed.

(** Every error thrown by the five request functions is normalised: it
    has a non-empty message and no conversion record, and it carries a
    status code only when the service answered with that code outside 2xx.
    For the status request, status 404 goes with the message 'Conversion
    job not found' and with no other. *)
Theorem request_errors_normalised :
  (forall r e, checkHealth r = Thrown e -> normalised r e) /\
  (forall r e, getSupportedFormats r = Thrown e -> normalised r e) /\
  (forall r e, startConversion r = Thrown e -> normalised r e) /\
  (forall r e, getConversionStatus r = Thrown e ->
     normalised r e /\
     (message e = "Conversion job not found" <-> status e = Some 404%nat)) /\
  (forall file r e, convertSingleFile file r = Thrown e -> normalised r e).
Proof.
  unfold normalised.
  split; [| split; [| split; [| split]]].
  - intros [| st [b |]] e H; cbn in H; try destruct (ok st) eqn:Eok;
      inversion H; subst; cbn; (split; [discriminate |]); (split; [reflexivity |]);
      intros st' E; inversion E; subst; eauto.
  - intros [| st [b |]] e H; cbn in H; try destruct (ok st) eqn:Eok;
      inversion H; subst; cbn; (split; [discriminate |]); (split; [reflexivity |]);
      intros st' E; inversion E; subst; eauto.
  - intros [| st [b |]] e H; cbn in H; try destruct (ok st) eqn:Eok;
      inversion H; subst; cbn;
      (split; [try discriminate; apply orElse_nonempty; discriminate |]);
      (split; [reflexivity |]);
      intros st' E; inversion E; subst; eauto.
  - intros [| st [b |]] e H; cbn in H; try destruct (ok st) eqn:Eok;
      try destruct (Nat.eqb_spec st 404) as [-> | Hne];
      inversion H; subst; cbn;
      (split; [split; [discriminate | split; [reflexivity |
          intros st' E; inversion E; subst; eauto]] |]);
      (split; intros E; try discriminate E; try reflexivity;
        inversion E; subst; contradiction).
  - intros file [| st [b |]] e H; cbn in H; try destruct (ok st) eqn:Eok;
      inversion H; subst; cbn;
      (split; [try discriminate; apply orElse_nonempty; discriminate |]);
      (split; [reflexivity |]);
      intros st' E; inversion E; subst; eauto.
Qed.

Lemma request_errors_normalised_witness :
  normalised (Response 404 (@None StatusData)) (newError "Conversion job not found" (Some 404%nat))
  /\ (message (newError "Conversion job not found" (Some 404%nat)) = "Conversion job not found"
      <-> status (newError "Conversion job not found" (Some 404%nat)) = Some 404%nat).
Proof.
  apply (proj1 (proj2 (proj2 (proj2 request_errors_normalised)))
               (Response 404 None) (newError "Conversion job not found" (Some 404%nat))).
  reflexivity.
Defined.

End RemoteClient.
Section PollingRounds.
Import ConversionApi.

(** Once the promise is settled no later answer matters: the outcome and
    the reported progress of a settled poll are those of any longer run. *)
Theorem pollConversionStatus_settles_once
    (answers more : list (Fetch StatusData)) :
  fst (pollConversionStatus answers) <> Waiting ->
  pollConversionStatus (answers ++ more) = pollConversionStatus answers.
Proof.
  induction answers as [| r later IH]; intros H; [now elim H |].
  cbn [pollConversionStatus app] in *.
  destruct (getConversionStatus r) as [d | e]; [| reflexivity].
  destruct (pollStep d); try reflexivity.
  destruct (pollConversionStatus later) as [c evs] eqn:E. cbn in H.
  rewrite (IH H). reflexivity.
Qed.

Lemma pollConversionStatus_settles_once_witness :
  pollConversionStatus
    ([answer (mkStatus (Some "processing") 10 None None);
      answer (mkStatus (Some "completed") 100 (Some []) None)]
       ++ [answer (mkStatus (Some "failed") 0 None None)])
  = (Resolved (mkStatus (Some "completed") 100 (Some []) None),
     [(10%Z, Some "processing"); (100%Z, Some "completed")]).
Proof.
  rewrite pollConversionStatus_settles_once; [reflexivity |].
  cbn. discriminate.
Defined.

Lemma poll_rounds (waiting : list StatusData) (rest : list (Fetch StatusData)) :
  Forall inProgress waiting ->
  pollConversionStatus (map answer waiting ++ rest) =
  (fst (pollConversionStatus rest),
   (map (fun d => (progress d, job_status d)) waiting
      ++ snd (pollConversionStatus rest))%list).
Proof.
  induction 1 as [| d ds Hd _ IH]; [cbn; now destruct (pollConversionStatus rest) |].
  apply pollStep_continue in Hd.
  cbn [map app pollConversionStatus]. unfold answer at 1. cbn [getConversionStatus ok].
  cbn. rewrite Hd. rewrite IH. reflexivity.
Qed.

(** The progress callback is called once per answered round, with the
    progress and status of that round, the settling round included; and a
    status request that fails ends the polling at once with its error,
    without a further round. *)
Theorem pollConversionStatus_rounds
    (waiting : list StatusData) (later : list (Fetch StatusData)) :
  Forall inProgress waiting ->
  (forall d, ~ inProgress d ->
     snd (pollConversionStatus (map answer waiting ++ answer d :: later)) =
     map (fun d => (progress d, job_status d)) (waiting ++ [d])) /\
  (forall r e, getConversionStatus r = Thrown e ->
     pollConversionStatus (map answer waiting ++ r :: later) =
     (Rejected e, map (fun d => (progress d, job_status d)) waiting)).
Proof.
  intros Hw. split.
  - intros d Hd. rewrite (poll_rounds _ _ Hw). cbn [snd].
    rewrite map_app. f_equal.
    assert (Hs : pollStep d <> Continue) by (intros E; apply Hd, pollStep_continue, E).
    unfold answer. cbn. destruct (pollStep d); try reflexivity. contradiction.
  - intros r e Hr. rewrite (poll_rounds _ _ Hw).
    cbn [pollConversionStatus]. rewrite Hr. cbn. now rewrite app_nil_r.
Qed.

Lemma pollConversionStatus_rounds_witness :
  pollConversionStatus
    (map answer [mkStatus (Some "pending") 0 None None] ++ Response 404 None :: [])
  = (Rejected (newError "Conversion job not found" (Some 404%nat)), [(0%Z, Some "pending")]).
Proof.
  refine (proj2 (pollConversionStatus_rounds [mkStatus (Some "pending") 0 None None] [] _)
                (Response 404 None) _ eq_refl).
  constructor; [right; reflexivity | constructor].
Defined.

End PollingRounds.

Section RemoteBatch.
Import ConversionApi.

(** When the remote conversion resolves there is one result per entry of
    the server's answer, in the server's order (whatever the number of files
    sent); a result refers to a file that was sent and bears the name the
    server echoed, or to none when no file sent has that name; the counts of
    the record add up to the number of results; and the record is tagged
    'api'. *)
Theorem remote_results_follow_server
    (files : list File.t) (s t : string) (env : Remote) (o : Outcome.t)
    (evs : list ProgressEvent) :
  convertFiles files s t env = (Resolved o, evs) ->
  exists d items,
    fst (pollConversionStatus (statuses env)) = Resolved d /\
    results d = Some items /\
    List.length (Outcome.results o) = List.length items /\
    map Result.convertedFileName (Outcome.results o) = map converted_filename items /\
    map Result.success (Outcome.results o) = map item_success items /\
    (forall k item r,
        nth_error items k = Some item -> nth_error (Outcome.results o) k = Some r ->
        match Result.originalFile r with
        | Some f => In f files /\ File.name f = original_filename item
        | None => forall f, In f files -> File.name f <> original_filename item
        end) /\
    (ConversionData.successfulFiles (Outcome.conversionData o)
     + ConversionData.failedFiles (Outcome.conversionData o) = List.length items)%nat /\
    ConversionData.backendUsed (Outcome.conversionData o) = "api" /\
    ConversionData.files (Outcome.conversionData o) = files.
Proof.
  intros H. unfold convertFiles in H.
  destruct (startConversion (upload env)); [| discriminate H].
  destruct (pollConversionStatus (statuses env)) as [[d | e |] evs'] eqn:Ep;
    try discriminate H.
  destruct (results d) as [items |] eqn:Er; [| discriminate H].
  inversion H; subst; clear H. exists d, items. cbn.
  split; [reflexivity |]. split; [exact Er |].
  split; [apply length_map |].
  split; [rewrite map_map; reflexivity |].
  split; [rewrite map_map; reflexivity |].
  split; [| split; [| split; reflexivity]].
  - intros k item r Hi Hr. rewrite nth_error_map, Hi in Hr. inversion Hr; subst; clear Hr.
    cbn. unfold findByName.
    destruct (find (fun f => String.eqb (File.name f) (original_filename item)) files)
      as [f |] eqn:Ef.
    + apply find_some in Ef. destruct Ef as [Hin E]. apply String.eqb_eq in E. now split.
    + intros f Hin E. apply (find_none _ _ Ef) in Hin. cbn in Hin.
      apply String.eqb_neq in Hin. contradiction.
  - unfold countSuccessful. rewrite length_map.
    pose proof (filter_length_le Result.success (map (processItem files) items)) as Hle.
    rewrite length_map in Hle. lia.
Qed.

Lemma remote_results_follow_server_witness :
  exists d items,
    fst (pollConversionStatus
           [answer (mkStatus (Some "completed") 100
                      (Some [mkItem "a.jpg" "a.png" (Some "/download/a.png") 12 true None;
                             mkItem "x.jpg" "x.png" None 0 false (Some "unknown file")])
                      None)]) = Resolved d /\
    results d = Some items /\ List.length items = 2%nat.
Proof.
  destruct (remote_results_follow_server
              [File.mk "a.jpg" 10 "image/jpeg"] "JPEG" "PNG"
              (mkRemote (Response 200 (Some (mkUpload (Some "job-1") None)))
                 [answer (mkStatus (Some "completed") 100
                            (Some [mkItem "a.jpg" "a.png" (Some "/download/a.png") 12 true None;
                                   mkItem "x.jpg" "x.png" None 0 false (Some "unknown file")])
                            None)] 0 5)
              _ _ eq_refl) as (d & items & Hp & Hr & Hl & _).
  exists d, items. split; [exact Hp |]. split; [exact Hr |].
  rewrite <- Hl. reflexivity.
Defined.

(** When the remote conversion rejects, the error keeps the message and
    status of the failure that caused it and always carries a conversion
    record: not successful, no successful file, every file sent counted as
    failed, the message repeated, no results, tagged 'api'. *)
Theorem remote_rejection_carries_record
    (files : list File.t) (s t : string) (env : Remote) (e : ConversionApiError)
    (evs : list ProgressEvent) :
  convertFiles files s t env = (Rejected e, evs) ->
  exists data,
    conversionData e = Some data /\
    ConversionData.success data = false /\
    ConversionData.successfulFiles data = 0%nat /\
    ConversionData.failedFiles data = List.length files /\
    ConversionData.errorMessage data = Some (message e) /\
    ConversionData.results data = None /\
    ConversionData.backendUsed data = "api" /\
    ((exists e0, startConversion (upload env) = Thrown e0 /\
                 message e = message e0 /\ status e = status e0) \/
     (exists e0, fst (pollConversionStatus (statuses env)) = Rejected e0 /\
                 message e = message e0 /\ status e = status e0) \/
     (message e = missingResultsMessage /\ status e = None)).
Proof.
  intros H. unfold convertFiles in H.
  destruct (startConversion (upload env)) as [u | e0] eqn:Es.
  - destruct (pollConversionStatus (statuses env)) as [[d | e0 |] evs'] eqn:Ep;
      try discriminate H.
    + destruct (results d); [discriminate H |].
      inversion H; subst; clear H. eexists. cbn.
      repeat (split; [reflexivity |]). right. right. now split.
    + inversion H; subst; clear H. eexists. cbn.
      repeat (split; [reflexivity |]). right. left. exists e0. now repeat split.
  - inversion H; subst; clear H. eexists. cbn.
    repeat (split; [reflexivity |]). left. exists e0. now repeat split.
Qed.

Lemma remote_rejection_carries_record_witness :
  exists data,
    conversionData
      (failureData [File.mk "a.jpg" 10 "image/jpeg"] "JPEG" "PNG"
                   (mkRemote NetworkError [] 0 1)
                   (newError "Failed to start conversion" None)) = Some data /\
    ConversionData.failedFiles data = 1%nat.
Proof.
  destruct (remote_rejection_carries_record
              [File.mk "a.jpg" 10 "image/jpeg"] "JPEG" "PNG"
              (mkRemote NetworkError [] 0 1) _ _ eq_refl)
    as (data & Hd & _ & _ & Hf & _).
  exists data. split; [exact Hd | exact Hf].
Defined.

End RemoteBatch.
Section MockRun.
Import MockConversionApi.

Lemma mathRound_integer (z : Z) : Browser.mathRound (inject_Z z) = z.
Proof.
  unfold Browser.mathRound.
  pose proof (Qfloor_le (inject_Z z + (1 # 2))) as Hle.
  pose proof (Qlt_floor (inject_Z z + (1 # 2))) as Hlt.
  rewrite inject_Z_plus in Hlt. change (inject_Z 1) with 1 in Hlt.
  set (f := Qfloor (inject_Z z + (1 # 2))) in *.
  assert (H1 : inject_Z f < inject_Z (z + 1)) by (rewrite inject_Z_plus; change (inject_Z 1) with 1; lra).
  assert (H2 : inject_Z z < inject_Z (f + 1)) by (rewrite inject_Z_plus; change (inject_Z 1) with 1; lra).
  rewrite <- Zlt_Qlt in H1, H2. lia.
Qed.

Lemma mathRound_monotone (x y : Q) : x <= y -> (Browser.mathRound x <= Browser.mathRound y)%Z.
Proof.
  intros H. unfold Browser.mathRound. apply Qfloor_resp_le. lra.
Qed.

Lemma mathRound_Qeq (x y : Q) : x == y -> Browser.mathRound x = Browser.mathRound y.
Proof.
  intros H. apply Z.le_antisymm; apply mathRound_monotone; rewrite H; apply Qle_refl.
Qed.

(** The percentage reported for [m] hundredths of a file out of [n] files. *)
Lemma percent_bounds (m n : nat) :
  (0 < n)%nat -> (m <= n * 100)%nat ->
  (0 <= Browser.mathRound (inject_Z (Z.of_nat m) / inject_Z (Z.of_nat n)) <= 100)%Z.
Proof.
  intros Hn Hm.
  assert (Hpos : 0 < inject_Z (Z.of_nat n)).
  { change 0 with (inject_Z 0). rewrite <- Zlt_Qlt. lia. }
  assert (Hm0 : 0 <= inject_Z (Z.of_nat m)).
  { change 0 with (inject_Z 0). rewrite <- Zle_Qle. lia. }
  assert (Hm1 : inject_Z (Z.of_nat m) <= 100 * inject_Z (Z.of_nat n)).
  { change 100 with (inject_Z 100). rewrite <- inject_Z_mult, <- Zle_Qle. lia. }
  split.
  - rewrite <- (mathRound_integer 0). apply mathRound_monotone.
    change (inject_Z 0) with 0. apply Qle_shift_div_l; [exact Hpos | lra].
  - rewrite <- (mathRound_integer 100). apply mathRound_monotone.
    change (inject_Z 100) with 100. apply Qle_shift_div_r; [exact Hpos | lra].
Qed.

Lemma percent_full (n : nat) :
  (0 < n)%nat ->
  Browser.mathRound (inject_Z (Z.of_nat (n * 100)) / inject_Z (Z.of_nat n)) = 100%Z.
Proof.
  intros Hn. transitivity (Browser.mathRound (inject_Z 100)); [| apply mathRound_integer].
  apply mathRound_Qeq.
  rewrite Nat2Z.inj_mul, inject_Z_mult. change (inject_Z (Z.of_nat 100)) with 100.
  change (inject_Z 100) with 100.
  assert (Hpos : 0 < inject_Z (Z.of_nat n)).
  { change 0 with (inject_Z 0). rewrite <- Zlt_Qlt. lia. }
  field. intros E. rewrite E in Hpos. exact (Qlt_irrefl 0 Hpos).
Qed.

Lemma percent_monotone (m m' n : nat) :
  (0 < n)%nat -> (m <= m')%nat ->
  (Browser.mathRound (inject_Z (Z.of_nat m) / inject_Z (Z.of_nat n))
   <= Browser.mathRound (inject_Z (Z.of_nat m') / inject_Z (Z.of_nat n)))%Z.
Proof.
  intros Hn Hm. apply mathRound_monotone.
  assert (Hpos : 0 < inject_Z (Z.of_nat n)).
  { change 0 with (inject_Z 0). rewrite <- Zlt_Qlt. lia. }
  apply Qmult_le_compat_r.
  - rewrite <- Zle_Qle. lia.
  - apply Qlt_le_weak, Qinv_lt_0_compat, Hpos.
Qed.

Lemma StronglySorted_app {A} (R : A -> A -> Prop) (l1 l2 : list A) :
  StronglySorted R l1 -> StronglySorted R l2 ->
  (forall x y, In x l1 -> In y l2 -> R x y) ->
  StronglySorted R (l1 ++ l2).
Proof.
  induction 1 as [| x l1 Hs IH Hx]; intros H2 Hcross; [exact H2 |].
  simpl. constructor.
  - apply IH; [exact H2 |]. intros a c Ha Hc. apply Hcross; [now right | exact Hc].
  - apply Forall_app. split; [exact Hx |].
    apply Forall_forall. intros c Hc. apply Hcross; [now left | exact Hc].
Qed.

Lemma StronglySorted_map {A B} (R : A -> A -> Prop) (R' : B -> B -> Prop) (f : A -> B)
    (l : list A) :
  (forall x y, In x l -> In y l -> R x y -> R' (f x) (f y)) ->
  StronglySorted R l -> StronglySorted R' (map f l).
Proof.
  intros Hf H. induction H as [| x l Hs IH Hx]; simpl; constructor.
  - apply IH. intros a c Ha Hc. apply Hf; now right.
  - apply Forall_map. rewrite Forall_forall in *. intros c Hc.
    apply Hf; [now left | now right | now apply Hx].
Qed.

Lemma convertLoop_events (total : nat) (targetFormat : string) :
  forall (files : list File.t) (i : nat) (b : Browser.t),
    snd (fst (convertLoop files i total targetFormat b)) =
    flat_map (fun k => progressOf k total) (seq i (List.length files)).
Proof.
  induction files as [| file rest IH]; intros i b; [reflexivity |].
  cbn [convertLoop]. destruct (mockResult file targetFormat b) as [r b1].
  specialize (IH (S i) b1).
  destruct (convertLoop rest (S i) total targetFormat b1) as [[rs evs] b2].
  cbn in *. now rewrite IH.
Qed.

(** The percentage of an event of file [k] lies between those of the
    first event of that file and of the first event of the next. *)
Lemma progressOf_between (k n : nat) (ev : ProgressEvent) :
  (0 < n)%nat -> In ev (progressOf k n) ->
  snd ev = Some "processing" /\
  exists m, (k * 100 <= m <= k * 100 + 100)%nat /\
            fst ev = Browser.mathRound (inject_Z (Z.of_nat m) / inject_Z (Z.of_nat n)).
Proof.
  intros Hn Hin. unfold progressOf in Hin. apply in_map_iff in Hin.
  destruct Hin as (p & <- & Hp). split; [reflexivity |].
  exists (k * 100 + p)%nat. split; [| reflexivity].
  simpl in Hp. repeat (destruct Hp as [<- | Hp]; [lia |]). contradiction.
Qed.

Lemma progressOf_sorted (k n : nat) :
  (0 < n)%nat -> StronglySorted (fun a c : ProgressEvent => (fst a <= fst c)%Z) (progressOf k n).
Proof.
  intros Hn. unfold progressOf.
  apply (StronglySorted_map le).
  - intros x y _ _ Hxy. cbn [fst]. apply percent_monotone; [exact Hn | lia].
  - repeat (constructor; [| repeat (constructor; [lia |]); constructor]). constructor.
Qed.

Lemma progress_sorted (n : nat) :
  (0 < n)%nat ->
  forall len i,
    StronglySorted (fun a c : ProgressEvent => (fst a <= fst c)%Z)
                   (flat_map (fun k => progressOf k n) (seq i len)).
Proof.
  intros Hn. induction len as [| len IH]; intros i; [constructor |].
  cbn [seq flat_map]. apply StronglySorted_app; [now apply progressOf_sorted | apply IH |].
  intros a c Ha Hc.
  destruct (progressOf_between _ _ _ Hn Ha) as (_ & m & Hm & ->).
  apply in_flat_map in Hc. destruct Hc as (k & Hk & Hc). apply in_seq in Hk.
  destruct (progressOf_between _ _ _ Hn Hc) as (_ & m' & Hm' & ->).
  apply percent_monotone; [exact Hn | nia].
Qed.

Lemma progress_last (n : nat) :
  forall len i,
    exists front,
      flat_map (fun k => progressOf k n) (seq i (S len)) =
      (front ++ [(Browser.mathRound (inject_Z (Z.of_nat ((i + S len) * 100))
                                     / inject_Z (Z.of_nat n)),
                  Some "processing")])%list.
Proof.
  induction len as [| len IH]; intros i.
  - cbn [seq flat_map]. rewrite app_nil_r. unfold progressOf.
    exists (map (fun progress : nat =>
                   (Browser.mathRound
                      (inject_Z (Z.of_nat (i * 100 + progress)) / inject_Z (Z.of_nat n)),
                    Some "processing"))
                [0; 10; 20; 30; 40; 50; 60; 70; 80; 90]%nat).
    replace ((i + 1) * 100)%nat with (i * 100 + 100)%nat by lia. reflexivity.
  - destruct (IH (S i)) as [front E].
    change (seq i (S (S len))) with (i :: seq (S i) (S len)).
    cbn [flat_map]. rewrite E. exists (progressOf i n ++ front)%list.
    replace ((S i + S len) * 100)%nat with ((i + S (S len)) * 100)%nat by lia.
    now rewrite <- app_assoc.
Qed.

(** While the mock fallback runs it reports eleven progress events per
    file, all with status 'processing'; the percentages lie between 0 and
    100, never decrease, and (when there is a file) the last one is 100. *)
Theorem mock_progress_report
    (files : list File.t) (s t : string) (t0 t1 : Z) (b : Browser.t) :
  let evs := snd (fst (convertFiles files s t t0 t1 b)) in
  List.length evs = (11 * List.length files)%nat /\
  Forall (fun ev : ProgressEvent =>
            (0 <= fst ev <= 100)%Z /\ snd ev = Some "processing") evs /\
  StronglySorted (fun a c : ProgressEvent => (fst a <= fst c)%Z) evs /\
  (files <> [] -> exists front, evs = (front ++ [(100%Z, Some "processing")])%list).
Proof.
  intros evs.
  assert (E : evs = flat_map (fun k => progressOf k (List.length files))
                             (seq 0 (List.length files))).
  { subst evs. unfold convertFiles.
    pose proof (convertLoop_events (List.length files) t files 0 b) as H.
    destruct (convertLoop files 0 (List.length files) t b) as [[rs ev] b']. exact H. }
  rewrite E. clear E evs.
  destruct files as [| file rest]; [repeat split; try constructor; intros H; now elim H |].
  set (n := List.length (file :: rest)).
  assert (Hn : (0 < n)%nat) by (subst n; simpl; lia).
  split; [| split; [| split]].
  - generalize 0%nat at 1. generalize n at 2 3 as len.
    induction len as [| len IH]; intros i; [reflexivity |].
    cbn [seq flat_map]. rewrite length_app, IH. unfold progressOf. rewrite length_map.
    simpl. lia.
  - apply Forall_forall. intros ev Hin. apply in_flat_map in Hin.
    destruct Hin as (k & Hk & Hin). apply in_seq in Hk.
    destruct (progressOf_between _ _ _ Hn Hin) as (Hs & m & Hm & ->).
    split; [apply percent_bounds; [exact Hn | nia] | exact Hs].
  - now apply progress_sorted.
  - intros _. destruct (progress_last n (List.length rest) 0) as [front E].
    exists front. fold n in E. subst n. cbn [List.length] in *. rewrite E.
    rewrite percent_full by lia. reflexivity.
Qed.

Lemma mock_progress_report_witness :
  exists front,
    snd (fst (convertFiles [File.mk "a.jpg" 10 "image/jpeg"; File.mk "b.jpg" 20 "image/jpeg";
                            File.mk "c.jpg" 30 "image/jpeg"]
                           "JPEG" "PNG" 0 1 (Browser.fresh (fun _ => 1 # 2))))
    = (front ++ [(100%Z, Some "processing")])%list.
Proof.
  apply (mock_progress_report [File.mk "a.jpg" 10 "image/jpeg"; File.mk "b.jpg" 20 "image/jpeg";
                               File.mk "c.jpg" 30 "image/jpeg"]
                              "JPEG" "PNG" 0 1 (Browser.fresh (fun _ => 1 # 2))).
  discriminate.
Defined.

End MockRun.
Section MockEffects.
Import MockConversionApi.

Lemma convertLoop_minted (total : nat) (targetFormat : string) :
  forall (files : list File.t) (i : nat) (b : Browser.t),
    let b' := snd (convertLoop files i total targetFormat b) in
    Browser.nextObjectUrl b' = (Browser.nextObjectUrl b + List.length files)%nat /\
    incl (Browser.issued b) (Browser.issued b') /\
    forall k, (k < List.length files)%nat ->
              In ((Browser.nextObjectUrl b + k)%nat, None) (Browser.issued b').
Proof.
  induction files as [| file rest IH]; intros i b.
  - cbn. split; [lia |]. split; [apply incl_refl |]. intros k Hk. lia.
  - cbn [convertLoop]. unfold mockResult. cbn.
    match goal with
    | |- context [convertLoop rest (S i) total targetFormat ?b1] =>
        specialize (IH (S i) b1);
        destruct (convertLoop rest (S i) total targetFormat b1) as [[rs evs] b2]
    end.
    cbn in *. destruct IH as (Hn & Hincl & Hi). split; [lia |].
    split; [intros e He; apply Hincl; now right |].
    intros [| k] Hk.
    + rewrite Nat.add_0_r. apply Hincl. now left.
    + replace (Browser.nextObjectUrl b + S k)%nat
        with (S (Browser.nextObjectUrl b) + k)%nat by lia.
      apply Hi. lia.
Qed.

(** What a mock conversion does to the browser: it mints one blob URL per
    file, each result holds its own, so the download addresses are pairwise
    distinct; it takes two random draws per file; and it revokes nothing,
    so every URL it minted stays registered. *)
Theorem mock_browser_effects
    (files : list File.t) (s t : string) (t0 t1 : Z) (b : Browser.t) :
  let o := fst (fst (convertFiles files s t t0 t1 b)) in
  let b' := snd (convertFiles files s t t0 t1 b) in
  (forall k r, nth_error (Outcome.results o) k = Some r ->
               Result.downloadUrl r = Some (ObjectUrl (Browser.nextObjectUrl b + k)) /\
               In ((Browser.nextObjectUrl b + k)%nat, None) (Browser.issued b')) /\
  NoDup (map Result.downloadUrl (Outcome.results o)) /\
  Browser.nextObjectUrl b' = (Browser.nextObjectUrl b + List.length files)%nat /\
  Browser.drawn b' = (Browser.drawn b + 2 * List.length files)%nat /\
  Browser.revoked b' = Browser.revoked b.
Proof.
  intros o b'.
  assert (Hentry : forall k r, nth_error (Outcome.results o) k = Some r ->
                     (k < List.length files)%nat /\
                     Result.downloadUrl r = Some (ObjectUrl (Browser.nextObjectUrl b + k))).
  { intros k r Hr. destruct (nth_error files k) as [f |] eqn:Ef.
    - subst o. rewrite (mock_entry_at _ s t t0 t1 b _ _ Ef) in Hr.
      inversion Hr; subst. split; [| reflexivity].
      apply nth_error_Some. rewrite Ef. discriminate.
    - exfalso. apply nth_error_None in Ef.
      assert (Hl : List.length (Outcome.results o) = List.length files).
      { subst o. rewrite <- (length_map Result.originalFile), mock_originals.
        apply length_map. }
      assert (Hk : nth_error (Outcome.results o) k <> None) by (rewrite Hr; discriminate).
      apply nth_error_Some in Hk. lia. }
  subst o b'. unfold convertFiles in *.
  pose proof (convertLoop_minted (List.length files) t files 0 b) as Hm.
  destruct (convertLoop files 0 (List.length files) t b) as [[rs evs] b2] eqn:E.
  destruct (convertLoop_entries _ _ _ _ _ _ _ _ E) as (_ & Hd & Hv & _ & _).
  cbn in *. destruct Hm as (Hn & _ & Hi).
  split; [| split; [| split; [exact Hn | split; [exact Hd | exact Hv]]]].
  - intros k r Hr. destruct (Hentry k r Hr) as [Hk Hu]. split; [exact Hu | now apply Hi].
  - apply NoDup_nth_error. intros i j Hi' Hij. rewrite length_map in Hi'.
    rewrite !nth_error_map in Hij.
    destruct (nth_error rs i) as [ri |] eqn:Ei;
      [| apply nth_error_None in Ei; lia].
    destruct (nth_error rs j) as [rj |] eqn:Ej; [| discriminate Hij].
    destruct (Hentry i ri Ei) as [_ Hui]. destruct (Hentry j rj Ej) as [_ Huj].
    cbn in Hij. rewrite Hui, Huj in Hij. inversion Hij. lia.
Qed.

Lemma mock_browser_effects_witness :
  Result.downloadUrl
    (mockEntry (File.mk "b.jpg" 20 "image/jpeg") "PNG" 1 (1 # 2) (1 # 2))
  = Some (ObjectUrl (0 + 1)).
Proof.
  apply (proj1 (mock_browser_effects
                  [File.mk "a.jpg" 10 "image/jpeg"; File.mk "b.jpg" 20 "image/jpeg"]
                  "JPEG" "PNG" 0 1 (Browser.fresh (fun _ => 1 # 2))) 1%nat).
  reflexivity.
Defined.

(** The counts of a mock conversion add up to the number of files, the
    message quotes them, and with no file at all the call still returns
    normally: no result, no progress event, the browser untouched, and a
    record that is not successful. *)
Theorem mock_counts (files : list File.t) (s t : string) (t0 t1 : Z) (b : Browser.t) :
  let o := fst (fst (convertFiles files s t t0 t1 b)) in
  let data := Outcome.conversionData o in
  (ConversionData.successfulFiles data + ConversionData.failedFiles data
   = List.length files)%nat /\
  ConversionData.successfulFiles data = ConversionApi.countSuccessful (Outcome.results o) /\
  Outcome.message o = "Successfully converted "
                        ++ showNat (ConversionData.successfulFiles data) ++ " of "
                        ++ showNat (List.length files) ++ " files" /\
  ConversionData.files data = files /\
  (files = [] ->
   convertFiles files s t t0 t1 b =
   (Outcome.mk true [] "Successfully converted 0 of 0 files" data, [], b) /\
   ConversionData.success data = false).
Proof.
  intros o data.
  assert (Hl : List.length (Outcome.results o) = List.length files).
  { subst o. rewrite <- (length_map Result.originalFile), mock_originals.
    apply length_map. }
  subst data o. unfold convertFiles in *.
  destruct (convertLoop files 0 (List.length files) t b) as [[rs evs] b2] eqn:E.
  cbn in *.
  split; [| split; [reflexivity | split; [reflexivity | split; [reflexivity |]]]].
  - pose proof (filter_length_le Result.success rs) as Hle.
    unfold ConversionApi.countSuccessful. lia.
  - intros ->. cbn in E. inversion E; subst. cbn. split; reflexivity.
Qed.

Lemma mock_counts_witness :
  ConversionData.success
    (Outcome.conversionData
       (fst (fst (convertFiles [] "JPEG" "PNG" 0 1 (Browser.fresh (fun _ => 1 # 2))))))
  = false.
Proof.
  apply (proj2 (proj2 (proj2 (proj2
           (mock_counts [] "JPEG" "PNG" 0 1 (Browser.fresh (fun _ => 1 # 2))))))).
  reflexivity.
Defined.

End MockEffects.
Section SmartPaths.
Import SmartConversionService.

Lemma remote_reply_shape (files : list File.t) (s t : string) (env : ConversionApi.Remote)
    (o : Outcome.t) (evs : list ProgressEvent) :
  ConversionApi.convertFiles files s t env = (Resolved o, evs) ->
  Outcome.success o = true /\
  ConversionData.backendUsed (Outcome.conversionData o) = "api".
Proof.
  intros H. unfold ConversionApi.convertFiles in H.
  destruct (ConversionApi.startConversion (ConversionApi.upload env)); [| discriminate H].
  destruct (ConversionApi.pollConversionStatus (ConversionApi.statuses env))
    as [[d | e |] evs']; try discriminate H.
  destruct (ConversionApi.results d); [| discriminate H].
  inversion H; subst. split; reflexivity.
Qed.

Lemma mock_reply_shape (files : list File.t) (s t : string) (t0 t1 : Z) (b : Browser.t) :
  Outcome.success (fst (fst (MockConversionApi.convertFiles files s t t0 t1 b))) = true /\
  List.length (Outcome.results (fst (fst (MockConversionApi.convertFiles files s t t0 t1 b))))
  = List.length files.
Proof.
  split.
  - unfold MockConversionApi.convertFiles.
    destruct (MockConversionApi.convertLoop files 0 (List.length files) t b) as [[rs evs] b'].
    reflexivity.
  - rewrite <- (length_map Result.originalFile), mock_originals. apply length_map.
Qed.

(** What the page needs to know of a run: a pending run leaves the flag
    [true]; an answer carries [success: true] and either leaves the flag
    [true] or holds one result per file. *)
Lemma convertFiles_flag
    (st : State) (files : list File.t) (s t : string) (env : CallEnv) (b : Browser.t) :
  let run := convertFiles st files s t env b in
  match reply run with
  | None => after run = Some true
  | Some o =>
      Outcome.success o = true /\
      (after run = Some true \/
       List.length (Outcome.results o) = List.length files)
  end.
Proof.
  intros run. subst run. unfold convertFiles, checkBackendAvailability.
  pose proof (mock_reply_shape files s t (mockStart env) (mockEnd env) b) as [Hs Hl].
  destruct st as [[|] |]; [| | destruct (ConversionApi.checkHealth (health env))]; cbn;
    try (destruct (ConversionApi.convertFiles files s t (remote env)) as [[o | e |] evs] eqn:Er);
    try (destruct (remote_reply_shape _ _ _ _ _ _ Er) as [Hrs Hrb]);
    destruct (MockConversionApi.convertFiles files s t (mockStart env) (mockEnd env) b)
      as [[o' m] b'];
    cbn in *;
    first [reflexivity
          | split; [assumption | first [left; reflexivity | right; assumption]]].
Qed.



End SmartPaths.

Section RunningAlone.
Import SmartSession.

(** *** A conversion that runs alone *)

Lemma mockOutcome_length (files : list File.t) (o : Outcome.t) :
  mockOutcome files o -> List.length (Outcome.results o) = List.length files.
Proof.
  intros (_ & _ & H). rewrite <- (length_map Result.originalFile), H. apply length_map.
Qed.


Lemma alone_begin (st : SmartConversionService.State) (b : Browser.t)
    (files : list File.t) (s t : string) (now : Z) :
  alone st b files s t (move (mk st [] b) (Calls (ConvertFiles files s t) now)).
Proof.
  unfold alone, move. cbn [backendAvailable tasks browser app].
  eexists. split; [reflexivity |].
  destruct st as [[|] |]; cbn.
  - split; [reflexivity |]. split; [reflexivity |]. split; [reflexivity |].
    intros [H | []]. discriminate H.
  - split; [reflexivity |]. split; [reflexivity |]. split; [now left |].
    unfold mocked. cbn. split; [reflexivity |].
    destruct files; [right | left; cbn; lia]; reflexivity.
  - repeat split.
Qed.

Lemma alone_move (st : SmartConversionService.State) (b : Browser.t)
    (files : list File.t) (s t : string) (x : SmartSession.t) (m : Move) :
  target m <> None -> alone st b files s t x -> alone st b files s t (move x m).
Proof.
  intros Hm (task & Htasks & Hreq & Hphase).
  destruct (move_cases x m) as [(r & now & -> & _) | [(i & task' & st' & next & b' & Ht & Hi & Ha & ->)
                                                     | (i0 & _ & _ & ->)]];
    [now elim Hm | | exists task; repeat split; assumption].
  rewrite Htasks in Hi |- *.
  destruct i as [| i]; [| destruct i; discriminate Hi].
  inversion Hi; subst task'. clear Hi.
  unfold alone. cbn [tasks backendAvailable browser replaceNth].
  exists next. split; [reflexivity |].
  destruct (phase task) as [| | | t0 results | [o | f]] eqn:Ephase; try contradiction.
  - (* the probe is answered *)
    destruct Hphase as (Hst & Hflag & Hb & Hd).
    unfold advance in Ha. rewrite Ephase in Ha.
    destruct m as [r now | j a now | j e now | j a | j now]; try discriminate Ha.
    inversion Ha; subst. clear Ha. rewrite Hreq, Hd.
    destruct (healthy a); cbn.
    + split; [reflexivity |]. split; [reflexivity |]. split; [reflexivity |].
      intros [H | [H | [H | []]]]; discriminate H.
    + split; [reflexivity |]. split; [reflexivity |].
      split; [right; right; now left |].
      unfold mocked. cbn. split; [reflexivity |].
      destruct files; [right | left; cbn; lia]; reflexivity.
  - (* the real client settles *)
    destruct Hphase as (Hflag & Hb & Hd).
    unfold advance in Ha. rewrite Ephase, Hreq in Ha.
    destruct m as [r now | j a now | j e now | j a | j now]; try discriminate Ha.
    destruct (ConversionApi.convertFiles files s t e) as [[o | err |] evs] eqn:Ec;
      inversion Ha; subst; clear Ha; cbn.
    + destruct (remote_reply_shape _ _ _ _ _ _ Ec) as [Hs Hapi].
      split; [reflexivity |]. split; [exact Hs |]. left.
      split; [exact Hapi |]. split; [exact Hflag |]. split; [reflexivity |].
      intros Hin. apply in_app_or in Hin. destruct Hin as [Hin | [H | []]];
        [exact (Hd Hin) | discriminate H].
    + split; [reflexivity |]. split; [reflexivity |].
      split; [apply in_or_app; right; right; now left |].
      unfold mocked. cbn. split; [reflexivity |].
      destruct files; [right | left; cbn; lia]; reflexivity.
  - (* a round of the mock *)
    destruct Hphase as (Hflag & Hd & Hmock).
    destruct (advance_mocked _ _ _ _ _ _ _ Ha Hmock) as (Hm' & Hst & Hr & now & _ & Hcases).
    subst st'. split; [congruence |].
    destruct Hcases as [[Hd' (t0' & results' & Hp')] | [Hd' [o Hp']]]; rewrite Hp'.
    + rewrite Hd'. split; [exact Hflag |]. split; [exact Hd | exact Hm'].
    + unfold mocked in Hm'. rewrite Hr, Hreq, Hp' in Hm'.
      destruct Hm' as (Hs & Hu & Ho).
      split; [exact Hs |]. right.
      split; [exact Hu |]. split; [exact Hflag |].
      split; [rewrite Hd'; apply in_or_app; left; exact Hd |].
      apply mockOutcome_length. repeat split; assumption.
  - (* it has returned: nothing is waited for *)
    unfold advance in Ha. rewrite Ephase in Ha. destruct m; discriminate Ha.
Qed.

(** A conversion that runs alone: whatever has been answered so far,
    it is waiting for its health probe with the flag still [null]; or
    waiting for the real client with the flag [true] and the browser
    untouched; or inside the mock with the flag [false]; or it has returned
    the answer of the backend (tagged 'api', flag [true], browser untouched,
    the mock never entered); or it has returned the answer of the mock
    (tagged 'mock', one result per file, flag [false]).  Every answer
    carries [success: true]. *)
Theorem smart_convert_paths
    (st : SmartConversionService.State) (b : Browser.t)
    (files : list File.t) (s t : string) (now : Z) (moves : list Move) :
  Forall (fun m => target m <> None) moves ->
  let x := run (mk st [] b) (Calls (ConvertFiles files s t) now :: moves) in
  exists task,
    tasks x = [task] /\ request task = ConvertFiles files s t /\
    match phase task with
    | AwaitingHealth =>
        st = None /\ backendAvailable x = None /\ browser x = b /\ did task = [ProbeSent]
    | AwaitingBackend =>
        backendAvailable x = Some true /\ browser x = b /\ ~ In MockCalled (did task)
    | InMock _ results =>
        backendAvailable x = Some false /\ In MockCalled (did task) /\ mocked task
    | Finished (Converted o) =>
        Outcome.success o = true /\
        ((ConversionData.backendUsed (Outcome.conversionData o) = "api" /\
          backendAvailable x = Some true /\ browser x = b /\ ~ In MockCalled (did task))
         \/
         (ConversionData.backendUsed (Outcome.conversionData o) = "mock" /\
          backendAvailable x = Some false /\ In MockCalled (did task) /\
          List.length (Outcome.results o) = List.length files))
    | AwaitingFormats | Finished (Formats _) => False
    end.
Proof.
  intros Hmoves x. subst x. cbn [run fold_left].
  fold (run (move (mk st [] b) (Calls (ConvertFiles files s t) now)) moves).
  change (alone st b files s t
            (run (move (mk st [] b) (Calls (ConvertFiles files s t) now)) moves)).
  pose proof (alone_begin st b files s t now) as Hinit.
  revert Hinit. generalize (move (mk st [] b) (Calls (ConvertFiles files s t) now)).
  induction Hmoves as [| m moves Hm _ IH]; intros x Hx; [exact Hx |].
  cbn [run fold_left]. apply IH. apply alone_move; assumption.
Qed.

Lemma smart_convert_paths_witness :
  exists task,
    tasks (run (mk None [] (Browser.fresh (fun _ => 1 # 2)))
               (Calls (ConvertFiles [File.mk "a.jpg" 10 "image/jpeg"] "JPEG" "PNG") 0
                  :: [TimersFire 0 1])) = [task] /\
    phase task = AwaitingHealth /\
    backendAvailable (run (mk None [] (Browser.fresh (fun _ => 1 # 2)))
               (Calls (ConvertFiles [File.mk "a.jpg" 10 "image/jpeg"] "JPEG" "PNG") 0
                  :: [TimersFire 0 1])) = None.
Proof.
  pose proof (smart_convert_paths None (Browser.fresh (fun _ => 1 # 2))
                [File.mk "a.jpg" 10 "image/jpeg"] "JPEG" "PNG" 0 [TimersFire 0 1]) as H.
  cbv zeta in H.
  assert (Hm : Forall (fun m => target m <> None) [TimersFire 0 1])
    by (constructor; [discriminate | constructor]).
  pose proof (H Hm) as H2.
  destruct H2 as (task & Htasks & _ & Hphase).
  exists task. split; [exact Htasks |].
  vm_compute in Htasks. inversion Htasks; subst task.
  cbn [phase] in Hphase. destruct Hphase as (_ & Hflag & _).
  split; [reflexivity | exact Hflag].
Defined.


(** *** The call that runs alone and is answered *)

Lemma convertFiles_conclude (files : list File.t) (s t : string) (t0 t1 : Z) (b : Browser.t) :
  MockConversionApi.convertFiles files s t t0 t1 b =
  (MockConversionApi.conclude files s t t0 t1
     (fst (fst (MockConversionApi.convertLoop files 0 (List.length files) t b))),
   snd (fst (MockConversionApi.convertLoop files 0 (List.length files) t b)),
   snd (MockConversionApi.convertLoop files 0 (List.length files) t b)).
Proof.
  unfold MockConversionApi.convertFiles.
  destruct (MockConversionApi.convertLoop files 0 (List.length files) t b) as [[rs evs] b'].
  reflexivity.
Qed.

(** The rounds of the timers, one per file left, do what the loop of the
    mock does to the files left. *)
Lemma rounds_are_the_loop (todo : list File.t) :
  forall (done : list File.t) (s t : string) (t0 t1 : Z) (st : SmartConversionService.State)
         (acc : list Result.t) (deeds : list Deed) (rep : list ProgressEvent) (b : Browser.t),
    todo <> [] ->
    List.length acc = List.length done ->
    run (mk st [mkTask (ConvertFiles (done ++ todo) s t) (InMock t0 acc) deeds rep] b)
        (repeat (TimersFire 0 t1) (List.length todo))
    = let '(rs, evs, b') :=
        MockConversionApi.convertLoop todo (List.length done) (List.length (done ++ todo)) t b in
      mk st [mkTask (ConvertFiles (done ++ todo) s t)
                    (Finished (Converted (MockConversionApi.conclude (done ++ todo) s t t0 t1
                                            (acc ++ rs))))
                    (deeds ++ [MockReturned]) (rep ++ evs)] b'.
Proof.
  induction todo as [| file rest IH]; intros done s t t0 t1 st acc deeds rep b Hne Hlen;
    [now elim Hne |].
  cbn [List.length repeat run fold_left].
  unfold move at 2. cbn [target tasks nth_error backendAvailable browser].
  unfold advance. cbn [phase]. unfold fire. cbn [request phase reported did].
  assert (Hnth : nth_error (done ++ file :: rest) (List.length acc) = Some file).
  { rewrite Hlen, nth_error_app2 by lia. rewrite Nat.sub_diag. reflexivity. }
  rewrite Hnth. cbn [MockConversionApi.convertLoop].
  destruct (MockConversionApi.mockResult file t b) as [r b1].
  destruct rest as [| file' rest'].
  - assert (Hlast : (S (List.length acc) =? List.length (done ++ [file]))%nat = true).
    { apply Nat.eqb_eq. rewrite length_app, Hlen. cbn. lia. }
    rewrite Hlast. cbn [replaceNth MockConversionApi.convertLoop fold_left].
    rewrite app_nil_r, Hlen. reflexivity.
  - assert (Hlast : (S (List.length acc) =? List.length (done ++ file :: file' :: rest'))%nat
                    = false).
    { apply Nat.eqb_neq. rewrite length_app, Hlen. cbn. lia. }
    rewrite Hlast. cbn [replaceNth].
    fold (run (mk st [mkTask (ConvertFiles (done ++ file :: file' :: rest') s t)
                             (InMock t0 (acc ++ [r])) deeds
                             (rep ++ MockConversionApi.progressOf (List.length acc)
                                       (List.length (done ++ file :: file' :: rest')))] b1)
              (repeat (TimersFire 0 t1) (List.length (file' :: rest')))).
    pose proof (IH (done ++ [file])%list s t t0 t1 st (acc ++ [r])%list deeds
                   (rep ++ MockConversionApi.progressOf (List.length acc)
                             (List.length (done ++ file :: file' :: rest')))%list b1) as IH'.
    rewrite <- app_assoc in IH'. cbn [app] in IH'.
    rewrite IH'; [| discriminate | rewrite !length_app, Hlen; reflexivity].
    rewrite length_app. cbn [List.length]. rewrite Nat.add_1_r, Hlen.
    destruct (MockConversionApi.convertLoop (file' :: rest') (S (List.length done))
                (List.length (done ++ file :: file' :: rest')) t b1) as [[rs evs] b2].
    rewrite <- !app_assoc. reflexivity.
Qed.

(** The mock, entered by a call that is alone, returns what
    [MockConversionApi.convertFiles] returns. *)
Lemma mock_alone (files : list File.t) (s t : string) (t0 t1 : Z)
    (st : SmartConversionService.State) (deeds : list Deed) (rep : list ProgressEvent)
    (b : Browser.t) :
  run (mk st [mkTask (ConvertFiles files s t) (InMock t0 []) deeds rep] b)
      (repeat (TimersFire 0 t1) (rounds files))
  = mk st [mkTask (ConvertFiles files s t)
                  (Finished (Converted (fst (fst (MockConversionApi.convertFiles
                                                    files s t t0 t1 b)))))
                  (deeds ++ [MockReturned])
                  (rep ++ snd (fst (MockConversionApi.convertFiles files s t t0 t1 b)))]
       (snd (MockConversionApi.convertFiles files s t t0 t1 b)).
Proof.
  rewrite convertFiles_conclude. cbn [fst snd].
  destruct files as [| file rest].
  - cbn. rewrite app_nil_r. reflexivity.
  - assert (Hr : rounds (file :: rest) = List.length (file :: rest))
      by (unfold rounds; cbn [List.length]; lia).
    rewrite Hr.
    pose proof (rounds_are_the_loop (file :: rest) [] s t t0 t1 st [] deeds rep b) as H.
    cbn [app] in H. change (List.length (@nil File.t)) with 0%nat in H.
    rewrite H; [| discriminate | reflexivity].
    destruct (MockConversionApi.convertLoop (file :: rest) 0 (List.length (file :: rest)) t b)
      as [[rs evs] b']. reflexivity.
Qed.

Lemma run_cons (x : SmartSession.t) (m : Move) (moves : list Move) :
  run x (m :: moves) = run (move x m) moves.
Proof. reflexivity. Qed.

(** Timers that fire for a call outside the mock change nothing. *)
Lemma timers_outside_mock (n : nat) (st : SmartConversionService.State) (task : Task)
    (b : Browser.t) (t1 : Z) :
  (forall t0 results, phase task <> InMock t0 results) ->
  run (mk st [task] b) (repeat (TimersFire 0 t1) n) = mk st [task] b.
Proof.
  intros Hp. induction n as [| n IH]; [reflexivity |].
  cbn [repeat]. rewrite run_cons.
  assert (E : move (mk st [task] b) (TimersFire 0 t1) = mk st [task] b).
  { unfold move. cbn [target tasks nth_error backendAvailable browser]. unfold advance.
    destruct (phase task) eqn:Ephase; try reflexivity. now elim (Hp startTime results). }
  rewrite E. exact IH.
Qed.

(** The call once it knows the availability [a], alone, with the real
    client and the timers answering. *)
Lemma proceed_runs_alone (a : bool) (deeds : list Deed)
    (files : list File.t) (s t : string) (remote : ConversionApi.Remote) (t0 t1 : Z)
    (b : Browser.t) :
  let y := run (mk (Some a) [proceed a (ConvertFiles files s t) t0 deeds] b)
               (BackendSettles 0 remote t0 :: repeat (TimersFire 0 t1) (rounds files)) in
  let mock := MockConversionApi.convertFiles files s t t0 t1 b in
  exists deeds',
    y = if a
        then match ConversionApi.convertFiles files s t remote with
             | (Resolved o, evs) =>
                 mk (Some true) [mkTask (ConvertFiles files s t) (Finished (Converted o))
                                        deeds' evs] b
             | (Waiting, evs) =>
                 mk (Some true) [mkTask (ConvertFiles files s t) AwaitingBackend deeds' []] b
             | (Rejected _, evs) =>
                 mk (Some false) [mkTask (ConvertFiles files s t)
                                         (Finished (Converted (fst (fst mock))))
                                         deeds' (evs ++ snd (fst mock))] (snd mock)
             end
        else mk (Some false) [mkTask (ConvertFiles files s t)
                                     (Finished (Converted (fst (fst mock))))
                                     deeds' (snd (fst mock))] (snd mock).
Proof.
  intros y mock. subst y mock. rewrite run_cons.
  destruct a; cbn [proceed]; unfold move;
    cbn [target tasks nth_error backendAvailable browser]; unfold advance;
    cbn [phase request did reported].
  - destruct (ConversionApi.convertFiles files s t remote) as [[o | err |] evs];
      cbn [replaceNth app].
    + rewrite timers_outside_mock by (intros; discriminate). eexists. reflexivity.
    + rewrite mock_alone. eexists. reflexivity.
    + rewrite timers_outside_mock by (intros; discriminate). eexists. reflexivity.
  - rewrite mock_alone. eexists. reflexivity.
Qed.

(** The function [SmartConversionService.convertFiles] tells what a call
    does that runs alone and whose requests are answered in turn: the
    health request (if one is made), the real client (if it is called),
    then the timers of the mock (if it is entered). *)
Lemma convertFiles_runs_alone
    (st : SmartConversionService.State) (files : list File.t) (s t : string)
    (env : SmartConversionService.CallEnv) (b : Browser.t) :
  let r := SmartConversionService.convertFiles st files s t env b in
  let x := run (mk st [] b)
               (Calls (ConvertFiles files s t) (SmartConversionService.mockStart env)
                  :: HealthAnswers 0 (SmartConversionService.health env)
                       (SmartConversionService.mockStart env)
                  :: BackendSettles 0 (SmartConversionService.remote env)
                       (SmartConversionService.mockStart env)
                  :: repeat (TimersFire 0 (SmartConversionService.mockEnd env))
                            (rounds files)) in
  backendAvailable x = SmartConversionService.after r /\
  browser x = SmartConversionService.browser r /\
  exists task,
    tasks x = [task] /\
    phase task = match SmartConversionService.reply r with
                 | Some o => Finished (Converted o)
                 | None => AwaitingBackend
                 end /\
    (SmartConversionService.reply r <> None ->
     reported task = SmartConversionService.reported r).
Proof.
  intros r x. subst r x.
  unfold SmartConversionService.convertFiles, SmartConversionService.checkBackendAvailability.
  do 2 rewrite run_cons.
  assert (E : exists a deeds,
             move (move (mk st [] b)
                        (Calls (ConvertFiles files s t) (SmartConversionService.mockStart env)))
                  (HealthAnswers 0 (SmartConversionService.health env)
                                 (SmartConversionService.mockStart env))
             = mk (Some a) [proceed a (ConvertFiles files s t)
                                    (SmartConversionService.mockStart env) deeds] b /\
             a = match st with
                 | Some cached => cached
                 | None => match ConversionApi.checkHealth (SmartConversionService.health env)
                           with Fulfilled _ => true | Thrown _ => false end
                 end).
  { destruct st as [a |].
    - exists a, []. split; [| reflexivity]. destruct a; reflexivity.
    - eexists. eexists. split; [reflexivity |]. reflexivity. }
  destruct E as (a & deeds & -> & Ha).
  destruct (proceed_runs_alone a deeds files s t (SmartConversionService.remote env)
              (SmartConversionService.mockStart env) (SmartConversionService.mockEnd env) b)
    as [deeds' ->].
  destruct st as [cached |]; [| destruct (ConversionApi.checkHealth
                                            (SmartConversionService.health env))];
    subst a; cbn [fst snd];
    try (destruct (ConversionApi.convertFiles files s t (SmartConversionService.remote env))
          as [[o | err |] evs]);
    try destruct cached;
    try (destruct (ConversionApi.convertFiles files s t (SmartConversionService.remote env))
          as [[o | err |] evs]);
    destruct (MockConversionApi.convertFiles files s t
                (SmartConversionService.mockStart env)
                (SmartConversionService.mockEnd env) b) as [[o' mockEvs] b'];
    cbn; (split; [reflexivity |]); (split; [reflexivity |]);
    eexists; (split; [reflexivity |]); (split; [reflexivity |]);
    first [reflexivity | intros H; now elim H | intros _; reflexivity].
Qed.

End RunningAlone.
Section ReducerLaws.
Import AppContext UseConversion.

Lemma without_beyond {A} (i : nat) (l : list A) : (List.length l <= i)%nat -> without i l = l.
Proof.
  intros H. unfold without. rewrite firstn_all2 by exact H.
  rewrite skipn_all2 by lia. apply app_nil_r.
Qed.

(** Removing at an index beyond the end is a no-op: the session, browser
    included, is left exactly as it was and nothing is revoked. *)
Theorem removeFile_beyond_end (i : nat) (x : Session) :
  (List.length (selectedFiles (state x)) <= i)%nat ->
  (List.length (previewUrls (state x)) <= i)%nat ->
  removeFile i x = x.
Proof.
  intros Hf Hp. unfold removeFile, dispatch.
  assert (E : nth_error (previewUrls (state x)) i = None) by now apply nth_error_None.
  rewrite E. cbn. rewrite !filterIndex_without, !without_beyond by assumption.
  destruct x as [[] ?]. reflexivity.
Qed.

Lemma removeFile_beyond_end_witness : removeFile 3 sampleSession = sampleSession.
Proof. apply removeFile_beyond_end; cbn; lia. Defined.

Lemma without_last {A} (l : list A) (x : A) : without (List.length l) (l ++ [x]) = l.
Proof.
  unfold without. rewrite firstn_app, firstn_all, Nat.sub_diag. cbn [firstn].
  rewrite app_nil_r. rewrite skipn_all2; [apply app_nil_r |].
  rewrite length_app. simpl. lia.
Qed.

(** Adding one file and removing it again restores both lists; if the
    file is an image, the URL minted for its preview is the one revoked, and
    otherwise nothing is minted or revoked. *)
Theorem add_then_remove (f : File.t) (x : Session) :
  List.length (selectedFiles (state x)) = List.length (previewUrls (state x)) ->
  let y := removeFile (List.length (selectedFiles (state x))) (addFiles [f] x) in
  selectedFiles (state y) = selectedFiles (state x) /\
  previewUrls (state y) = previewUrls (state x) /\
  Browser.revoked (browser y) =
    (if String.prefix "image/" (File.type f)
     then Browser.nextObjectUrl (browser x) :: Browser.revoked (browser x)
     else Browser.revoked (browser x)) /\
  Browser.nextObjectUrl (browser y) =
    (if String.prefix "image/" (File.type f)
     then S (Browser.nextObjectUrl (browser x))
     else Browser.nextObjectUrl (browser x)).
Proof.
  intros Hlen y.
  assert (Hy : y = removeFile (List.length (selectedFiles (state x))) (addFiles [f] x))
    by reflexivity.
  clearbody y. unfold addFiles in Hy. cbn [generatePreviewUrls] in Hy.
  set (n := List.length (selectedFiles (state x))) in *.
  destruct (String.prefix "image/" (File.type f)).
  - cbn [Browser.createObjectURL dispatch appReducer orEmpty state browser] in Hy.
    unfold removeFile, dispatch in Hy.
    cbn [state browser appReducer orEmpty withFiles previewUrls selectedFiles] in Hy.
    rewrite nth_error_app2 in Hy by lia.
    replace (n - List.length (previewUrls (state x)))%nat with 0%nat in Hy by lia.
    cbn [nth_error] in Hy. subst y.
    cbn [state browser appReducer withFiles selectedFiles previewUrls
         Browser.revokeObjectURL Browser.revoked Browser.nextObjectUrl].
    rewrite !filterIndex_without. unfold n at 1. rewrite without_last.
    rewrite Hlen, without_last. repeat split; reflexivity.
  - cbn [dispatch appReducer orEmpty state browser] in Hy.
    unfold removeFile, dispatch in Hy.
    cbn [state browser appReducer orEmpty withFiles previewUrls selectedFiles] in Hy.
    rewrite nth_error_app2 in Hy by lia.
    replace (n - List.length (previewUrls (state x)))%nat with 0%nat in Hy by lia.
    cbn [nth_error] in Hy. subst y.
    cbn [state browser appReducer withFiles selectedFiles previewUrls].
    rewrite !filterIndex_without. unfold n at 1. rewrite without_last.
    rewrite Hlen, without_last. repeat split; reflexivity.
Qed.

Lemma add_then_remove_witness :
  previewUrls (state (removeFile 3 (addFiles [File.mk "d.gif" 5 "image/gif"] sampleSession)))
  = [Some 0%nat; Some 1%nat; None] /\
  Browser.revoked (browser (removeFile 3 (addFiles [File.mk "d.gif" 5 "image/gif"]
                                                   sampleSession))) = [2%nat].
Proof.
  destruct (add_then_remove (File.mk "d.gif" 5 "image/gif") sampleSession eq_refl)
    as (_ & Hp & Hr & _).
  split; [exact Hp | exact Hr].
Defined.

Lemma filter_keeps_all {A} (p : A -> bool) (l : list A) :
  (forall x, In x l -> p x = true) -> filter p l = l.
Proof.
  induction l as [| x rest IH]; intros H; [reflexivity |].
  simpl. rewrite (H x (or_introl eq_refl)). f_equal. apply IH.
  intros y Hy. apply H. now right.
Qed.

(** Notifications: with notifications switched off [ADD_NOTIFICATION]
    changes nothing; switched on, it appends one entry, and removing that
    entry by its identifier gives the state back when no older entry has the
    same identifier.  After [REMOVE_NOTIFICATION] no entry with that
    identifier is left. *)
Theorem notification_round_trip (s : State) (i : Q) (kind message title : string) :
  (notificationsEnabled s = false ->
   appReducer s (ADD_NOTIFICATION i kind message title) = s) /\
  (notificationsEnabled s = true ->
   (forall n, In n (notifications s) -> ~ id n == i) ->
   appReducer (appReducer s (ADD_NOTIFICATION i kind message title))
              (REMOVE_NOTIFICATION i) = s) /\
  (forall n, In n (notifications (appReducer s (REMOVE_NOTIFICATION i))) ->
             In n (notifications s) /\ ~ id n == i).
Proof.
  split; [| split].
  - intros E. cbn. now rewrite E.
  - intros E Hfresh. cbn. rewrite E. cbn.
    rewrite filter_app. cbn. rewrite Qeq_bool_refl. cbn. rewrite app_nil_r.
    rewrite filter_keeps_all.
    + destruct s. reflexivity.
    + intros n Hn. apply negb_true_iff. destruct (Qeq_bool (id n) i) eqn:Eq; [| reflexivity].
      apply Qeq_bool_iff in Eq. exfalso. exact (Hfresh n Hn Eq).
  - intros n Hn. cbn in Hn. apply filter_In in Hn. destruct Hn as [Hin Hb].
    split; [exact Hin |]. intros Eq. apply Qeq_bool_iff in Eq. rewrite Eq in Hb.
    discriminate Hb.
Qed.

Lemma notification_round_trip_witness :
  appReducer (appReducer (initialState false) (ADD_NOTIFICATION (7 # 2) "info" "m" "t"))
             (REMOVE_NOTIFICATION (7 # 2)) = initialState false.
Proof.
  apply (proj1 (proj2 (notification_round_trip (initialState false) (7 # 2) "info" "m" "t"))).
  - reflexivity.
  - intros n Hn. contradiction.
Defined.

(** A conversion seen by the reducer: after [START_CONVERSION], any
    number of progress updates and [COMPLETE_CONVERSION], the state is not
    converting, progress is 100 whatever was reported or however many files
    failed, the results are those handed over, and selection, files,
    previews, theme and notifications are as before the start. *)
Theorem conversion_lifecycle (s : State) (percents : list Z) (results : list Result.t) :
  let running := fold_left (fun acc p => appReducer acc (UPDATE_PROGRESS p)) percents
                           (appReducer s START_CONVERSION) in
  let final := appReducer running (COMPLETE_CONVERSION results) in
  isConverting running = true /\ conversionResults running = [] /\
  progress running = last percents 0%Z /\
  final = mkState (darkMode s) (notificationsEnabled s) (selectedCategory s)
                  (sourceFormat s) (targetFormat s) (selectedFiles s) (previewUrls s)
                  false 100 results (notifications s).
Proof.
  intros running final. subst final running.
  assert (H : forall ps st,
             fold_left (fun acc p => appReducer acc (UPDATE_PROGRESS p)) ps st
             = mkState (darkMode st) (notificationsEnabled st) (selectedCategory st)
                       (sourceFormat st) (targetFormat st) (selectedFiles st)
                       (previewUrls st) (isConverting st) (last ps (progress st))
                       (conversionResults st) (notifications st)).
  { induction ps as [| p ps IH]; intros st; [destruct st; reflexivity |].
    cbn [fold_left]. rewrite IH. cbn. f_equal.
    destruct ps as [| q ps]; [reflexivity |].
    change (last (p :: q :: ps) (progress st)) with (last (q :: ps) (progress st)).
    clear. generalize q. induction ps as [| r ps IHp]; intros q'; [reflexivity |].
    change (last (q' :: r :: ps) p) with (last (r :: ps) p).
    change (last (q' :: r :: ps) (progress st)) with (last (r :: ps) (progress st)).
    apply IHp. }
  rewrite H. cbn. repeat split; reflexivity.
Qed.

End ReducerLaws.
Section PreviewLifetime.
Import AppContext UseConversion.

Lemma revokeAll_log (ps : list (option nat)) :
  forall b : Browser.t,
    Browser.revoked (revokeAll ps b) = (rev (live ps) ++ Browser.revoked b)%list /\
    Browser.nextObjectUrl (revokeAll ps b) = Browser.nextObjectUrl b /\
    Browser.issued (revokeAll ps b) = Browser.issued b.
Proof.
  induction ps as [| [v |] rest IH]; intros b; cbn [revokeAll fold_left live].
  - repeat split.
  - destruct (IH (Browser.revokeObjectURL v b)) as (Hr & Hn & Hi).
    unfold revokeAll in *. rewrite Hr, Hn, Hi. cbn.
    rewrite <- app_assoc. repeat split.
  - apply IH.
Qed.

(** [clearFiles], [resetConversion] and [resetConversionKeepCategory]
    release every preview: in a reachable session each of them empties both
    lists, puts every URL that a preview held into the revocation log
    exactly once, and revokes nothing else. *)
Theorem discard_releases_previews (x y : Session) :
  reachable x ->
  y = clearFiles x \/ y = resetConversion x \/ y = resetConversionKeepCategory x ->
  selectedFiles (state y) = [] /\ previewUrls (state y) = [] /\
  Browser.revoked (browser y)
    = (rev (live (previewUrls (state x))) ++ Browser.revoked (browser x))%list /\
  (forall u, In u (live (previewUrls (state x))) ->
             count_occ Nat.eq_dec (Browser.revoked (browser y)) u = 1%nat) /\
  (forall u, ~ In u (live (previewUrls (state x))) ->
             count_occ Nat.eq_dec (Browser.revoked (browser y)) u
             = count_occ Nat.eq_dec (Browser.revoked (browser x)) u).
Proof.
  intros Hreach Hy.
  assert (Hstep : step x y).
  { destruct Hy as [-> | [-> | ->]]; constructor. }
  pose proof (reachable_invariant y
                (steps_reachable x y Hreach (steps_more _ _ _ (steps_refl x) Hstep)))
    as [_ _ Hwf].
  assert (Hlog : Browser.revoked (browser y)
                 = (rev (live (previewUrls (state x))) ++ Browser.revoked (browser x))%list).
  { destruct Hy as [-> | [-> | ->]]; cbn;
      exact (proj1 (revokeAll_log (previewUrls (state x)) (browser x))). }
  split; [destruct Hy as [-> | [-> | ->]]; reflexivity |].
  split; [destruct Hy as [-> | [-> | ->]]; reflexivity |].
  split; [exact Hlog |]. split.
  - intros u Hu.
    apply (proj1 (NoDup_count_occ' Nat.eq_dec _) (Browser.revoked_once _ Hwf)).
    rewrite Hlog. apply in_or_app. left. now apply in_rev in Hu.
  - intros u Hu. rewrite Hlog, count_occ_app.
    rewrite (proj1 (count_occ_not_In Nat.eq_dec _ u)); [reflexivity |].
    intros Hin. apply Hu. now apply in_rev.
Qed.

Lemma discard_releases_previews_witness :
  Browser.revoked (browser (clearFiles sampleSession)) = [1%nat; 0%nat] /\
  count_occ Nat.eq_dec (Browser.revoked (browser (clearFiles sampleSession))) 0%nat = 1%nat.
Proof.
  assert (R : reachable sampleSession).
  { exists false, (fun _ => 0).
    exact (steps_more _ _ _ (steps_refl _) (step_addFiles sampleFiles _)). }
  destruct (discard_releases_previews sampleSession (clearFiles sampleSession) R
              (or_introl eq_refl)) as (_ & _ & Hlog & Hone & _).
  split; [exact Hlog |]. apply Hone. cbn. now left.
Defined.

(** [setFiles] replaces the selection without releasing anything: the
    revocation log is unchanged, so in a reachable session every URL that a
    preview held before is neither held by a preview nor revoked afterwards. *)
Theorem setFiles_releases_nothing (fs : list File.t) (x : Session) :
  reachable x ->
  selectedFiles (state (setFiles fs x)) = fs /\
  Browser.revoked (browser (setFiles fs x)) = Browser.revoked (browser x) /\
  forall u, In u (live (previewUrls (state x))) ->
            ~ In u (Browser.revoked (browser (setFiles fs x))) /\
            ~ In u (live (previewUrls (state (setFiles fs x)))).
Proof.
  intros Hreach. pose proof (reachable_invariant x Hreach) as Hinv.
  pose proof Hinv as [_ _ Hwf].
  unfold setFiles.
  destruct (generatePreviewUrls fs (browser x)) as [us b] eqn:E.
  destruct (generatePreviewUrls_spec _ _ _ _ Hwf E) as (_ & Hrev & _ & _ & Hlive & _ & _).
  cbn. split; [reflexivity |]. split; [exact Hrev |].
  intros u Hu. destruct (invariant_live x Hinv u Hu) as [Hlt Hnot].
  split; [now rewrite Hrev |].
  intros Hin. specialize (Hlive u Hin). lia.
Qed.

Lemma setFiles_releases_nothing_witness :
  ~ In 0%nat (Browser.revoked (browser (setFiles [] sampleSession))) /\
  ~ In 0%nat (live (previewUrls (state (setFiles [] sampleSession)))).
Proof.
  assert (R : reachable sampleSession).
  { exists false, (fun _ => 0).
    exact (steps_more _ _ _ (steps_refl _) (step_addFiles sampleFiles _)). }
  apply (proj2 (proj2 (setFiles_releases_nothing [] sampleSession R)) 0%nat).
  cbn. now left.
Defined.

Lemma generatePreviewUrls_live (files : list File.t) :
  forall b : Browser.t,
    let isImage := fun f => String.prefix "image/" (File.type f) in
    live (fst (generatePreviewUrls files b))
      = seq (Browser.nextObjectUrl b) (List.length (filter isImage files)) /\
    Browser.nextObjectUrl (snd (generatePreviewUrls files b))
      = (Browser.nextObjectUrl b + List.length (filter isImage files))%nat /\
    map (fun p => match p with Some _ => true | None => false end)
        (fst (generatePreviewUrls files b))
      = map isImage files.
Proof.
  induction files as [| file rest IH]; intros b isImage; subst isImage.
  - cbn. repeat split. lia.
  - cbn [generatePreviewUrls filter map].
    destruct (String.prefix "image/" (File.type file)) eqn:Et.
    + cbn [Browser.createObjectURL].
      match goal with
      | |- context [generatePreviewUrls rest ?b1] =>
          specialize (IH b1); destruct (generatePreviewUrls rest b1) as [us b2]
      end.
      cbn in *. destruct IH as (Hl & Hn & Hm). rewrite Hl, Hn, Hm.
      repeat split. lia.
    + specialize (IH b). destruct (generatePreviewUrls rest b) as [us b2].
      cbn in *. destruct IH as (Hl & Hn & Hm). rewrite Hl, Hn, Hm. repeat split.
Qed.

(** [generatePreviewUrls] yields one preview per file, a URL for a file
    whose type starts with 'image/' and [null] for any other; the URLs are
    consecutive fresh serial numbers in the order of the image files, and
    nothing is minted for the other files. *)
Theorem generatePreviewUrls_exact (files : list File.t) (b : Browser.t) :
  let isImage := fun f => String.prefix "image/" (File.type f) in
  let previews := fst (generatePreviewUrls files b) in
  let b' := snd (generatePreviewUrls files b) in
  List.length previews = List.length files /\
  map (fun p => match p with Some _ => true | None => false end) previews
    = map isImage files /\
  live previews = seq (Browser.nextObjectUrl b) (List.length (filter isImage files)) /\
  Browser.nextObjectUrl b'
    = (Browser.nextObjectUrl b + List.length (filter isImage files))%nat /\
  Browser.revoked b' = Browser.revoked b.
Proof.
  intros isImage previews b'. subst previews b'.
  destruct (generatePreviewUrls_live files b) as (Hl & Hn & Hm).
  split; [| split; [exact Hm | split; [exact Hl | split; [exact Hn |]]]].
  - rewrite <- (length_map (fun p : option nat => match p with Some _ => true | None => false end)),
      Hm. apply length_map.
  - apply generatePreviewUrls_revoked.
Qed.

End PreviewLifetime.
Section RunningAConversion.
Import AppContext UseConversion ConversionHook.

(** A notification touches nothing but the notifications and the random
    source. *)
Lemma notify_frame (now : Z) (kind message title : string) (x : Session) :
  let s' := state (notify now kind message title x) in
  selectedFiles s' = selectedFiles (state x) /\
  previewUrls s' = previewUrls (state x) /\
  isConverting s' = isConverting (state x) /\
  progress s' = progress (state x) /\
  conversionResults s' = conversionResults (state x) /\
  Browser.revoked (browser (notify now kind message title x)) = Browser.revoked (browser x).
Proof.
  unfold notify. destruct (notificationsEnabled (state x)) eqn:E; cbn; rewrite E; cbn;
    repeat split; reflexivity.
Qed.

Lemma reportProgress_frame (events : list ProgressEvent) :
  forall x : Session,
    let s' := state (reportProgress events x) in
    selectedFiles s' = selectedFiles (state x) /\
    previewUrls s' = previewUrls (state x) /\
    isConverting s' = isConverting (state x) /\
    conversionResults s' = conversionResults (state x) /\
    browser (reportProgress events x) = browser x.
Proof.
  induction events as [| ev rest IH]; intros x; [cbn; repeat split |].
  cbn [reportProgress fold_left]. specialize (IH (dispatch (UPDATE_PROGRESS (fst ev)) x)).
  unfold reportProgress in *. cbn in *. exact IH.
Qed.

(** Running a conversion from the page.  Without files, or with a source
    or target format missing, nothing happens but the error text: no
    dispatch, no call of the service, nothing tracked, [null] returned.
    Otherwise the function never takes its failure branch (both clients
    answer [success: true], so no error is set and 'Conversion Failed' is
    never shown, however many files failed): either the service is still
    pending, the state is converting with no results; or the state is no
    longer converting, progress is 100, the results are those of the
    service, one record is tracked if and only if a user is signed in, and a
    mock answer holds one result per selected file.  The selection is never
    changed. *)
Theorem hook_convertFiles_outcomes (h : Hook) (env : HookEnv) :
  let h' := fst (convertFiles h env) in
  let ret := snd (convertFiles h env) in
  let s' := state (session h') in
  user h' = user h /\
  selectedFiles s' = selectedFiles (state (session h)) /\
  previewUrls s' = previewUrls (state (session h)) /\
  (~ ready h ->
   h' = mkHook (session h) (service h) (Some guardMessage) (user h) (tracked h) /\
   ret = ReturnedNull) /\
  (ready h ->
   error h' = None /\
   match ret with
   | StillRunning =>
       isConverting s' = true /\ conversionResults s' = [] /\ tracked h' = tracked h /\
       service h' = Some true
   | ReturnedResult o =>
       Outcome.success o = true /\
       isConverting s' = false /\ progress s' = 100%Z /\
       conversionResults s' = Outcome.results o /\
       tracked h' = (if user h
                     then (tracked h ++ [OutcomeRecord (Outcome.conversionData o)])%list
                     else tracked h) /\
       (service h' = Some false ->
        List.length (conversionResults s') = List.length (selectedFiles (state (session h))))
   | ReturnedNull | ReturnedFailure => False
   end).
Proof.
  intros h' ret s'. subst s' ret h'. unfold convertFiles, ready.
  destruct (selectedFiles (state (session h))) as [| file rest] eqn:Ef.
  { cbn. split; [reflexivity |]. split; [first [exact Ef | reflexivity] |].
    split; [reflexivity |]. split; [intros _; split; reflexivity |].
    intros (Hne & _). now elim Hne. }
  destruct (sourceFormat (state (session h))) as [source |] eqn:Es.
  2:{ cbn. split; [reflexivity |]. split; [first [exact Ef | reflexivity] |].
    split; [reflexivity |]. split; [intros _; split; reflexivity |].
    intros (_ & Hm & _). discriminate Hm. }
  destruct (targetFormat (state (session h))) as [target |] eqn:Et.
  2:{ cbn. split; [reflexivity |]. split; [first [exact Ef | reflexivity] |].
    split; [reflexivity |]. split; [intros _; split; reflexivity |].
    intros (_ & _ & Hm). discriminate Hm. }
  destruct (missing (Some source) || missing (Some target)) eqn:Em.
  { cbn. split; [reflexivity |]. split; [first [exact Ef | reflexivity] |].
    split; [reflexivity |]. split; [intros _; split; reflexivity |].
    intros (_ & Hs & Ht). cbn in Em. rewrite Hs, Ht in Em. discriminate Em. }
  set (x1 := dispatch START_CONVERSION (session h)).
  set (x2 := notify (startedAt env) "info" _ "Conversion Started" x1).
  pose proof (convertFiles_flag
                (service h) (file :: rest) source target (call env) (browser x2)) as Hp.
  cbn zeta in Hp.
  set (run := SmartConversionService.convertFiles
                (service h) (file :: rest) source target (call env) (browser x2)) in *.
  set (x3 := reportProgress (SmartConversionService.reported run)
                            (mkSession (state x2) (SmartConversionService.browser run))).
  destruct (notify_frame (startedAt env) "info"
              ("Starting conversion of " ++ showNat (List.length (file :: rest))
                 ++ " file(s) from " ++ source ++ " to " ++ target)
              "Conversion Started" x1) as (Hf2 & Hp2 & Hc2 & _ & Hr2 & _).
  fold x2 in Hf2, Hp2, Hc2, Hr2.
  destruct (reportProgress_frame (SmartConversionService.reported run)
              (mkSession (state x2) (SmartConversionService.browser run)))
    as (Hf3 & Hp3 & Hc3 & Hr3 & _).
  fold x3 in Hf3, Hp3, Hc3, Hr3. cbn [state] in Hf3, Hp3, Hc3, Hr3.
  assert (Hx1f : selectedFiles (state x1) = file :: rest) by (subst x1; cbn; exact Ef).
  assert (Hx1p : previewUrls (state x1) = previewUrls (state (session h)))
    by (subst x1; reflexivity).
  destruct (SmartConversionService.reply run) as [o |] eqn:Er.
  - destruct Hp as [Hsucc Hpath]. rewrite Hsucc.
    set (x4 := dispatch (COMPLETE_CONVERSION (Outcome.results o)) x3).
    destruct (notify_frame (finishedAt env) "success" (Outcome.message o)
                "Conversion Complete!" x4) as (Hf5 & Hp5 & Hc5 & Hg5 & Hr5 & _).
    cbn [fst snd session user error tracked service].
    split; [reflexivity |].
    split; [rewrite Hf5; subst x4; cbn; rewrite Hf3, Hf2; exact Hx1f |].
    split; [rewrite Hp5; subst x4; cbn; rewrite Hp3, Hp2; exact Hx1p |].
    split; [intros Hn; exfalso; apply Hn; repeat split;
            [discriminate | apply orb_false_iff in Em; tauto
             | apply orb_false_iff in Em; tauto] |].
    intros _. split; [reflexivity |].
    split; [exact Hsucc |].
    split; [rewrite Hc5; reflexivity |].
    split; [rewrite Hg5; reflexivity |].
    split; [rewrite Hr5; reflexivity |].
    split; [reflexivity |].
    intros Hflag. rewrite Hr5. subst x4. cbn.
    destruct Hpath as [Ha | Hl];
      [rewrite Ha in Hflag; discriminate Hflag | exact Hl].
  - rename Hp into Ha.
    cbn [fst snd session user error tracked service].
    split; [reflexivity |].
    split; [rewrite Hf3, Hf2; exact Hx1f |].
    split; [rewrite Hp3, Hp2; exact Hx1p |].
    split; [intros Hn; exfalso; apply Hn; repeat split;
            [discriminate | apply orb_false_iff in Em; tauto
             | apply orb_false_iff in Em; tauto] |].
    intros _. split; [reflexivity |].
    split; [rewrite Hc3, Hc2; reflexivity |].
    split; [rewrite Hr3, Hr2; reflexivity |].
    split; [reflexivity | exact Ha].
Qed.

Lemma hook_convertFiles_outcomes_witness :
  error (fst (convertFiles sampleHook sampleHookEnv)) = None /\
  snd (convertFiles (mkHook (start false (fun _ => 0)) None None false []) sampleHookEnv)
  = ReturnedNull.
Proof.
  split.
  - pose proof (hook_convertFiles_outcomes sampleHook sampleHookEnv) as H.
    cbv zeta in H. destruct H as (_ & _ & _ & _ & H).
    assert (R : ready sampleHook).
    { unfold ready. split; [intros E; vm_compute in E; discriminate E |].
      split; reflexivity. }
    pose proof (H R) as H2. destruct H2 as [He _]. exact He.
  - pose proof (hook_convertFiles_outcomes
                  (mkHook (start false (fun _ => 0)) None None false []) sampleHookEnv) as H.
    cbv zeta in H. destruct H as (_ & _ & _ & H & _).
    assert (N : ~ ready (mkHook (start false (fun _ => 0)) None None false []))
      by (intros (Hne & _); now apply Hne).
    pose proof (H N) as H2. destruct H2 as [_ Hr]. exact Hr.
Defined.

End RunningAConversion.
Section LocalHistory.
Import AppHistory.

Lemma addToHistory_window {A} (c : A) (l : list A) :
  addToHistory c (firstn 10 l) = firstn 10 (c :: l).
Proof.
  unfold addToHistory. change (firstn 10 (c :: l)) with (c :: firstn 9 l).
  f_equal. rewrite firstn_firstn. reflexivity.
Qed.

Lemma addToHistory_firstn {A} (c : A) (l : list A) :
  addToHistory c l = firstn 10 (c :: l).
Proof. reflexivity. Qed.

(** The local history keeps the ten most recent conversions, newest
    first: adding conversions one after the other to any earlier history
    leaves the first ten entries of (the additions, latest first, followed
    by the earlier history); so it never holds more than ten entries once
    something was added, even when the history loaded at sign-in was
    longer. *)
Theorem addToHistory_keeps_latest_ten {A} (conversions prev : list A) :
  conversions <> [] ->
  addAll conversions prev = firstn 10 (rev conversions ++ prev) /\
  (List.length (addAll conversions prev) <= 10)%nat.
Proof.
  intros Hne.
  assert (H : addAll conversions prev = firstn 10 (rev conversions ++ prev)).
  { destruct conversions as [| c cs]; [now elim Hne |]. clear Hne.
    unfold addAll. cbn [fold_left]. rewrite addToHistory_firstn.
    revert c prev. induction cs as [| d cs IH]; intros c prev; [reflexivity |].
    cbn [fold_left]. rewrite addToHistory_window.
    rewrite (IH d (c :: prev)). cbn [rev]. rewrite <- !app_assoc. reflexivity. }
  split; [exact H |]. rewrite H. apply firstn_le_length.
Qed.

Lemma addToHistory_keeps_latest_ten_witness :
  addAll [1; 2; 3]%nat [10; 11; 12; 13; 14; 15; 16; 17; 18; 19; 20; 21]%nat
  = [3; 2; 1; 10; 11; 12; 13; 14; 15; 16]%nat.
Proof.
  apply (proj1 (addToHistory_keeps_latest_ten [1; 2; 3]%nat
                  [10; 11; 12; 13; 14; 15; 16; 17; 18; 19; 20; 21]%nat
                  ltac:(discriminate))).
Defined.

End LocalHistory.
Section HistoryFigures.
Import FirestoreService.




Lemma total_time_bounds (lo hi : Z) (history : list HistoryRecord) :
  (forall r, In r history -> (lo <= timeOf r <= hi)%Z) ->
  forall acc,
    (acc + Z.of_nat (List.length history) * lo
     <= fold_left (fun sum record => (sum + timeOf record)%Z) history acc
     <= acc + Z.of_nat (List.length history) * hi)%Z.
Proof.
  induction history as [| r rest IH]; intros Hb acc; [cbn; lia |].
  cbn [fold_left List.length].
  specialize (IH (fun r' Hr' => Hb r' (or_intror Hr')) (acc + timeOf r)%Z).
  pose proof (Hb r (or_introl eq_refl)). lia.
Qed.

(** The average processing time is 0 for an empty history; otherwise it
    lies between any two whole numbers that bound the time of every record
    (a record without a time counting as 0). *)
Theorem calculateAverageProcessingTime_bounds (lo hi : Z) (history : list HistoryRecord) :
  (history = [] -> calculateAverageProcessingTime history = 0%Z) /\
  (history <> [] ->
   (forall r, In r history -> (lo <= timeOf r <= hi)%Z) ->
   (lo <= calculateAverageProcessingTime history <= hi)%Z).
Proof.
  split; [intros ->; reflexivity |].
  intros Hne Hb. destruct history as [| r0 rest]; [now elim Hne |].
  set (history := r0 :: rest) in *. unfold calculateAverageProcessingTime. fold history.
  pose proof (total_time_bounds lo hi history Hb 0%Z) as Ht.
  set (total := fold_left (fun sum record => (sum + timeOf record)%Z) history 0%Z) in *.
  set (n := List.length history) in *.
  assert (Hn : (0 < Z.of_nat n)%Z) by (subst n history; simpl; lia).
  assert (Hpos : 0 < inject_Z (Z.of_nat n)).
  { change 0 with (inject_Z 0). now rewrite <- Zlt_Qlt. }
  assert (Hlo : inject_Z lo * inject_Z (Z.of_nat n) <= inject_Z total).
  { rewrite <- inject_Z_mult, <- Zle_Qle. lia. }
  assert (Hhi : inject_Z total <= inject_Z hi * inject_Z (Z.of_nat n)).
  { rewrite <- inject_Z_mult, <- Zle_Qle. lia. }
  split.
  - apply (Z.le_trans _ (Browser.mathRound (inject_Z lo)));
      [rewrite mathRound_integer; lia |].
    apply mathRound_monotone. now apply Qle_shift_div_l.
  - apply (Z.le_trans _ (Browser.mathRound (inject_Z hi)));
      [| rewrite mathRound_integer; lia].
    apply mathRound_monotone. now apply Qle_shift_div_r.
Qed.

Lemma calculateAverageProcessingTime_bounds_witness :
  (0 <= calculateAverageProcessingTime [mkRecord true (Some 120%Z); mkRecord false None] <= 120)%Z.
Proof.
  apply (proj2 (calculateAverageProcessingTime_bounds 0 120
                  [mkRecord true (Some 120%Z); mkRecord false None])).
  - discriminate.
  - intros r [<- | [<- | []]]; cbn; lia.
Defined.

Lemma insertByCount_perm (x : string * Z) (l : list (string * Z)) :
  Permutation (insertByCount x l) (x :: l).
Proof.
  induction l as [| y rest IH]; cbn; [reflexivity |].
  destruct (snd y <=? snd x)%Z; [reflexivity |].
  rewrite IH. apply perm_swap.
Qed.

Lemma sortByCount_perm (l : list (string * Z)) : Permutation (sortByCount l) l.
Proof.
  induction l as [| x rest IH]; cbn; [reflexivity |].
  rewrite insertByCount_perm. now constructor.
Qed.

Lemma insertByCount_sorted (x : string * Z) (l : list (string * Z)) :
  StronglySorted (fun a c => (snd c <= snd a)%Z) l ->
  StronglySorted (fun a c => (snd c <= snd a)%Z) (insertByCount x l).
Proof.
  induction 1 as [| y rest Hs IH Hy]; cbn; [repeat constructor |].
  destruct (Z.leb_spec (snd y) (snd x)) as [Hle | Hgt].
  - constructor; [now constructor |].
    constructor; [exact Hle |].
    rewrite Forall_forall in *. intros c Hc. specialize (Hy c Hc). lia.
  - constructor; [exact IH |].
    rewrite Forall_forall in *. intros c Hc.
    apply (Permutation_in _ (insertByCount_perm x rest)) in Hc.
    destruct Hc as [<- | Hc]; [lia | now apply Hy].
Qed.

Lemma sortByCount_sorted (l : list (string * Z)) :
  StronglySorted (fun a c => (snd c <= snd a)%Z) (sortByCount l).
Proof.
  induction l as [| x rest IH]; cbn; [constructor | now apply insertByCount_sorted].
Qed.

Lemma StronglySorted_split {A} (R : A -> A -> Prop) (l1 l2 : list A) :
  StronglySorted R (l1 ++ l2) ->
  StronglySorted R l1 /\ forall x y, In x l1 -> In y l2 -> R x y.
Proof.
  induction l1 as [| a l1 IH]; cbn; intros H; [split; [constructor | contradiction] |].
  inversion H as [| ? ? Hs Ha]; subst. destruct (IH Hs) as [Hl Hc].
  apply Forall_app in Ha. destruct Ha as [Ha1 Ha2]. split.
  - now constructor.
  - intros x y [<- | Hx] Hy; [| now apply Hc].
    rewrite Forall_forall in Ha2. now apply Ha2.
Qed.

(** [getMostUsedFormats] shows at most five entries, by decreasing count;
    each comes from an entry of the usage map, with its count; and no entry
    of the map that is left out has a count above that of an entry shown. *)
Theorem getMostUsedFormats_top_five (formatUsage : list (string * Z)) :
  let shown := getMostUsedFormats formatUsage in
  List.length shown = Nat.min 5 (List.length formatUsage) /\
  StronglySorted (fun a c => (snd c <= snd a)%Z) shown /\
  (forall e, In e shown ->
     exists entry, In entry formatUsage /\
                   e = (replaceFirst "_to_" arrow (fst entry), snd entry)) /\
  (exists rest,
     Permutation formatUsage (firstn 5 (sortByCount formatUsage) ++ rest) /\
     map snd shown = map snd (firstn 5 (sortByCount formatUsage)) /\
     forall e entry, In e shown -> In entry rest -> (snd entry <= snd e)%Z).
Proof.
  intros shown. subst shown. unfold getMostUsedFormats.
  pose proof (sortByCount_sorted formatUsage) as Hs.
  pose proof (sortByCount_perm formatUsage) as Hp.
  rewrite <- (firstn_skipn 5 (sortByCount formatUsage)) in Hs.
  destruct (StronglySorted_split _ _ _ Hs) as [Hfirst Hcross].
  split; [| split; [| split]].
  - rewrite length_map, length_firstn, (Permutation_length Hp). reflexivity.
  - apply (StronglySorted_map (fun a c : string * Z => (snd c <= snd a)%Z));
      [| exact Hfirst].
    intros x y _ _ H. exact H.
  - intros e He. apply in_map_iff in He. destruct He as (entry & <- & Hin).
    exists entry. split; [| reflexivity].
    apply (Permutation_in _ Hp).
    rewrite <- (firstn_skipn 5 (sortByCount formatUsage)). apply in_or_app. now left.
  - exists (skipn 5 (sortByCount formatUsage)). split; [| split].
    + rewrite firstn_skipn. now symmetry.
    + rewrite map_map. reflexivity.
    + intros e entry He Hentry. apply in_map_iff in He.
      destruct He as (top & <- & Htop). cbn [snd]. now apply Hcross.
Qed.

Lemma getMostUsedFormats_top_five_witness :
  exists entry,
    In entry [("JPEG_to_PNG", 3%Z); ("PDF_to_DOCX", 7%Z)] /\
    (replaceFirst "_to_" arrow "PDF_to_DOCX", 7%Z)
    = (replaceFirst "_to_" arrow (fst entry), snd entry).
Proof.
  apply (proj1 (proj2 (proj2 (getMostUsedFormats_top_five
                                [("JPEG_to_PNG", 3%Z); ("PDF_to_DOCX", 7%Z)])))).
  left. reflexivity.
Defined.

End HistoryFigures.
